(** * Replay memories and the offline training loop of tmrl

    A shallow embedding of [tmrl/custom/custom_memories.py] and
    [tmrl/training_offline.py].

    Python integers are [Z]; Python lists are [list]; a finite Python
    float is the rational it stands for, and a division rounds to the
    nearest binary64 number; a method that can raise returns a [result];
    the attribute [self.data] (a list of columns, each column a list of
    Python objects) is the explicit state threaded through
    [append_buffer]. *)

From Stdlib Require Import ZArith List Bool Lia QArith Qround Qpower Lqa.
From Stdlib Require Import Floats.
Import ListNotations.
Open Scope Z_scope.

(** ** Python primitives used by the code *)

Module Py.

Inductive exn : Type :=
| IndexError
| ValueError
| TypeError
| ZeroDivisionError
| OverflowError.

Inductive result (A : Type) : Type :=
| Ok (a : A)
| Raise (e : exn).
Arguments Ok {A} a.
Arguments Raise {A} e.

Definition bind {A B : Type} (m : result A) (k : A -> result B) : result B :=
  match m with
  | Ok a => k a
  | Raise e => Raise e
  end.

(** [len(l)] *)
Definition len {A : Type} (l : list A) : Z := Z.of_nat (length l).

(** [l[i]] for an integer [i]: a negative index counts from the end,
    anything outside [-len, len) raises [IndexError]. *)
Definition getitem {A : Type} (l : list A) (i : Z) : result A :=
  let j := if i <? 0 then i + len l else i in
  if (j <? 0) || (len l <=? j) then Raise IndexError
  else match nth_error l (Z.to_nat j) with
       | Some x => Ok x
       | None => Raise IndexError
       end.

(** [l[k]] for a literal, non-negative [k]. *)
Definition column {A : Type} (l : list A) (k : nat) : result A :=
  match nth_error l k with
  | Some x => Ok x
  | None => Raise IndexError
  end.

(** [l[k] = x] for a literal, non-negative [k]. *)
Fixpoint setitem {A : Type} (l : list A) (k : nat) (x : A) : result (list A) :=
  match l, k with
  | [], _ => Raise IndexError
  | _ :: t, O => Ok (x :: t)
  | h :: t, S k' => bind (setitem t k' x) (fun t' => Ok (h :: t'))
  end.

(** How a slice bound is adjusted to a sequence of length [n]. *)
Definition clamp (n i : Z) : Z :=
  if i <? 0 then Z.max 0 (i + n) else Z.min i n.

(** [l[lo:hi]]; [None] is an omitted bound. *)
Definition slice {A : Type} (l : list A) (lo hi : option Z) : list A :=
  let n := len l in
  let a := match lo with Some i => clamp n i | None => 0 end in
  let b := match hi with Some i => clamp n i | None => n end in
  firstn (Z.to_nat (b - a)) (skipn (Z.to_nat a) l).

(** [[f(i) for i, _ in enumerate(l)]] *)
Definition enumerate_map {A B : Type} (f : Z -> B) (l : list A) : list B :=
  map (fun i => f (Z.of_nat i)) (seq 0 (length l)).

(** [range(n)] *)
Definition range (n : Z) : list Z := map Z.of_nat (seq 0 (Z.to_nat n)).

(** [[f(x) for x in l]] where evaluating [f(x)] can raise. *)
Fixpoint comprehension {A B : Type} (f : A -> result B) (l : list A)
  : result (list B) :=
  match l with
  | [] => Ok []
  | x :: t =>
      bind (f x) (fun y => bind (comprehension f t) (fun ys => Ok (y :: ys)))
  end.

(** *** Floats

    A Python float is an IEEE 754 binary64 number: a sign, a significand
    of 53 bits and a power of two between [2^-1074] and [2^971] as the
    unit of the last place.  A finite float is given here by its exact
    value, a rational. *)

(** The integer nearest to [y], the even one of the two when [y] is half
    way between two integers. *)
Definition round_half_even (y : Q) : Z :=
  let f := Qfloor y in
  match (y - inject_Z f ?= 1 # 2)%Q with
  | Lt => f
  | Eq => if Z.even f then f else f + 1
  | Gt => f + 1
  end.

(** [floor(log2(x))] for a positive [x]: the difference of the bit
    lengths of numerator and denominator, or one less. *)
Definition floor_log2 (x : Q) : Z :=
  let d := Z.log2 (Qnum x) - Z.log2 (Zpos (Qden x)) in
  if Qle_bool (2 ^ d) x then d else d - 1.

(** The binary64 number nearest to a positive [x], ties to the even
    significand: [x] is rounded to a multiple of the unit of its last
    place, [2^(floor(log2 x) - 52)] and at least [2^-1074] (gradual
    underflow).  The result is a float when it is below [2^1024]. *)
Definition binary64 (x : Q) : Q :=
  let e := Z.max (floor_log2 x - 52) (-1074) in
  (inject_Z (round_half_even (x / 2 ^ e)) * 2 ^ e)%Q.

(** [a / b] on two integers: the float nearest to the quotient of the
    integers themselves (CPython's [long_true_divide] rounds the exact
    quotient once, half to even); [ZeroDivisionError] for [b = 0],
    [OverflowError] when the rounded quotient is not a finite float. *)
Definition true_divide (a b : Z) : result Q :=
  if b =? 0 then Raise ZeroDivisionError
  else if a =? 0 then Ok 0%Q
  else
    let r := binary64 (inject_Z (Z.abs a) / inject_Z (Z.abs b)) in
    if Qle_bool (2 ^ 1024) r then Raise OverflowError
    else Ok (if Z.sgn a * Z.sgn b <? 0 then - r else r)%Q.

(** The value of the division of the machine's binary64 arithmetic on
    two integers that are floats themselves (from 0 to [2^53]), for
    comparison with [true_divide]; [None] when it is not finite. *)
Definition machine_divide (a b : Z) : option Q :=
  match Prim2SF (PrimFloat.div (PrimFloat.of_uint63 (Uint63.of_Z a))
                   (PrimFloat.of_uint63 (Uint63.of_Z b))) with
  | SpecFloat.S754_zero _ => Some 0%Q
  | SpecFloat.S754_finite s m e =>
      Some ((if s then - inject_Z (Zpos m) else inject_Z (Zpos m)) * 2 ^ e)%Q
  | _ => None
  end.

End Py.

Import Py.

Notation "x <- m ;; k" := (bind m (fun x => k))
  (at level 61, m at next level, right associativity).

(** ** Stored objects

    A cell of a column is an index (a Python [int]), a [done] flag or an
    opaque payload (an action, a speed, a lidar frame, a float32 reward, an
    info dictionary). *)

Inductive value (Obj : Type) : Type :=
| VInt (z : Z)
| VBool (b : bool)
| VObj (o : Obj).
Arguments VInt {Obj} z.
Arguments VBool {Obj} b.
Arguments VObj {Obj} o.

(** [self.data]: a list of columns. *)
Definition store (Obj : Type) : Type := list (list (value Obj)).

(** An observation tuple [(speed, imgs, *act_buf)]. *)
Record observation (Obj : Type) : Type := Observation {
  o_speed : value Obj;
  o_imgs : list (value Obj);
  o_acts : list (value Obj)
}.
Arguments Observation {Obj} o_speed o_imgs o_acts.
Arguments o_speed {Obj} o.
Arguments o_imgs {Obj} o.
Arguments o_acts {Obj} o.

Section Cells.

Context {Obj : Type}.

(** [np.stack(res)]: raises [ValueError] on an empty sequence; frames of
    one memory have one shape, so the stacked array is the sequence of
    its frames. *)
Definition np_stack (res : list (value Obj)) : result (list (value Obj)) :=
  match res with
  | [] => Raise ValueError
  | _ :: _ => Ok res
  end.

(** [x + 1] where [x] is a cell of the index column, which only ever
    holds integers. *)
Definition succ_index (x : value Obj) : result Z :=
  match x with
  | VInt z => Ok (z + 1)
  | VBool b => Ok ((if b then 1 else 0) + 1)
  | VObj _ => Raise TypeError
  end.

(** [self.data[k] += d] *)
Definition iadd_column (data : store Obj) (k : nat) (d : list (value Obj))
  : result (store Obj) :=
  col <- column data k ;;
  setitem data k (col ++ d).

(** [self.data[k] = self.data[k][to_trim:]] *)
Definition trim_column (data : store Obj) (k : nat) (to_trim : Z)
  : result (store Obj) :=
  col <- column data k ;;
  setitem data k (slice col (Some to_trim) None).

End Cells.

(** ** Local buffer compression

    [get_local_buffer_sample(prev_act, obs, rew, done, info)], the sample
    a worker stores for the lidar memories: of the observation
    [(speed, frames)] it keeps the speed and the most recent frame. *)

Module Compression.

(** The arguments of one call: the outcome of one step of the
    environment. *)
Record step (Obj : Type) : Type := Step {
  prev_act : value Obj;
  obs : value Obj * list (value Obj);
  rew : value Obj;
  done : value Obj;
  info : value Obj
}.
Arguments Step {Obj} prev_act obs rew done info.
Arguments prev_act {Obj} s.
Arguments obs {Obj} s.
Arguments rew {Obj} s.
Arguments done {Obj} s.
Arguments info {Obj} s.

End Compression.

(** ** class MemoryTMNF *)

Module MemoryTMNF.

(** The arguments of [__init__] the methods read. *)
Record config : Type := Config {
  memory_size : Z;
  imgs_obs : Z;
  act_buf_len : Z
}.

Definition min_samples (c : config) : Z :=
  Z.max (imgs_obs c) (act_buf_len c).

Definition start_imgs_offset (c : config) : Z :=
  Z.max 0 (min_samples c - imgs_obs c).

Definition start_acts_offset (c : config) : Z :=
  Z.max 0 (min_samples c - act_buf_len c).

Definition __len__ {Obj : Type} (c : config) (data : store Obj) : Z :=
  match data with
  | [] => 0
  | data0 :: _ =>
      let res := len data0 - min_samples c - 1 in
      if res <? 0 then 0 else res
  end.

End MemoryTMNF.

(** ** class MemoryTMNFLidar(MemoryTMNF) *)

Module MemoryTMNFLidar.

Export MemoryTMNF.

(** A sample of [buffer.memory]: [(act, (speed, lidar), rew, done, info)]. *)
Record sample (Obj : Type) : Type := Sample {
  s_act : value Obj;
  s_obs : value Obj * value Obj;
  s_rew : value Obj;
  s_done : value Obj;
  s_info : value Obj
}.
Arguments Sample {Obj} s_act s_obs s_rew s_done s_info.
Arguments s_act {Obj} s.
Arguments s_obs {Obj} s.
Arguments s_rew {Obj} s.
Arguments s_done {Obj} s.
Arguments s_info {Obj} s.

(** [(last_obs, new_act, rew, new_obs, done, info)] *)
Record transition (Obj : Type) : Type := Transition {
  t_last_obs : observation Obj;
  t_new_act : value Obj;
  t_rew : value Obj;
  t_new_obs : observation Obj;
  t_done : value Obj;
  t_info : value Obj
}.
Arguments Transition {Obj} t_last_obs t_new_act t_rew t_new_obs t_done t_info.
Arguments t_last_obs {Obj} t.
Arguments t_new_act {Obj} t.
Arguments t_rew {Obj} t.
Arguments t_new_obs {Obj} t.
Arguments t_done {Obj} t.
Arguments t_info {Obj} t.

Section Methods.

Context {Obj : Type}.

(** [np.float32(x)]: the stored rewards went through [np.float32]
    already when the worker compressed the sample; the cast is kept
    abstract. *)
Variable np_float32 : value Obj -> value Obj.

Definition load_imgs (c : config) (data : store Obj) (item : Z)
  : result (list (value Obj)) :=
  data3 <- column data 3 ;;
  np_stack (slice data3 (Some (item + start_imgs_offset c))
                        (Some (item + start_imgs_offset c + imgs_obs c + 1))).

Definition load_acts (c : config) (data : store Obj) (item : Z)
  : result (list (value Obj)) :=
  data1 <- column data 1 ;;
  Ok (slice data1 (Some (item + start_acts_offset c))
                  (Some (item + start_acts_offset c + act_buf_len c + 1))).

Definition get_transition (c : config) (data : store Obj) (item : Z)
  : result (transition Obj) :=
  let idx_last := item + min_samples c - 1 in
  let idx_now := item + min_samples c in
  acts <- load_acts c data item ;;
  let last_act_buf := slice acts None (Some (-1)) in
  let new_act_buf := slice acts (Some 1) None in
  imgs <- load_imgs c data item ;;
  data2 <- column data 2 ;;
  speed_last <- getitem data2 idx_last ;;
  let last_obs :=
    Observation speed_last (slice imgs None (Some (-1))) last_act_buf in
  data5 <- column data 5 ;;
  r <- getitem data5 idx_now ;;
  let rew := np_float32 r in
  data1 <- column data 1 ;;
  new_act <- getitem data1 idx_now ;;
  data2' <- column data 2 ;;
  speed_now <- getitem data2' idx_now ;;
  let new_obs :=
    Observation speed_now (slice imgs (Some 1) None) new_act_buf in
  data4 <- column data 4 ;;
  done <- getitem data4 idx_now ;;
  data6 <- column data 6 ;;
  info <- getitem data6 idx_now ;;
  Ok (Transition last_obs new_act rew new_obs done info).

Definition append_buffer (c : config) (data : store Obj)
  (buffer : list (sample Obj)) : result (store Obj) :=
  first_data_idx <-
    (if 0 <? __len__ c data
     then data0 <- column data 0 ;;
          last <- getitem data0 (-1) ;;
          succ_index last
     else Ok 0) ;;
  let d0 := enumerate_map (fun i => VInt (first_data_idx + i)) buffer in
  let d1 := map s_act buffer in
  let d2 := map (fun b => fst (s_obs b)) buffer in
  let d3 := map (fun b => snd (s_obs b)) buffer in
  let d4 := map s_done buffer in
  let d5 := map s_rew buffer in
  let d6 := map s_info buffer in
  data <-
    (if 0 <? __len__ c data
     then
       data <- iadd_column data 0 d0 ;;
       data <- iadd_column data 1 d1 ;;
       data <- iadd_column data 2 d2 ;;
       data <- iadd_column data 3 d3 ;;
       data <- iadd_column data 4 d4 ;;
       data <- iadd_column data 5 d5 ;;
       iadd_column data 6 d6
     else
       Ok (data ++ [d0; d1; d2; d3; d4; d5; d6])) ;;
  let to_trim := __len__ c data - memory_size c in
  if 0 <? to_trim
  then
    data <- trim_column data 0 to_trim ;;
    data <- trim_column data 1 to_trim ;;
    data <- trim_column data 2 to_trim ;;
    data <- trim_column data 3 to_trim ;;
    data <- trim_column data 4 to_trim ;;
    data <- trim_column data 5 to_trim ;;
    trim_column data 6 to_trim
  else Ok data.

(** [get_local_buffer_sample]: [obs[1][-1]] raises [IndexError] on an
    empty history of frames. *)
Definition get_local_buffer_sample (s : Compression.step Obj)
  : result (sample Obj) :=
  last_frame <- getitem (snd (Compression.obs s)) (-1) ;;
  let obs_mod := (fst (Compression.obs s), last_frame) in
  let rew_mod := np_float32 (Compression.rew s) in
  let done_mod := Compression.done s in
  Ok (Sample (Compression.prev_act s) obs_mod rew_mod done_mod
        (Compression.info s)).

(** Modelled from the spec: [MemoryDataloading.append], the method the
    trainer calls, whose source is not among the files at hand; by the
    contract of the memory (spec, section 4.3) appending a buffer is the
    work of [append_buffer]. *)
Definition append (c : config) (data : store Obj) (buffer : list (sample Obj))
  : result (store Obj) :=
  append_buffer c data buffer.

End Methods.

End MemoryTMNFLidar.

(** ** class TrajMemoryTMNF and TrajMemoryTMNFLidar(TrajMemoryTMNF) *)

Module TrajMemoryTMNFLidar.

Record config : Type := Config {
  memory_size : Z;
  imgs_obs : Z;
  act_buf_len : Z;
  traj_len : Z
}.

(** [max(imgs_obs, act_buf_len)], then [+= traj_len - 1]. *)
Definition min_samples (c : config) : Z :=
  Z.max (imgs_obs c) (act_buf_len c) + (traj_len c - 1).

Definition start_imgs_offset (c : config) : Z :=
  Z.max 0 (min_samples c - imgs_obs c).

Definition start_acts_offset (c : config) : Z :=
  Z.max 0 (min_samples c - act_buf_len c).

Definition __len__ {Obj : Type} (c : config) (data : store Obj) : Z :=
  match data with
  | [] => 0
  | data0 :: _ =>
      let res := len data0 - min_samples c - 1 in
      if res <? 0 then 0 else res
  end.

(** [(augm_obs_traj, rew_traj, done_traj, info_traj)] *)
Record trajectory (Obj : Type) : Type := Trajectory {
  augm_obs_traj : list (observation Obj);
  rew_traj : list (value Obj);
  done_traj : list (value Obj);
  info_traj : list (value Obj)
}.
Arguments Trajectory {Obj} augm_obs_traj rew_traj done_traj info_traj.
Arguments augm_obs_traj {Obj} t.
Arguments rew_traj {Obj} t.
Arguments done_traj {Obj} t.
Arguments info_traj {Obj} t.

Section Methods.

Context {Obj : Type}.
Variable np_float32 : value Obj -> value Obj.

Definition load_imgs_traj (c : config) (data : store Obj) (item : Z)
  : result (list (value Obj)) :=
  data3 <- column data 3 ;;
  np_stack (slice data3 (Some (item + start_imgs_offset c))
              (Some (item + start_imgs_offset c + imgs_obs c + traj_len c))).

Definition load_acts_traj (c : config) (data : store Obj) (item : Z)
  : result (list (value Obj)) :=
  data1 <- column data 1 ;;
  Ok (slice data1 (Some (item + start_acts_offset c))
            (Some (item + start_acts_offset c + act_buf_len c + traj_len c))).

Definition get_trajectory (c : config) (data : store Obj) (item : Z)
  : result (trajectory Obj) :=
  let idx_now := item + min_samples c in
  all_acts <- load_acts_traj c data item ;;
  all_imgs <- load_imgs_traj c data item ;;
  rew_traj <-
    comprehension (fun i =>
      data5 <- column data 5 ;;
      r <- getitem data5 (idx_now + i) ;;
      Ok (np_float32 r)) (range (traj_len c)) ;;
  augm_obs_traj <-
    comprehension (fun i =>
      data2 <- column data 2 ;;
      speed <- getitem data2 (idx_now + i) ;;
      Ok (Observation speed
            (slice all_imgs (Some (1 + i)) (Some (imgs_obs c + i + 1)))
            (slice all_acts (Some (1 + i)) (Some (act_buf_len c + i + 1)))))
      (range (traj_len c)) ;;
  done_traj <-
    comprehension (fun i =>
      data4 <- column data 4 ;;
      getitem data4 (idx_now + i)) (range (traj_len c)) ;;
  info_traj <-
    comprehension (fun i =>
      data6 <- column data 6 ;;
      getitem data6 (idx_now + i)) (range (traj_len c)) ;;
  Ok (Trajectory augm_obs_traj rew_traj done_traj info_traj).

End Methods.

(** [append_buffer] of [TrajMemoryTMNFLidar]: the text of the one of
    [MemoryTMNFLidar], on the [__len__] of this class. *)
Definition append_buffer {Obj : Type} (c : config) (data : store Obj)
  (buffer : list (MemoryTMNFLidar.sample Obj)) : result (store Obj) :=
  first_data_idx <-
    (if 0 <? __len__ c data
     then data0 <- column data 0 ;;
          last <- getitem data0 (-1) ;;
          succ_index last
     else Ok 0) ;;
  let d0 := enumerate_map (fun i => VInt (first_data_idx + i)) buffer in
  let d1 := map MemoryTMNFLidar.s_act buffer in
  let d2 := map (fun b => fst (MemoryTMNFLidar.s_obs b)) buffer in
  let d3 := map (fun b => snd (MemoryTMNFLidar.s_obs b)) buffer in
  let d4 := map MemoryTMNFLidar.s_done buffer in
  let d5 := map MemoryTMNFLidar.s_rew buffer in
  let d6 := map MemoryTMNFLidar.s_info buffer in
  data <-
    (if 0 <? __len__ c data
     then
       data <- iadd_column data 0 d0 ;;
       data <- iadd_column data 1 d1 ;;
       data <- iadd_column data 2 d2 ;;
       data <- iadd_column data 3 d3 ;;
       data <- iadd_column data 4 d4 ;;
       data <- iadd_column data 5 d5 ;;
       iadd_column data 6 d6
     else
       Ok (data ++ [d0; d1; d2; d3; d4; d5; d6])) ;;
  let to_trim := __len__ c data - memory_size c in
  if 0 <? to_trim
  then
    data <- trim_column data 0 to_trim ;;
    data <- trim_column data 1 to_trim ;;
    data <- trim_column data 2 to_trim ;;
    data <- trim_column data 3 to_trim ;;
    data <- trim_column data 4 to_trim ;;
    data <- trim_column data 5 to_trim ;;
    trim_column data 6 to_trim
  else Ok data.

End TrajMemoryTMNFLidar.

(** ** class MemoryTM2020 *)

Module MemoryTM2020.

Record config : Type := Config {
  memory_size : Z;
  imgs_obs : Z;
  act_buf_len : Z
}.

Definition min_samples (c : config) : Z :=
  Z.max (imgs_obs c) (act_buf_len c).

(** A sample [(act, (speed, gear, rpm, img), rew, done, info)]; [s_img]
    is [b[1][3][1]], the encoded bytes of the last image. *)
Record sample (Obj : Type) : Type := Sample {
  s_act : value Obj;
  s_speed : value Obj;
  s_gear : value Obj;
  s_rpm : value Obj;
  s_img : value Obj;
  s_rew : value Obj;
  s_done : value Obj;
  s_info : value Obj
}.
Arguments Sample {Obj} s_act s_speed s_gear s_rpm s_img s_rew s_done s_info.
Arguments s_act {Obj} s.
Arguments s_speed {Obj} s.
Arguments s_gear {Obj} s.
Arguments s_rpm {Obj} s.
Arguments s_img {Obj} s.
Arguments s_rew {Obj} s.
Arguments s_done {Obj} s.
Arguments s_info {Obj} s.

(** The object state [append_buffer] changes: the columns and the image
    files written under [self.path], newest first, each with the index
    its name is made of. *)
Record memory (Obj : Type) : Type := Memory {
  data : store Obj;
  files : list (Z * value Obj)
}.
Arguments Memory {Obj} data files.
Arguments data {Obj} m.
Arguments files {Obj} m.

(** [a % m] *)
Definition py_mod (a m : Z) : result Z :=
  if m =? 0 then Raise ZeroDivisionError else Ok (a mod m).

Definition __len__ {Obj : Type} (c : config) (data : store Obj) : result Z :=
  if len data <? min_samples c + 1 then Ok 0
  else
    data0 <- column data 0 ;;
    let res := len data0 - min_samples c - 1 in
    if res <? 0 then Ok 0 else Ok res.

Section Methods.

Context {Obj : Type}.

(** [cv2.imdecode(np.array(x), cv2.IMREAD_UNCHANGED)] *)
Variable cv2_imdecode : value Obj -> value Obj.

Definition append_buffer (c : config) (self : memory Obj)
  (buffer : list (sample Obj)) : result (memory Obj) :=
  n <- __len__ c (data self) ;;
  first_data_idx <-
    (if 0 <? n
     then data0 <- column (data self) 0 ;;
          last <- getitem data0 (-1) ;;
          succ_index last
     else Ok 0) ;;
  d0 <- comprehension (fun i => py_mod (first_data_idx + i) (memory_size c))
          (range (len buffer)) ;;
  let d1 := map s_act buffer in
  let d2 := map s_speed buffer in
  let d3 := map s_gear buffer in
  let d4 := map s_rpm buffer in
  let written := map (fun bd => (snd bd, cv2_imdecode (s_img (fst bd))))
                     (combine buffer d0) in
  let d5 := map s_done buffer in
  let d6 := map s_rew buffer in
  let d7 := map s_info buffer in
  let d0 := map (@VInt Obj) d0 in
  n <- __len__ c (data self) ;;
  new_data <-
    (if 0 <? n
     then
       data <- iadd_column (data self) 0 d0 ;;
       data <- iadd_column data 1 d1 ;;
       data <- iadd_column data 2 d2 ;;
       data <- iadd_column data 3 d3 ;;
       data <- iadd_column data 4 d4 ;;
       data <- iadd_column data 5 d5 ;;
       data <- iadd_column data 6 d6 ;;
       iadd_column data 7 d7
     else
       Ok (data self ++ [d0; d1; d2; d3; d4; d5; d6; d7])) ;;
  n <- __len__ c new_data ;;
  let to_trim := n - memory_size c in
  new_data <-
    (if 0 <? to_trim
     then
       data <- trim_column new_data 0 to_trim ;;
       data <- trim_column data 1 to_trim ;;
       data <- trim_column data 2 to_trim ;;
       data <- trim_column data 3 to_trim ;;
       data <- trim_column data 4 to_trim ;;
       data <- trim_column data 5 to_trim ;;
       data <- trim_column data 6 to_trim ;;
       trim_column data 7 to_trim
     else Ok new_data) ;;
  Ok (Memory new_data (rev written ++ files self)).

End Methods.

Definition start_imgs_offset (c : config) : Z :=
  Z.max 0 (min_samples c - imgs_obs c).

Definition start_acts_offset (c : config) : Z :=
  Z.max 0 (min_samples c - act_buf_len c).

(** An observation [(speed, gear, rpm, imgs, *act_buf)]. *)
Record observation (Obj : Type) : Type := Observation {
  o_speed : value Obj;
  o_gear : value Obj;
  o_rpm : value Obj;
  o_imgs : list (value Obj);
  o_acts : list (value Obj)
}.
Arguments Observation {Obj} o_speed o_gear o_rpm o_imgs o_acts.
Arguments o_speed {Obj} o.
Arguments o_gear {Obj} o.
Arguments o_rpm {Obj} o.
Arguments o_imgs {Obj} o.
Arguments o_acts {Obj} o.

(** [(last_obs, new_act, rew, new_obs, done, info)] *)
Record transition (Obj : Type) : Type := Transition {
  t_last_obs : observation Obj;
  t_new_act : value Obj;
  t_rew : value Obj;
  t_new_obs : observation Obj;
  t_done : value Obj;
  t_info : value Obj
}.
Arguments Transition {Obj} t_last_obs t_new_act t_rew t_new_obs t_done t_info.
Arguments t_last_obs {Obj} t.
Arguments t_new_act {Obj} t.
Arguments t_rew {Obj} t.
Arguments t_new_obs {Obj} t.
Arguments t_done {Obj} t.
Arguments t_info {Obj} t.

Section Reading.

Context {Obj : Type}.

(** [np.moveaxis(cv2.imread(str(self.path / (str(x) + ".png"))), -1, 0)]
    for the index cell [x]: what the file named after [x] holds on the
    disk at the time of the call, or the error of a file that cannot be
    read. *)
Variable read_image : value Obj -> result (value Obj).

(** [np.float32(x)] *)
Variable np_float32 : value Obj -> value Obj.

(** [np.array(x, dtype=np.float32)] *)
Variable np_array_float32 : value Obj -> value Obj.

(** [range(a, b)] *)
Definition range2 (a b : Z) : list Z :=
  map (fun i => a + Z.of_nat i) (seq 0 (Z.to_nat (b - a))).

Definition load_imgs (c : config) (data : store Obj) (item : Z)
  : result (list (value Obj)) :=
  comprehension (fun i =>
      data0 <- column data 0 ;;
      name <- getitem data0 i ;;
      read_image name)
    (range2 (item + start_imgs_offset c)
            (item + start_imgs_offset c + imgs_obs c + 1)).

Definition load_acts (c : config) (data : store Obj) (item : Z)
  : result (list (value Obj)) :=
  data1 <- column data 1 ;;
  Ok (slice data1 (Some (item + start_acts_offset c))
                  (Some (item + start_acts_offset c + act_buf_len c + 1))).

Definition get_transition (c : config) (data : store Obj) (item : Z)
  : result (transition Obj) :=
  let idx_last := item + min_samples c - 1 in
  let idx_now := item + min_samples c in
  imgs <- load_imgs c data item ;;
  acts <- load_acts c data item ;;
  let last_act_buf := slice acts None (Some (-1)) in
  let new_act_buf := slice acts (Some 1) None in
  data2 <- column data 2 ;;
  speed_last <- getitem data2 idx_last ;;
  data3 <- column data 3 ;;
  gear_last <- getitem data3 idx_last ;;
  data4 <- column data 4 ;;
  rpm_last <- getitem data4 idx_last ;;
  let last_obs :=
    Observation speed_last gear_last rpm_last
      (slice imgs None (Some (-1))) last_act_buf in
  data6 <- column data 6 ;;
  r <- getitem data6 idx_now ;;
  let rew := np_float32 r in
  data1 <- column data 1 ;;
  a <- getitem data1 idx_now ;;
  let new_act := np_array_float32 a in
  data2' <- column data 2 ;;
  speed_now <- getitem data2' idx_now ;;
  data3' <- column data 3 ;;
  gear_now <- getitem data3' idx_now ;;
  data4' <- column data 4 ;;
  rpm_now <- getitem data4' idx_now ;;
  let new_obs :=
    Observation speed_now gear_now rpm_now
      (slice imgs (Some 1) None) new_act_buf in
  data5 <- column data 5 ;;
  done <- getitem data5 idx_now ;;
  data7 <- column data 7 ;;
  info <- getitem data7 idx_now ;;
  Ok (Transition last_obs new_act rew new_obs done info).

End Reading.

End MemoryTM2020.

(** ** class MemoryCognifly *)

Module MemoryCognifly.

Record config : Type := Config {
  memory_size : Z;
  imgs_obs : Z;
  act_buf_len : Z
}.

Definition min_samples (c : config) : Z :=
  Z.max (imgs_obs c) (act_buf_len c).

(** A sample [(act, (alt, vel, acc, tar, del, del_k), rew, done, info)]. *)
Record sample (Obj : Type) : Type := Sample {
  s_act : value Obj;
  s_alt : value Obj;
  s_vel : value Obj;
  s_acc : value Obj;
  s_tar : value Obj;
  s_del : value Obj;
  s_del_k : value Obj;
  s_rew : value Obj;
  s_done : value Obj;
  s_info : value Obj
}.
Arguments Sample {Obj} s_act s_alt s_vel s_acc s_tar s_del s_del_k
  s_rew s_done s_info.
Arguments s_act {Obj} s.
Arguments s_alt {Obj} s.
Arguments s_vel {Obj} s.
Arguments s_acc {Obj} s.
Arguments s_tar {Obj} s.
Arguments s_del {Obj} s.
Arguments s_del_k {Obj} s.
Arguments s_rew {Obj} s.
Arguments s_done {Obj} s.
Arguments s_info {Obj} s.

Definition __len__ {Obj : Type} (c : config) (data : store Obj) : result Z :=
  if len data <? min_samples c + 1 then Ok 0
  else
    data0 <- column data 0 ;;
    let res := len data0 - min_samples c - 1 in
    if res <? 0 then Ok 0 else Ok res.

Definition append_buffer {Obj : Type} (c : config) (data : store Obj)
  (buffer : list (sample Obj)) : result (store Obj) :=
  n <- __len__ c data ;;
  first_data_idx <-
    (if 0 <? n
     then data0 <- column data 0 ;;
          last <- getitem data0 (-1) ;;
          succ_index last
     else Ok 0) ;;
  d0 <- comprehension
          (fun i => MemoryTM2020.py_mod (first_data_idx + i) (memory_size c))
          (range (len buffer)) ;;
  let d0 := map (@VInt Obj) d0 in
  let d1 := map s_act buffer in
  let d2 := map s_alt buffer in
  let d3 := map s_vel buffer in
  let d4 := map s_acc buffer in
  let d5 := map s_tar buffer in
  let d6 := map s_del buffer in
  let d7 := map s_del_k buffer in
  let d8 := map s_done buffer in
  let d9 := map s_rew buffer in
  let d10 := map s_info buffer in
  n <- __len__ c data ;;
  data <-
    (if 0 <? n
     then
       data <- iadd_column data 0 d0 ;;
       data <- iadd_column data 1 d1 ;;
       data <- iadd_column data 2 d2 ;;
       data <- iadd_column data 3 d3 ;;
       data <- iadd_column data 4 d4 ;;
       data <- iadd_column data 5 d5 ;;
       data <- iadd_column data 6 d6 ;;
       data <- iadd_column data 7 d7 ;;
       data <- iadd_column data 8 d8 ;;
       data <- iadd_column data 9 d9 ;;
       iadd_column data 10 d10
     else
       Ok (data ++ [d0; d1; d2; d3; d4; d5; d6; d7; d8; d9; d10])) ;;
  n <- __len__ c data ;;
  let to_trim := n - memory_size c in
  if 0 <? to_trim
  then
    data <- trim_column data 0 to_trim ;;
    data <- trim_column data 1 to_trim ;;
    data <- trim_column data 2 to_trim ;;
    data <- trim_column data 3 to_trim ;;
    data <- trim_column data 4 to_trim ;;
    data <- trim_column data 5 to_trim ;;
    data <- trim_column data 6 to_trim ;;
    data <- trim_column data 7 to_trim ;;
    data <- trim_column data 8 to_trim ;;
    data <- trim_column data 9 to_trim ;;
    trim_column data 10 to_trim
  else Ok data.

Definition start_acts_offset (c : config) : Z :=
  Z.max 0 (min_samples c - act_buf_len c).

(** An observation [(alt, vel, acc, tar, del, del_k, *act_buf)]. *)
Record observation (Obj : Type) : Type := Observation {
  o_alt : value Obj;
  o_vel : value Obj;
  o_acc : value Obj;
  o_tar : value Obj;
  o_del : value Obj;
  o_del_k : value Obj;
  o_acts : list (value Obj)
}.
Arguments Observation {Obj} o_alt o_vel o_acc o_tar o_del o_del_k o_acts.
Arguments o_alt {Obj} o.
Arguments o_vel {Obj} o.
Arguments o_acc {Obj} o.
Arguments o_tar {Obj} o.
Arguments o_del {Obj} o.
Arguments o_del_k {Obj} o.
Arguments o_acts {Obj} o.

(** [(last_obs, new_act, rew, new_obs, done, info)] *)
Record transition (Obj : Type) : Type := Transition {
  t_last_obs : observation Obj;
  t_new_act : value Obj;
  t_rew : value Obj;
  t_new_obs : observation Obj;
  t_done : value Obj;
  t_info : value Obj
}.
Arguments Transition {Obj} t_last_obs t_new_act t_rew t_new_obs t_done t_info.
Arguments t_last_obs {Obj} t.
Arguments t_new_act {Obj} t.
Arguments t_rew {Obj} t.
Arguments t_new_obs {Obj} t.
Arguments t_done {Obj} t.
Arguments t_info {Obj} t.

Section Reading.

Context {Obj : Type}.

(** [np.float32(x)] *)
Variable np_float32 : value Obj -> value Obj.

(** [np.array(x, dtype=np.float32)] *)
Variable np_array_float32 : value Obj -> value Obj.

Definition load_acts (c : config) (data : store Obj) (item : Z)
  : result (list (value Obj)) :=
  data1 <- column data 1 ;;
  Ok (slice data1 (Some (item + start_acts_offset c))
                  (Some (item + start_acts_offset c + act_buf_len c + 1))).

(** The six cells [self.data[2][i], ..., self.data[7][i]], read in this
    order. *)
Definition state_cells (data : store Obj) (i : Z)
  (acts : list (value Obj)) : result (observation Obj) :=
  data2 <- column data 2 ;;
  alt <- getitem data2 i ;;
  data3 <- column data 3 ;;
  vel <- getitem data3 i ;;
  data4 <- column data 4 ;;
  acc <- getitem data4 i ;;
  data5 <- column data 5 ;;
  tar <- getitem data5 i ;;
  data6 <- column data 6 ;;
  del <- getitem data6 i ;;
  data7 <- column data 7 ;;
  del_k <- getitem data7 i ;;
  Ok (Observation alt vel acc tar del del_k acts).

Definition get_transition (c : config) (data : store Obj) (item : Z)
  : result (transition Obj) :=
  let idx_last := item + min_samples c - 1 in
  let idx_now := item + min_samples c in
  acts <- load_acts c data item ;;
  let last_act_buf := slice acts None (Some (-1)) in
  let new_act_buf := slice acts (Some 1) None in
  last_obs <- state_cells data idx_last last_act_buf ;;
  data9 <- column data 9 ;;
  r <- getitem data9 idx_now ;;
  let rew := np_float32 r in
  data1 <- column data 1 ;;
  a <- getitem data1 idx_now ;;
  let new_act := np_array_float32 a in
  new_obs <- state_cells data idx_now new_act_buf ;;
  data8 <- column data 8 ;;
  done <- getitem data8 idx_now ;;
  data10 <- column data 10 ;;
  info <- getitem data10 idx_now ;;
  Ok (Transition last_obs new_act rew new_obs done info).

End Reading.

End MemoryCognifly.

(** ** class TrainingOffline

    The counters are Python integers.  The ratio is the Python float
    [total_updates / total_samples], the rounded quotient, given by its
    exact value; the bound [max_training_steps_per_env_step] is a finite
    number (a float or an integer), given by its exact value too, and
    Python compares the two exactly.  The interface is an oracle: the list
    of the buffers its next calls of [retrieve_buffer] return.  A run that
    needs a buffer the oracle does not hold is [Pending].  The calls on
    the outside (retrieving, sleeping, training, broadcasting) are
    recorded in a log, newest first, with the counters at the time of the
    call. *)

Module TrainingOffline.

Record config : Type := Config {
  rounds : nat;
  update_model_interval : Z;
  max_training_steps_per_env_step : Q
}.

Inductive event : Type :=
| EvWaiting
| EvRetrieve (n : Z)
| EvSleep
| EvTrain (updates samples : Z)
| EvUpdated (updates samples : Z)
| EvBroadcast.

Inductive status : Type :=
| Done
| Raised (e : exn)
| Pending.

Section Trainer.

Variables Memory Sample : Type.

(** [self.memory.append(buffer)]: the class of the memory is a field of
    the trainer ([Memory: type = MemoryDataloading]), its [append] is a
    parameter here. *)
Variable memory_append : Memory -> list Sample -> result Memory.

(** The number of batches that one iteration [for batch in self.memory]
    yields; [MemoryDataloading.__iter__] is not among the sources, the
    number is a parameter. *)
Variable batches : nat.

Record trainer : Type := Trainer {
  epoch : Z;
  total_updates : Z;
  total_samples : Z;
  memory : Memory
}.

Record world : Type := World {
  self : trainer;
  incoming : list (list Sample);
  log : list event
}.

(** [update_buffer], given the [buffer] that [interface.retrieve_buffer()]
    returned. *)
Definition update_buffer (t : trainer) (buffer : list Sample) : result trainer :=
  m <- memory_append (memory t) buffer ;;
  Ok (Trainer (epoch t) (total_updates t) (total_samples t + len buffer) m).

(** [self.total_updates / self.total_samples if self.total_samples > 0.0
    else -1.0] *)
Definition ratio (t : trainer) : result Q :=
  if 0 <? total_samples t
  then true_divide (total_updates t) (total_samples t)
  else Ok (inject_Z (-1)).

(** [ratio > self.max_training_steps_per_env_step or ratio == -1.0] *)
Definition over (c : config) (r : Q) : bool :=
  negb (Qle_bool r (max_training_steps_per_env_step c))
  || Qeq_bool r (inject_Z (-1)).

(** The ratio of a trainer and the test on it, as [check_ratio] makes
    them one after the other. *)
Definition starved (c : config) (t : trainer) : result bool :=
  r <- ratio t ;;
  Ok (over c r).

(** The [while] loop of [check_ratio], entered with the ratio over the
    bound. *)
Fixpoint wait_for_samples (c : config) (bufs : list (list Sample))
  (t : trainer) (l : list event) : status * world :=
  match bufs with
  | [] => (Pending, World t [] l)
  | buffer :: rest =>
      match update_buffer t buffer with
      | Raise e => (Raised e, World t rest (EvRetrieve (len buffer) :: l))
      | Ok t' =>
          match starved c t' with
          | Raise e => (Raised e, World t' rest (EvRetrieve (len buffer) :: l))
          | Ok true =>
              wait_for_samples c rest t'
                (EvSleep :: EvRetrieve (len buffer) :: l)
          | Ok false => (Done, World t' rest (EvRetrieve (len buffer) :: l))
          end
      end
  end.

Definition check_ratio (c : config) (w : world) : status * world :=
  match starved c (self w) with
  | Raise e => (Raised e, w)
  | Ok true =>
      wait_for_samples c (incoming w) (self w) (EvWaiting :: log w)
  | Ok false => (Done, w)
  end.

(** One turn of [for batch in self.memory]. *)
Definition train_step (c : config) (w : world) : status * world :=
  let t := self w in
  let l := EvTrain (total_updates t) (total_samples t) :: log w in
  let t := Trainer (epoch t) (total_updates t + 1) (total_samples t) (memory t) in
  let l := EvUpdated (total_updates t) (total_samples t) :: l in
  if update_model_interval c =? 0
  then (Raised ZeroDivisionError, World t (incoming w) l)
  else
    let l := if total_updates t mod update_model_interval c =? 0
             then EvBroadcast :: l else l in
    check_ratio c (World t (incoming w) l).

Fixpoint train_loop (c : config) (n : nat) (w : world) : status * world :=
  match n with
  | O => (Done, w)
  | S n' =>
      match train_step c w with
      | (Done, w') => train_loop c n' w'
      | other => other
      end
  end.

(** The body of [for rnd in range(self.rounds)]. *)
Definition run_round (c : config) (w : world) : status * world :=
  match check_ratio c w with
  | (Done, w1) =>
      match incoming w1 with
      | [] => (Pending, w1)
      | buffer :: rest =>
          let l := EvRetrieve (len buffer) :: log w1 in
          match update_buffer (self w1) buffer with
          | Raise e => (Raised e, World (self w1) rest l)
          | Ok t => train_loop c batches (World t rest l)
          end
      end
  | other => other
  end.

Fixpoint run_rounds (c : config) (n : nat) (w : world) : status * world :=
  match n with
  | O => (Done, w)
  | S n' =>
      match run_round c w with
      | (Done, w') => run_rounds c n' w'
      | other => other
      end
  end.

Definition run_epoch (c : config) (w : world) : status * world :=
  match run_rounds c (rounds c) w with
  | (Done, w') =>
      let t := self w' in
      (Done, World (Trainer (epoch t + 1) (total_updates t) (total_samples t)
                      (memory t)) (incoming w') (log w'))
  | other => other
  end.

End Trainer.

Arguments Trainer {Memory} epoch total_updates total_samples memory.
Arguments epoch {Memory} t.
Arguments total_updates {Memory} t.
Arguments total_samples {Memory} t.
Arguments memory {Memory} t.
Arguments World {Memory Sample} self incoming log.
Arguments self {Memory Sample} w.
Arguments incoming {Memory Sample} w.
Arguments log {Memory Sample} w.
Arguments update_buffer {Memory Sample} memory_append t buffer.
Arguments ratio {Memory} t.
Arguments starved {Memory} c t.
Arguments wait_for_samples {Memory Sample} memory_append c bufs t l.
Arguments check_ratio {Memory Sample} memory_append c w.
Arguments train_step {Memory Sample} memory_append c w.
Arguments train_loop {Memory Sample} memory_append c n w.
Arguments run_round {Memory Sample} memory_append batches c w.
Arguments run_rounds {Memory Sample} memory_append batches c n w.
Arguments run_epoch {Memory Sample} memory_append batches c w.

End TrainingOffline.

(** ** Vocabulary of the statements *)

(** The [n] contiguous elements of [l] that start at position [start]. *)
Definition window {A : Type} (l : list A) (start n : nat) : list A :=
  firstn n (skipn start l).

(** The index cells [k, k+1, ..., k+n-1]. *)
Definition consecutive {Obj : Type} (k : Z) (n : nat) : list (value Obj) :=
  map (fun i => VInt (k + Z.of_nat i)) (seq 0 n).

(** A store whose first seven columns are the seven fields of the lidar
    memory, all of one length. *)
Definition aligned {Obj : Type} (data : store Obj)
  (idx acts speeds imgs dones rews infos : list (value Obj)) : Prop :=
  (exists extra,
      data = idx :: acts :: speeds :: imgs :: dones :: rews :: infos :: extra)
  /\ length acts = length idx
  /\ length speeds = length idx
  /\ length imgs = length idx
  /\ length dones = length idx
  /\ length rews = length idx
  /\ length infos = length idx.

(** The stores a lidar memory goes through: empty at construction, then
    changed by [append_buffer] only. *)
Inductive reachable {Obj : Type} (c : MemoryTMNF.config)
  : store Obj -> Prop :=
| reach_init : reachable c []
| reach_append (data data' : store Obj)
    (buffer : list (MemoryTMNFLidar.sample Obj)) :
    reachable c data ->
    MemoryTMNFLidar.append_buffer c data buffer = Ok data' ->
    reachable c data'.

(** The index column of a store. *)
Definition index_column {Obj : Type} (data : store Obj) : list (value Obj) :=
  match data with
  | [] => []
  | data0 :: _ => data0
  end.

(** The number of stored rows: the length of the index column. *)
Definition row_count {Obj : Type} (data : store Obj) : Z :=
  len (index_column data).

(** Whether [append_buffer] adds its rows to the index column: it does on
    a store without columns and on one whose usable length is positive. *)
Definition extends {Obj : Type} (c : MemoryTMNF.config) (data : store Obj) : bool :=
  match data with
  | [] => true
  | _ :: _ => 0 <? MemoryTMNF.__len__ c data
  end.

(** The ratio of [u] updates to [s] samples is defined and at most
    [bound]: there are samples, and the float [u / s] exists and does not
    exceed the bound. *)
Definition within_bound (bound : Q) (u s : Z) : Prop :=
  0 < s /\ exists r, true_divide u s = Ok r /\ (r <= bound)%Q.

(** What the pacing rule promises at the observation points of the
    training loop: before a training step the ratio is within the bound;
    after it the ratio exceeds the bound by at most what that one step
    has added, that is, the ratio of one update less is within the
    bound. *)
Definition observation_ok (bound : Q) (e : TrainingOffline.event) : Prop :=
  match e with
  | TrainingOffline.EvTrain u s => within_bound bound u s
  | TrainingOffline.EvUpdated u s => within_bound bound (u - 1) s
  | _ => True
  end.

(** Every observation point recorded in the log [l] keeps the pacing
    rule of the configuration [c]. *)
Definition paced (c : TrainingOffline.config) (l : list TrainingOffline.event)
  : Prop :=
  Forall (observation_ok (TrainingOffline.max_training_steps_per_env_step c)) l.

(** The trainer after [update_buffer] on each buffer of [bufs] in turn. *)
Fixpoint ingest {Memory Sample : Type}
  (memory_append : Memory -> list Sample -> result Memory)
  (t : TrainingOffline.trainer Memory) (bufs : list (list Sample))
  : result (TrainingOffline.trainer Memory) :=
  match bufs with
  | [] => Ok t
  | buffer :: rest =>
      t' <- TrainingOffline.update_buffer memory_append t buffer ;;
      ingest memory_append t' rest
  end.

(** The Python objects the two extraction methods return, as nested
    sequences: a transition is a 6-tuple, a trajectory a 4-tuple of
    lists. *)
#[local] Unset Elimination Schemes.
Inductive pyobj (Obj : Type) : Type :=
| PyVal (v : value Obj)
| PySeq (items : list (pyobj Obj)).
#[local] Set Elimination Schemes.
Arguments PyVal {Obj} v.
Arguments PySeq {Obj} items.

Definition observation_obj {Obj : Type} (o : observation Obj) : pyobj Obj :=
  PySeq (PyVal (o_speed o) :: PySeq (map PyVal (o_imgs o))
         :: map PyVal (o_acts o)).

Definition transition_obj {Obj : Type} (t : MemoryTMNFLidar.transition Obj)
  : pyobj Obj :=
  PySeq [observation_obj (MemoryTMNFLidar.t_last_obs t);
         PyVal (MemoryTMNFLidar.t_new_act t);
         PyVal (MemoryTMNFLidar.t_rew t);
         observation_obj (MemoryTMNFLidar.t_new_obs t);
         PyVal (MemoryTMNFLidar.t_done t);
         PyVal (MemoryTMNFLidar.t_info t)].

Definition trajectory_obj {Obj : Type} (t : TrajMemoryTMNFLidar.trajectory Obj)
  : pyobj Obj :=
  PySeq [PySeq (map observation_obj (TrajMemoryTMNFLidar.augm_obs_traj t));
         PySeq (map PyVal (TrajMemoryTMNFLidar.rew_traj t));
         PySeq (map PyVal (TrajMemoryTMNFLidar.done_traj t));
         PySeq (map PyVal (TrajMemoryTMNFLidar.info_traj t))].

(** A non-empty store in its normal shape: seven aligned columns in front,
    the first of them a run of consecutive indices starting at [k]. *)
Definition shaped {Obj : Type} (data : store Obj) (k : Z) : Prop :=
  exists idx acts speeds imgs dones rews infos,
    aligned data idx acts speeds imgs dones rews infos
    /\ idx = consecutive k (length idx).

(** The invariant of the stores of a lidar memory. *)
Definition lidar_inv {Obj : Type} (c : MemoryTMNF.config) (data : store Obj)
  : Prop :=
  (data = [] \/ exists k, shaped data k)
  /\ MemoryTMNF.__len__ c data <= Z.max 0 (MemoryTMNF.memory_size c).

(** ** Data of the concrete scenarios

    Payloads are numbered: the [n]-th sample carries the action [100 + n],
    the speed [200 + n], the frame [300 + n], the reward [400 + n] and the
    info [500 + n]. *)

Definition demo_config : MemoryTMNF.config := MemoryTMNF.Config 100 4 1.

Definition demo_sample (n : Z) : MemoryTMNFLidar.sample Z :=
  MemoryTMNFLidar.Sample (VObj (100 + n)) (VObj (200 + n), VObj (300 + n))
    (VObj (400 + n)) (VBool false) (VObj (500 + n)).

Definition demo_buffer (first n : nat) : list (MemoryTMNFLidar.sample Z) :=
  map (fun i => demo_sample (Z.of_nat i)) (seq first n).

Definition demo_column (base : Z) (n : nat) : list (value Z) :=
  map (fun i => VObj (base + Z.of_nat i)) (seq 0 n).

(** The store after appending [demo_buffer 0 n] to the empty memory, for
    [n] small enough that nothing is trimmed. *)
Definition demo_store (n : nat) : store Z :=
  [consecutive 0 n; demo_column 100 n; demo_column 200 n; demo_column 300 n;
   repeat (VBool false) n; demo_column 400 n; demo_column 500 n].

Definition tm2020_config : MemoryTM2020.config := MemoryTM2020.Config 100 8 1.

Definition tm2020_sample (n : Z) : MemoryTM2020.sample Z :=
  MemoryTM2020.Sample (VObj (100 + n)) (VObj (200 + n)) (VObj (300 + n))
    (VObj (400 + n)) (VObj (500 + n)) (VObj (600 + n)) (VBool false)
    (VObj (700 + n)).

Definition tm2020_buffer (first n : nat) : list (MemoryTM2020.sample Z) :=
  map (fun i => tm2020_sample (Z.of_nat i)) (seq first n).

(** A trainer over the lidar memory that made [u] updates on [s] samples. *)
Definition demo_trainer (u s : Z) (data : store Z)
  : TrainingOffline.trainer (store Z) :=
  TrainingOffline.Trainer 0 u s data.

Definition demo_pacing : TrainingOffline.config :=
  TrainingOffline.Config 1 100 1.

(** ** Further vocabulary *)

(** The seven columns made of a buffer whose first sample gets the index
    [first]: what [append_buffer] calls [d0 .. d6]. *)
Definition columns_of {Obj : Type} (first : Z)
  (buffer : list (MemoryTMNFLidar.sample Obj)) : store Obj :=
  [consecutive first (length buffer);
   map MemoryTMNFLidar.s_act buffer;
   map (fun b => fst (MemoryTMNFLidar.s_obs b)) buffer;
   map (fun b => snd (MemoryTMNFLidar.s_obs b)) buffer;
   map MemoryTMNFLidar.s_done buffer;
   map MemoryTMNFLidar.s_rew buffer;
   map MemoryTMNFLidar.s_info buffer].

(** Successive calls of [append_buffer], one per buffer. *)
Fixpoint append_all {Obj : Type} (c : MemoryTMNF.config) (data : store Obj)
  (buffers : list (list (MemoryTMNFLidar.sample Obj))) : result (store Obj) :=
  match buffers with
  | [] => Ok data
  | buffer :: rest =>
      data' <- MemoryTMNFLidar.append_buffer c data buffer ;;
      append_all c data' rest
  end.

(** Column by column, the rows of [b] behind the rows of [a]. *)
Fixpoint glue {Obj : Type} (a b : store Obj) : store Obj :=
  match a, b with
  | x :: a', y :: b' => (x ++ y) :: glue a' b'
  | _, _ => []
  end.

(** The number of oldest rows [append_buffer] drops from a store that
    holds [rows] rows once the new ones are added. *)
Definition dropped (c : MemoryTMNF.config) (rows : Z) : nat :=
  Z.to_nat (Z.max 0 (Z.max 0 (rows - MemoryTMNF.min_samples c - 1)
                     - MemoryTMNF.memory_size c)).

(** The cell of a column at row [i] ([VInt 0] past the end). *)
Definition row_cell {Obj : Type} (col : list (value Obj)) (i : nat) : value Obj :=
  nth i col (VInt 0).

(** The trajectory made of the [traj_len] consecutive rows that start at
    [item + min_samples]: step [k] carries the scalars of row
    [item + min_samples + k] and the [imgs_obs] frames and [act_buf_len]
    actions that end at this row. *)
Definition trajectory_windows {Obj : Type} (np_float32 : value Obj -> value Obj)
  (c : TrajMemoryTMNFLidar.config)
  (acts speeds imgs dones rews infos : list (value Obj)) (item : Z)
  : TrajMemoryTMNFLidar.trajectory Obj :=
  let now := Z.to_nat (item + TrajMemoryTMNFLidar.min_samples c) in
  let n_imgs := Z.to_nat (TrajMemoryTMNFLidar.imgs_obs c) in
  let n_acts := Z.to_nat (TrajMemoryTMNFLidar.act_buf_len c) in
  let steps := seq 0 (Z.to_nat (TrajMemoryTMNFLidar.traj_len c)) in
  TrajMemoryTMNFLidar.Trajectory
    (map (fun k => Observation (row_cell speeds (now + k))
                     (window imgs (now + k + 1 - n_imgs) n_imgs)
                     (window acts (now + k + 1 - n_acts) n_acts)) steps)
    (map (fun k => np_float32 (row_cell rews (now + k))) steps)
    (map (fun k => row_cell dones (now + k)) steps)
    (map (fun k => row_cell infos (now + k)) steps).

(** The lidar memory that holds [traj_len - 1] more frames and actions
    per observation: it has the [min_samples] of the trajectory memory. *)
Definition lidar_view (c : TrajMemoryTMNFLidar.config) : MemoryTMNF.config :=
  MemoryTMNF.Config (TrajMemoryTMNFLidar.memory_size c)
    (TrajMemoryTMNFLidar.imgs_obs c + (TrajMemoryTMNFLidar.traj_len c - 1))
    (TrajMemoryTMNFLidar.act_buf_len c + (TrajMemoryTMNFLidar.traj_len c - 1)).

(** The stores a trajectory memory goes through. *)
Inductive traj_reachable {Obj : Type} (c : TrajMemoryTMNFLidar.config)
  : store Obj -> Prop :=
| traj_reach_init : traj_reachable c []
| traj_reach_append (data data' : store Obj)
    (buffer : list (MemoryTMNFLidar.sample Obj)) :
    traj_reachable c data ->
    TrajMemoryTMNFLidar.append_buffer c data buffer = Ok data' ->
    traj_reachable c data'.

(** The number of samples in a list of buffers. *)
Definition samples_in {Sample : Type} (bufs : list (list Sample)) : Z :=
  fold_right (fun buffer n => len buffer + n) 0 bufs.

(** Nothing is pending at the head of a log (newest event first): the
    newest event is not an update that a broadcast has to follow. *)
Definition settled (interval : Z) (l : list TrainingOffline.event) : Prop :=
  match l with
  | TrainingOffline.EvUpdated u _ :: _ => u mod interval <> 0
  | _ => True
  end.

(** The cadence of broadcasts in a log (newest event first): a broadcast
    comes directly after an update whose count is a multiple of
    [interval], and an update whose count is such a multiple is directly
    followed by a broadcast. *)
Fixpoint cadence (interval : Z) (l : list TrainingOffline.event) : Prop :=
  match l with
  | [] => True
  | e :: older =>
      match e with
      | TrainingOffline.EvBroadcast =>
          match older with
          | TrainingOffline.EvUpdated u _ :: _ => u mod interval = 0
          | _ => False
          end
      | _ => settled interval older
      end
      /\ cadence interval older
  end.

(** What a run from [w] to [w'] consumed: the buffers [taken] from the
    interface, all counted in [total_samples]; the [updates] made; the
    epoch is the same. *)
Definition consumed {Memory Sample : Type}
  (w w' : @TrainingOffline.world Memory Sample) (updates : Z) : Prop :=
  exists taken,
    TrainingOffline.incoming w = taken ++ TrainingOffline.incoming w'
    /\ TrainingOffline.total_samples (TrainingOffline.self w')
       = TrainingOffline.total_samples (TrainingOffline.self w)
         + samples_in taken
    /\ TrainingOffline.total_updates (TrainingOffline.self w')
       = TrainingOffline.total_updates (TrainingOffline.self w) + updates
    /\ TrainingOffline.epoch (TrainingOffline.self w')
       = TrainingOffline.epoch (TrainingOffline.self w).

(** The most recent frame of a step ([VInt 0] when it has none). *)
Definition newest_frame {Obj : Type} (s : Compression.step Obj) : value Obj :=
  last (snd (Compression.obs s)) (VInt 0).

(** The steps of an episode whose histories of frames roll: the history
    of each step that has [n] predecessors-and-itself holds the most recent
    frames of the [n] steps that end with it. *)
Definition rolling {Obj : Type} (n : nat) (steps : list (Compression.step Obj))
  : Prop :=
  forall j s,
    nth_error steps j = Some s -> (n <= j + 1)%nat ->
    snd (Compression.obs s) = map newest_frame (window steps (j + 1 - n) n).

(** The sample [get_local_buffer_sample] makes of a step that has a
    frame. *)
Definition compressed {Obj : Type} (np_float32 : value Obj -> value Obj)
  (s : Compression.step Obj) : MemoryTMNFLidar.sample Obj :=
  MemoryTMNFLidar.Sample (Compression.prev_act s)
    (fst (Compression.obs s), newest_frame s)
    (np_float32 (Compression.rew s)) (Compression.done s) (Compression.info s).

(** The index cells [k mod m, (k+1) mod m, ..., (k+n-1) mod m]. *)
Definition wrapped {Obj : Type} (m k : Z) (n : nat) : list (value Obj) :=
  map (fun i => VInt ((k + Z.of_nat i) mod m)) (seq 0 n).

(** The eight columns [d0 .. d7] that [MemoryTM2020.append_buffer] makes
    of a buffer whose first sample gets the index [first mod m]. *)
Definition tm2020_columns {Obj : Type} (m first : Z)
  (buffer : list (MemoryTM2020.sample Obj)) : store Obj :=
  [wrapped m first (length buffer);
   map MemoryTM2020.s_act buffer;
   map MemoryTM2020.s_speed buffer;
   map MemoryTM2020.s_gear buffer;
   map MemoryTM2020.s_rpm buffer;
   map MemoryTM2020.s_done buffer;
   map MemoryTM2020.s_rew buffer;
   map MemoryTM2020.s_info buffer].

(** A store of [MemoryTM2020] in its normal shape: eight columns of one
    length in front, the first of them the indices from [k] on, modulo the
    capacity [m]. *)
Definition tm2020_shaped {Obj : Type} (m : Z) (data : store Obj) (k : Z) : Prop :=
  exists idx c1 c2 c3 c4 c5 c6 c7 extra,
    data = idx :: c1 :: c2 :: c3 :: c4 :: c5 :: c6 :: c7 :: extra
    /\ idx = wrapped m k (length idx)
    /\ length c1 = length idx /\ length c2 = length idx
    /\ length c3 = length idx /\ length c4 = length idx
    /\ length c5 = length idx /\ length c6 = length idx
    /\ length c7 = length idx.

(** The memories a [MemoryTM2020] goes through from the one without
    columns. *)
Inductive tm2020_reachable {Obj : Type} (decode : value Obj -> value Obj)
  (c : MemoryTM2020.config) : MemoryTM2020.memory Obj -> Prop :=
| tm2020_init (files : list (Z * value Obj)) :
    tm2020_reachable decode c (MemoryTM2020.Memory [] files)
| tm2020_append (m m' : MemoryTM2020.memory Obj)
    (buffer : list (MemoryTM2020.sample Obj)) :
    tm2020_reachable decode c m ->
    MemoryTM2020.append_buffer decode c m buffer = Ok m' ->
    tm2020_reachable decode c m'.


(** A store of [MemoryCognifly] in its normal shape: eleven columns of
    one length in front, the first of them the indices from [k] on, modulo
    the capacity [m]. *)
Definition cognifly_shaped {Obj : Type} (m : Z) (data : store Obj) (k : Z)
  : Prop :=
  exists idx c1 c2 c3 c4 c5 c6 c7 c8 c9 c10 extra,
    data = idx :: c1 :: c2 :: c3 :: c4 :: c5 :: c6 :: c7 :: c8 :: c9 :: c10
           :: extra
    /\ idx = wrapped m k (length idx)
    /\ length c1 = length idx /\ length c2 = length idx
    /\ length c3 = length idx /\ length c4 = length idx
    /\ length c5 = length idx /\ length c6 = length idx
    /\ length c7 = length idx /\ length c8 = length idx
    /\ length c9 = length idx /\ length c10 = length idx.

(** The stores a [MemoryCognifly] goes through from the one without
    columns. *)
Inductive cognifly_reachable {Obj : Type} (c : MemoryCognifly.config)
  : store Obj -> Prop :=
| cognifly_init : cognifly_reachable c []
| cognifly_append (data data' : store Obj)
    (buffer : list (MemoryCognifly.sample Obj)) :
    cognifly_reachable c data ->
    MemoryCognifly.append_buffer c data buffer = Ok data' ->
    cognifly_reachable c data'.

(** ** Further sample data *)

(** A lidar memory small enough to fill: capacity 3, two frames and one
    action per observation. *)
Definition small_config : MemoryTMNF.config := MemoryTMNF.Config 3 2 1.

(** The [n]-th step of an episode before compression, with a history of
    two frames; the first step repeats its own frame. *)
Definition demo_step (n : Z) : Compression.step Z :=
  Compression.Step (VObj (100 + n))
    (VObj (200 + n), [VObj (300 + Z.max 0 (n - 1)); VObj (300 + n)])
    (VObj (400 + n)) (VBool false) (VObj (500 + n)).

Definition demo_steps (n : nat) : list (Compression.step Z) :=
  map (fun i => demo_step (Z.of_nat i)) (seq 0 n).

(** A trainer that starts without samples, and an interface that holds
    two buffers. *)
Definition demo_world
  : @TrainingOffline.world (store Z) (MemoryTMNFLidar.sample Z) :=
  TrainingOffline.World (demo_trainer 0 0 [])
    [demo_buffer 0 10; demo_buffer 10 5] [].

(** The world one epoch of two batches leaves behind, from [demo_world]. *)
Definition demo_world_after
  : @TrainingOffline.world (store Z) (MemoryTMNFLidar.sample Z) :=
  snd (TrainingOffline.run_epoch (MemoryTMNFLidar.append demo_config) 2
         demo_pacing demo_world).

(** A [MemoryTM2020] small enough to fill, and eight aligned columns of
    [n] rows for it, the images named by the indices from 0 on. *)
Definition tm2020_small : MemoryTM2020.config := MemoryTM2020.Config 3 2 1.

(** The small memory after a first buffer of eight samples: it holds the
    six newest rows. *)
Definition tm2020_full : MemoryTM2020.memory Z :=
  match MemoryTM2020.append_buffer (fun x => x) tm2020_small
          (MemoryTM2020.Memory [] []) (tm2020_buffer 0 8) with
  | Ok m => m
  | Raise _ => MemoryTM2020.Memory [] []
  end.

Definition tm2020_store (n : nat) : store Z :=
  [consecutive 0 n; demo_column 100 n; demo_column 200 n; demo_column 300 n;
   demo_column 400 n; repeat (VBool false) n; demo_column 600 n;
   demo_column 700 n].

(** Samples and columns for [MemoryCognifly]. *)
Definition cognifly_config : MemoryCognifly.config :=
  MemoryCognifly.Config 3 2 1.

Definition cognifly_sample (n : Z) : MemoryCognifly.sample Z :=
  MemoryCognifly.Sample (VObj (100 + n)) (VObj (200 + n)) (VObj (300 + n))
    (VObj (400 + n)) (VObj (500 + n)) (VObj (600 + n)) (VObj (700 + n))
    (VObj (900 + n)) (VBool false) (VObj (1000 + n)).

Definition cognifly_buffer (first n : nat) : list (MemoryCognifly.sample Z) :=
  map (fun i => cognifly_sample (Z.of_nat i)) (seq first n).

Definition cognifly_store (n : nat) : store Z :=
  [consecutive 0 n; demo_column 100 n; demo_column 200 n; demo_column 300 n;
   demo_column 400 n; demo_column 500 n; demo_column 600 n; demo_column 700 n;
   repeat (VBool false) n; demo_column 900 n; demo_column 1000 n].
(** ** Facts about the Python primitives *)

Section PyFacts.

Context {A : Type}.
Implicit Types l : list A.

Lemma len_nonneg l : 0 <= len l.
Proof. unfold len; lia. Qed.

Lemma getitem_nth l i x :
  0 <= i -> nth_error l (Z.to_nat i) = Some x -> getitem l i = Ok x.
Proof.
  intros Hi Hn. unfold getitem.
  assert (Hlt : (Z.to_nat i < length l)%nat)
    by (apply nth_error_Some; congruence).
  destruct (i <? 0) eqn:E; [apply Z.ltb_lt in E; lia|].
  replace ((i <? 0) || (len l <=? i)) with false.
  - now rewrite Hn.
  - symmetry. apply orb_false_iff. split; [exact E|].
    apply Z.leb_gt. unfold len. lia.
Qed.

Lemma getitem_beyond l i : len l <= i -> getitem l i = Raise IndexError.
Proof.
  intros Hi. unfold getitem. pose proof (len_nonneg l).
  destruct (i <? 0) eqn:E; [apply Z.ltb_lt in E; lia|].
  replace (len l <=? i) with true by (symmetry; apply Z.leb_le; lia).
  now rewrite orb_true_r.
Qed.

Lemma getitem_inside l i :
  0 <= i < len l -> exists x, nth_error l (Z.to_nat i) = Some x /\ getitem l i = Ok x.
Proof.
  intros Hi. destruct (nth_error l (Z.to_nat i)) as [x|] eqn:E.
  - exists x. split; [reflexivity|]. apply getitem_nth; [lia|exact E].
  - apply nth_error_None in E. unfold len in Hi. lia.
Qed.

Lemma window_length l start n :
  (start + n <= length l)%nat -> length (window l start n) = n.
Proof.
  intros H. unfold window. rewrite length_firstn, length_skipn. lia.
Qed.

Lemma window_nth l start n k :
  (k < n)%nat -> nth_error (window l start n) k = nth_error l (start + k).
Proof.
  intros H. unfold window.
  rewrite nth_error_firstn.
  destruct (Nat.ltb_spec k n); [|lia].
  now rewrite nth_error_skipn.
Qed.

Lemma slice_window l a b :
  0 <= a -> a <= b -> b <= len l ->
  slice l (Some a) (Some b) = window l (Z.to_nat a) (Z.to_nat (b - a)).
Proof.
  intros Ha Hab Hb. unfold slice, clamp, window.
  destruct (a <? 0) eqn:Ea; [apply Z.ltb_lt in Ea; lia|].
  destruct (b <? 0) eqn:Eb; [apply Z.ltb_lt in Eb; lia|].
  now rewrite !Z.min_l by lia.
Qed.

Lemma slice_butlast l : slice l None (Some (-1)) = removelast l.
Proof.
  unfold slice, clamp.
  change (-1 <? 0) with true. cbv iota.
  rewrite removelast_firstn_len. rewrite Z.sub_0_r. simpl skipn.
  f_equal. unfold len. lia.
Qed.

Lemma slice_tail l : slice l (Some 1) None = tl l.
Proof.
  unfold slice, clamp.
  change (1 <? 0) with false. cbv iota.
  destruct l as [|x t].
  - reflexivity.
  - assert (E : Z.min 1 (len (x :: t)) = 1)
      by (unfold len; simpl length; lia).
    rewrite E. simpl skipn. simpl tl.
    apply firstn_all2. unfold len. simpl length. lia.
Qed.

Lemma slice_drop l t :
  0 <= t -> slice l (Some t) None = skipn (Z.to_nat t) l.
Proof.
  intros Ht. unfold slice, clamp.
  destruct (t <? 0) eqn:E; [apply Z.ltb_lt in E; lia|].
  destruct (Z.le_ge_cases t (len l)) as [H|H].
  - rewrite Z.min_l by lia. apply firstn_all2.
    rewrite length_skipn. unfold len in *. lia.
  - rewrite Z.min_r by lia.
    rewrite !skipn_all2 by (unfold len in *; lia).
    now rewrite firstn_nil.
Qed.

Lemma slice_length_le l a b :
  a <= b -> len (slice l (Some a) (Some b)) <= b - a.
Proof.
  intros Hab. unfold slice, clamp, len. rewrite length_firstn, length_skipn.
  destruct (a <? 0) eqn:Ea; destruct (b <? 0) eqn:Eb;
    try apply Z.ltb_lt in Ea; try apply Z.ltb_ge in Ea;
    try apply Z.ltb_lt in Eb; try apply Z.ltb_ge in Eb; lia.
Qed.

End PyFacts.
(** ** Reading transitions out of an aligned store *)

Section TransitionFacts.

Import MemoryTMNFLidar.

Context {Obj : Type} (np_float32 : value Obj -> value Obj).
Implicit Types (c : config) (data : store Obj).

Lemma getitem_nonneg_inv (l : list (value Obj)) i x :
  0 <= i -> getitem l i = Ok x -> nth_error l (Z.to_nat i) = Some x.
Proof.
  intros Hi. unfold getitem.
  destruct (i <? 0) eqn:E; [apply Z.ltb_lt in E; lia|].
  destruct ((i <? 0) || (len l <=? i)); [discriminate|].
  destruct (nth_error l (Z.to_nat i)); [congruence|discriminate].
Qed.

Lemma usable_length_rows c data idx acts speeds imgs dones rews infos :
  aligned data idx acts speeds imgs dones rews infos ->
  __len__ c data = Z.max 0 (len idx - min_samples c - 1).
Proof.
  intros [[extra ->] _]. unfold __len__.
  destruct (len idx - min_samples c - 1 <? 0) eqn:E;
    [apply Z.ltb_lt in E | apply Z.ltb_ge in E]; lia.
Qed.

Lemma offsets_meet c :
  0 <= imgs_obs c -> 0 <= act_buf_len c ->
  0 <= min_samples c
  /\ start_imgs_offset c + imgs_obs c = min_samples c
  /\ start_acts_offset c + act_buf_len c = min_samples c
  /\ 0 <= start_imgs_offset c /\ 0 <= start_acts_offset c.
Proof.
  unfold start_imgs_offset, start_acts_offset, min_samples. lia.
Qed.

(** What [get_transition] returns whenever the row [item + min_samples]
    exists, for a non-negative [item]. *)
Lemma get_transition_in_store c data idx acts speeds imgs dones rews infos item :
  0 <= imgs_obs c -> 0 <= act_buf_len c ->
  aligned data idx acts speeds imgs dones rews infos ->
  0 <= item -> item + min_samples c < len idx ->
  exists sl sn a r d f,
    getitem speeds (item + min_samples c - 1) = Ok sl
    /\ nth_error speeds (Z.to_nat (item + min_samples c)) = Some sn
    /\ nth_error acts (Z.to_nat (item + min_samples c)) = Some a
    /\ nth_error rews (Z.to_nat (item + min_samples c)) = Some r
    /\ nth_error dones (Z.to_nat (item + min_samples c)) = Some d
    /\ nth_error infos (Z.to_nat (item + min_samples c)) = Some f
    /\ get_transition np_float32 c data item =
       let wa := window acts (Z.to_nat (item + start_acts_offset c))
                   (Z.to_nat (act_buf_len c + 1)) in
       let wi := window imgs (Z.to_nat (item + start_imgs_offset c))
                   (Z.to_nat (imgs_obs c + 1)) in
       Ok (Transition (Observation sl (removelast wi) (removelast wa))
             a (np_float32 r)
             (Observation sn (tl wi) (tl wa)) d f).
Proof.
  intros Hio Habl Hal Hitem Hnow.
  destruct (offsets_meet c Hio Habl) as (Hms & Hi & Ha & Hsi & Hsa).
  destruct Hal as ([extra ->] & La & Ls & Li & Ld & Lr & Lf).
  assert (Hlen : forall l : list (value Obj), length l = length idx -> len l = len idx)
    by (intros l E; unfold len; now rewrite E).
  destruct (getitem_inside speeds (item + min_samples c)) as (sn & Hsn & Gsn);
    [rewrite (Hlen _ Ls); lia|].
  destruct (getitem_inside acts (item + min_samples c)) as (a & Hna & Ga);
    [rewrite (Hlen _ La); lia|].
  destruct (getitem_inside rews (item + min_samples c)) as (r & Hr & Gr);
    [rewrite (Hlen _ Lr); lia|].
  destruct (getitem_inside dones (item + min_samples c)) as (d & Hd & Gd);
    [rewrite (Hlen _ Ld); lia|].
  destruct (getitem_inside infos (item + min_samples c)) as (f & Hf & Gf);
    [rewrite (Hlen _ Lf); lia|].
  assert (Gsl : exists sl, getitem speeds (item + min_samples c - 1) = Ok sl).
  { destruct (Z.eq_dec (item + min_samples c) 0) as [E0|E0].
    - (* the index is -1: the last row *)
      replace (item + min_samples c - 1) with (-1) by lia.
      unfold getitem. change (-1 <? 0) with true. cbv iota.
      pose proof (Hlen _ Ls) as E.
      assert (H1 : 0 <= -1 + len speeds < len speeds) by lia.
      destruct (getitem_inside speeds (-1 + len speeds) H1) as (x & Hx & _).
      exists x.
      replace ((-1 + len speeds <? 0) || (len speeds <=? -1 + len speeds))
        with false.
      + now rewrite Hx.
      + symmetry. apply orb_false_iff. split;
          [apply Z.ltb_ge | apply Z.leb_gt]; lia.
    - destruct (getitem_inside speeds (item + min_samples c - 1)) as (x & _ & Hx);
        [rewrite (Hlen _ Ls); lia|].
      now exists x. }
  destruct Gsl as (sl & Gsl).
  exists sl, sn, a, r, d, f.
  repeat (split; [assumption|]).
  unfold get_transition, load_acts, load_imgs, column. simpl nth_error.
  cbn [bind].
  rewrite (slice_window acts) by (rewrite ?(Hlen _ La); lia).
  rewrite (slice_window imgs) by (rewrite ?(Hlen _ Li); lia).
  replace (item + start_acts_offset c + act_buf_len c + 1 - (item + start_acts_offset c))
    with (act_buf_len c + 1) by lia.
  replace (item + start_imgs_offset c + imgs_obs c + 1 - (item + start_imgs_offset c))
    with (imgs_obs c + 1) by lia.
  set (wi := window imgs _ _).
  assert (Lwi : length wi = Z.to_nat (imgs_obs c + 1)).
  { apply window_length. pose proof (Hlen _ Li). unfold len in *. lia. }
  destruct wi as [|i0 wi'] eqn:Ewi; [simpl in Lwi; lia|].
  cbn [np_stack bind].
  rewrite Gsl, Gr, Ga, Gsn, Gd, Gf. cbn [bind].
  now rewrite !slice_butlast, !slice_tail.
Qed.


(** C2: for [0 <= item < usable_length], [get_transition(item)] reads the
    [act_buf_len + 1] contiguous actions that start at
    [item + start_acts_offset] and the [imgs_obs + 1] contiguous images that
    start at [item + start_imgs_offset], splits each window into [w[:-1]]
    (last) and [w[1:]] (new), and takes the scalar fields at
    [item + min_samples - 1] and [item + min_samples]; with [imgs_obs = 4],
    [act_buf_len = 1] and [item = 0] these are the images 0..4, the actions
    3..4 and the rows 3 and 4. *)
Theorem get_transition_windows c data idx acts speeds imgs dones rews infos item :
  0 <= imgs_obs c -> 0 <= act_buf_len c ->
  aligned data idx acts speeds imgs dones rews infos ->
  0 <= item < __len__ c data ->
  (exists wa wi sl sn a r d f,
      wa = window acts (Z.to_nat (item + start_acts_offset c))
             (Z.to_nat (act_buf_len c + 1))
      /\ length wa = Z.to_nat (act_buf_len c + 1)
      /\ wi = window imgs (Z.to_nat (item + start_imgs_offset c))
                (Z.to_nat (imgs_obs c + 1))
      /\ length wi = Z.to_nat (imgs_obs c + 1)
      /\ getitem speeds (item + min_samples c - 1) = Ok sl
      /\ getitem speeds (item + min_samples c) = Ok sn
      /\ getitem acts (item + min_samples c) = Ok a
      /\ getitem rews (item + min_samples c) = Ok r
      /\ getitem dones (item + min_samples c) = Ok d
      /\ getitem infos (item + min_samples c) = Ok f
      /\ get_transition np_float32 c data item =
         Ok (Transition (Observation sl (removelast wi) (removelast wa))
               a (np_float32 r)
               (Observation sn (tl wi) (tl wa)) d f))
  /\ (imgs_obs c = 4 -> act_buf_len c = 1 -> item = 0 ->
      exists i0 i1 i2 i3 i4 a3 a4 s3 s4 r4 d4 f4,
        window imgs 0 5 = [i0; i1; i2; i3; i4]
        /\ window acts 3 2 = [a3; a4]
        /\ nth_error speeds 3 = Some s3
        /\ nth_error speeds 4 = Some s4
        /\ nth_error rews 4 = Some r4
        /\ nth_error dones 4 = Some d4
        /\ nth_error infos 4 = Some f4
        /\ get_transition np_float32 c data item =
           Ok (Transition (Observation s3 [i0; i1; i2; i3] [a3])
                 a4 (np_float32 r4)
                 (Observation s4 [i1; i2; i3; i4] [a4]) d4 f4)).
Proof.
  intros Hio Habl Hal Hitem.
  pose proof (usable_length_rows c _ _ _ _ _ _ _ _ Hal) as Hlen.
  destruct (offsets_meet c Hio Habl) as (Hms & Hi & Ha & Hsi & Hsa).
  assert (Hnow : item + min_samples c < len idx) by lia.
  destruct (get_transition_in_store c _ _ _ _ _ _ _ _ item Hio Habl Hal
              (proj1 Hitem) Hnow)
    as (sl & sn & a & r & d & f & Gsl & Hsn & Hna & Hr & Hd & Hf & Hget).
  cbv zeta in Hget.
  destruct Hal as (_ & La & Ls & Li & Ld & Lr & Lf).
  assert (Lwa : length (window acts (Z.to_nat (item + start_acts_offset c))
                          (Z.to_nat (act_buf_len c + 1)))
                = Z.to_nat (act_buf_len c + 1))
    by (apply window_length; unfold len in *; lia).
  assert (Lwi : length (window imgs (Z.to_nat (item + start_imgs_offset c))
                          (Z.to_nat (imgs_obs c + 1)))
                = Z.to_nat (imgs_obs c + 1))
    by (apply window_length; unfold len in *; lia).
  split.
  - eexists _, _, sl, sn, a, r, d, f.
    split; [reflexivity|]. split; [exact Lwa|].
    split; [reflexivity|]. split; [exact Lwi|].
    split; [exact Gsl|].
    repeat (split; [apply getitem_nth; [lia|assumption]|]).
    exact Hget.
  - intros E4 E1 E0.
    assert (Ems : min_samples c = 4) by (unfold min_samples; lia).
    assert (Esa : start_acts_offset c = 3) by (unfold start_acts_offset; lia).
    assert (Esi : start_imgs_offset c = 0) by (unfold start_imgs_offset; lia).
    rewrite E4, E1, E0, Ems, Esa, Esi in *.
    change (Z.to_nat (0 + 3)) with 3%nat in *.
    change (Z.to_nat (0 + 0)) with 0%nat in *.
    change (Z.to_nat (1 + 1)) with 2%nat in *.
    change (Z.to_nat (4 + 1)) with 5%nat in *.
    change (Z.to_nat (0 + 4)) with 4%nat in *.
    apply getitem_nonneg_inv in Gsl; [|lia].
    change (Z.to_nat (0 + 4 - 1)) with 3%nat in Gsl.
    pose proof (window_nth acts 3 2 0 ltac:(lia)) as W0.
    pose proof (window_nth acts 3 2 1 ltac:(lia)) as W1.
    destruct (window acts 3 2) as [|a3 [|a4 [|? ?]]] eqn:Ewa;
      try (simpl in Lwa; lia).
    destruct (window imgs 0 5) as [|i0 [|i1 [|i2 [|i3 [|i4 [|? ?]]]]]] eqn:Ewi;
      try (simpl in Lwi; lia).
    change (nth_error [a3; a4] 1) with (Some a4) in W1.
    change (3 + 1)%nat with 4%nat in W1.
    simpl in Hget.
    assert (a = a4) by congruence. subst a.
    exists i0, i1, i2, i3, i4, a3, a4, sl, sn, r, d, f.
    repeat (split; [first [reflexivity | assumption]|]).
    exact Hget.
Qed.

(** C5: for [0 <= item < usable_length] the last image of the new
    observation's image stack (when [imgs_obs > 0]) and the last action of
    its action buffer (when [act_buf_len > 0]) are the image and the
    action stored at row [item + min_samples], whichever of the two
    histories is the longer. *)
Theorem new_windows_end_at_now c data idx acts speeds imgs dones rews infos item :
  0 <= imgs_obs c -> 0 <= act_buf_len c ->
  aligned data idx acts speeds imgs dones rews infos ->
  0 <= item < __len__ c data ->
  exists t img act,
    get_transition np_float32 c data item = Ok t
    /\ nth_error imgs (Z.to_nat (item + min_samples c)) = Some img
    /\ nth_error acts (Z.to_nat (item + min_samples c)) = Some act
    /\ (0 < imgs_obs c ->
        exists front, o_imgs (t_new_obs t) = front ++ [img])
    /\ (0 < act_buf_len c ->
        exists front, o_acts (t_new_obs t) = front ++ [act]).
Proof.
  intros Hio Habl Hal Hitem.
  pose proof (usable_length_rows c _ _ _ _ _ _ _ _ Hal) as Hlen.
  destruct (offsets_meet c Hio Habl) as (Hms & Hi & Ha & Hsi & Hsa).
  assert (Hnow : item + min_samples c < len idx) by lia.
  destruct (get_transition_in_store c _ _ _ _ _ _ _ _ item Hio Habl Hal
              (proj1 Hitem) Hnow)
    as (sl & sn & a & r & d & f & Gsl & Hsn & Hna & Hr & Hd & Hf & Hget).
  cbv zeta in Hget.
  destruct Hal as (_ & La & Ls & Li & Ld & Lr & Lf).
  assert (Hends : forall (col : list (value Obj)) (off w : Z),
             length col = length idx -> 0 <= off -> 0 < w ->
             off + w = min_samples c ->
             forall x, nth_error col (Z.to_nat (item + min_samples c)) = Some x ->
             exists front,
               tl (window col (Z.to_nat (item + off)) (Z.to_nat (w + 1)))
               = front ++ [x]).
  { intros col off w Lc Hoff Hw Hsum x Hx.
    set (win := window col (Z.to_nat (item + off)) (Z.to_nat (w + 1))).
    assert (Lw : length win = Z.to_nat (w + 1))
      by (apply window_length; unfold len in *; lia).
    assert (Hlast : nth_error win (Z.to_nat w) = Some x).
    { unfold win. rewrite window_nth by lia.
      rewrite <- Hx. f_equal. lia. }
    destruct (exists_last (l := win)) as (front & y & E).
    { intros E. rewrite E in Lw. simpl in Lw. lia. }
    rewrite E in Lw, Hlast. rewrite length_app in Lw. simpl in Lw.
    rewrite nth_error_app2 in Hlast by lia.
    replace (Z.to_nat w - length front)%nat with 0%nat in Hlast by lia.
    simpl in Hlast. injection Hlast as ->.
    rewrite E. destruct front as [|z front']; [simpl in Lw; lia|].
    now exists front'. }
  destruct (nth_error imgs (Z.to_nat (item + min_samples c))) as [img|] eqn:Himg.
  2:{ apply nth_error_None in Himg. unfold len in *. lia. }
  eexists _, img, a. split; [exact Hget|]. split; [reflexivity|].
  split; [exact Hna|]. simpl. split.
  - intros Hpos. apply (Hends imgs (start_imgs_offset c) (imgs_obs c)); auto.
  - intros Hpos. apply (Hends acts (start_acts_offset c) (act_buf_len c)); auto.
Qed.

(** C8 (amended): every [item] above the usable length makes
    [get_transition] raise, [ValueError] from [np.stack] when the image
    window is empty and [IndexError] otherwise; the item equal to the
    usable length is not refused when at least [min_samples + 1] rows are
    stored: it yields the transition that ends at the last stored row. *)
Theorem get_transition_beyond_length c data idx acts speeds imgs dones rews infos item :
  0 <= imgs_obs c -> 0 <= act_buf_len c ->
  aligned data idx acts speeds imgs dones rews infos ->
  (__len__ c data < item ->
   get_transition np_float32 c data item =
   Raise (if len imgs <=? item + start_imgs_offset c
          then ValueError else IndexError))
  /\ (item = __len__ c data -> min_samples c + 1 <= len idx ->
      item + min_samples c = len idx - 1
      /\ exists t, get_transition np_float32 c data item = Ok t).
Proof.
  intros Hio Habl Hal.
  pose proof (usable_length_rows c _ _ _ _ _ _ _ _ Hal) as Hlen.
  destruct (offsets_meet c Hio Habl) as (Hms & Hi & Ha & Hsi & Hsa).
  split.
  - intros Hitem.
    destruct Hal as ([extra ->] & La & Ls & Li & Ld & Lr & Lf).
    assert (Hl : forall l : list (value Obj),
               length l = length idx -> len l = len idx)
      by (intros l E; unfold len; now rewrite E).
    pose proof (len_nonneg idx) as Hn.
    unfold get_transition, load_acts, load_imgs, column. simpl nth_error.
    cbn [bind].
    destruct (len imgs <=? item + start_imgs_offset c) eqn:E.
    + apply Z.leb_le in E.
      replace (slice imgs _ _) with (@nil (value Obj)); [reflexivity|].
      symmetry. apply length_zero_iff_nil.
      unfold slice, clamp. rewrite length_firstn, length_skipn.
      destruct (item + start_imgs_offset c <? 0) eqn:E1;
        [apply Z.ltb_lt in E1; lia|].
      rewrite (Z.min_r (item + start_imgs_offset c)) by lia.
      unfold len. lia.
    + apply Z.leb_gt in E.
      destruct (slice imgs _ _) as [|i0 wi] eqn:Ew.
      * exfalso. apply (f_equal (@length _)) in Ew. revert Ew.
        unfold slice, clamp. rewrite length_firstn, length_skipn.
        destruct (item + start_imgs_offset c <? 0) eqn:E1;
          [apply Z.ltb_lt in E1; lia|].
        destruct (item + start_imgs_offset c + imgs_obs c + 1 <? 0) eqn:E2;
          [apply Z.ltb_lt in E2; lia|].
        simpl. unfold len in *. lia.
      * cbn [np_stack bind].
        destruct (Z_lt_le_dec (item + min_samples c - 1) (len idx)) as [Hin|Hout].
        -- destruct (getitem_inside speeds (item + min_samples c - 1))
             as (x & _ & ->); [rewrite (Hl _ Ls); lia|].
           cbn [bind].
           rewrite (getitem_beyond rews) by (rewrite (Hl _ Lr); lia).
           reflexivity.
        -- rewrite (getitem_beyond speeds) by (rewrite (Hl _ Ls); lia).
           reflexivity.
  - intros Hitem Hrows. split; [lia|].
    destruct (get_transition_in_store c _ _ _ _ _ _ _ _ item Hio Habl Hal)
      as (sl & sn & a & r & d & f & _ & _ & _ & _ & _ & _ & Hget); [lia|lia|].
    eexists. exact Hget.
Qed.

End TransitionFacts.
(** ** The index column and the invariant of [append_buffer] *)

Section AppendFacts.

Import MemoryTMNFLidar.

Context {Obj : Type}.
Implicit Types (c : config) (data : store Obj).

Lemma consecutive_length (k : Z) (n : nat) :
  length (@consecutive Obj k n) = n.
Proof. unfold consecutive. now rewrite length_map, length_seq. Qed.

Lemma consecutive_nth (k : Z) (n i : nat) :
  (i < n)%nat -> nth_error (@consecutive Obj k n) i = Some (VInt (k + Z.of_nat i)).
Proof.
  intros H. unfold consecutive.
  rewrite nth_error_map, nth_error_seq.
  destruct (Nat.ltb_spec i n); [reflexivity|lia].
Qed.

Lemma consecutive_eq (l : list (value Obj)) (k : Z) (n : nat) :
  length l = n ->
  (forall i, (i < n)%nat -> nth_error l i = Some (VInt (k + Z.of_nat i))) ->
  l = consecutive k n.
Proof.
  intros Hl Hn. apply nth_error_ext. intros i.
  destruct (Nat.lt_ge_cases i n) as [H|H].
  - now rewrite Hn, consecutive_nth.
  - transitivity (@None (value Obj)); [|symmetry];
      apply nth_error_None; rewrite ?consecutive_length; lia.
Qed.

Lemma consecutive_app (k : Z) (n m : nat) :
  @consecutive Obj k n ++ consecutive (k + Z.of_nat n) m = consecutive k (n + m).
Proof.
  apply consecutive_eq.
  - now rewrite length_app, !consecutive_length.
  - intros i Hi. destruct (Nat.lt_ge_cases i n) as [H|H].
    + rewrite nth_error_app1 by (rewrite consecutive_length; lia).
      now apply consecutive_nth.
    + rewrite nth_error_app2 by (rewrite consecutive_length; lia).
      rewrite consecutive_length, consecutive_nth by lia.
      do 2 f_equal. lia.
Qed.

Lemma consecutive_skipn (k : Z) (n t : nat) :
  (t <= n)%nat ->
  skipn t (@consecutive Obj k n) = consecutive (k + Z.of_nat t) (n - t).
Proof.
  intros Ht. apply consecutive_eq.
  - rewrite length_skipn, consecutive_length. lia.
  - intros i Hi. rewrite nth_error_skipn, consecutive_nth by lia.
    do 2 f_equal. lia.
Qed.

Lemma consecutive_last (k : Z) (n : nat) :
  (0 < n)%nat ->
  getitem (@consecutive Obj k n) (-1) = Ok (VInt (k + Z.of_nat n - 1)).
Proof.
  intros Hn. unfold getitem. change (-1 <? 0) with true. cbv iota.
  unfold len. rewrite consecutive_length.
  replace ((-1 + Z.of_nat n <? 0) || (Z.of_nat n <=? -1 + Z.of_nat n))
    with false.
  - rewrite consecutive_nth by lia. do 2 f_equal. lia.
  - symmetry. apply orb_false_iff.
    split; [apply Z.ltb_ge | apply Z.leb_gt]; lia.
Qed.

Lemma usable_length_index c data :
  __len__ c data = Z.max 0 (len (index_column data) - min_samples c - 1)
  \/ (data = [] /\ __len__ c data = 0).
Proof.
  destruct data as [|d0 rest]; [now right|left].
  unfold __len__, index_column.
  destruct (len d0 - min_samples c - 1 <? 0) eqn:E;
    [apply Z.ltb_lt in E | apply Z.ltb_ge in E]; lia.
Qed.

(** The seven trims of [append_buffer] on a store of at least seven
    columns. *)
Lemma trim_columns (c0 c1 c2 c3 c4 c5 c6 : list (value Obj)) extra t :
  (data <- trim_column (c0 :: c1 :: c2 :: c3 :: c4 :: c5 :: c6 :: extra) 0 t ;;
   data <- trim_column data 1 t ;;
   data <- trim_column data 2 t ;;
   data <- trim_column data 3 t ;;
   data <- trim_column data 4 t ;;
   data <- trim_column data 5 t ;;
   trim_column data 6 t)
  = Ok (slice c0 (Some t) None :: slice c1 (Some t) None
        :: slice c2 (Some t) None :: slice c3 (Some t) None
        :: slice c4 (Some t) None :: slice c5 (Some t) None
        :: slice c6 (Some t) None :: extra).
Proof. reflexivity. Qed.

(** The seven extensions of [append_buffer]. *)
Lemma iadd_columns (c0 c1 c2 c3 c4 c5 c6 d0 d1 d2 d3 d4 d5 d6 : list (value Obj)) extra :
  (data <- iadd_column (c0 :: c1 :: c2 :: c3 :: c4 :: c5 :: c6 :: extra) 0 d0 ;;
   data <- iadd_column data 1 d1 ;;
   data <- iadd_column data 2 d2 ;;
   data <- iadd_column data 3 d3 ;;
   data <- iadd_column data 4 d4 ;;
   data <- iadd_column data 5 d5 ;;
   iadd_column data 6 d6)
  = Ok ((c0 ++ d0) :: (c1 ++ d1) :: (c2 ++ d2) :: (c3 ++ d3)
        :: (c4 ++ d4) :: (c5 ++ d5) :: (c6 ++ d6) :: extra).
Proof. reflexivity. Qed.

(** The trimming half of [append_buffer] on a shaped store. *)
Lemma trim_shaped c data k :
  0 <= min_samples c -> shaped data k ->
  let to_trim := __len__ c data - memory_size c in
  exists data',
    (if 0 <? to_trim
     then
       data <- trim_column data 0 to_trim ;;
       data <- trim_column data 1 to_trim ;;
       data <- trim_column data 2 to_trim ;;
       data <- trim_column data 3 to_trim ;;
       data <- trim_column data 4 to_trim ;;
       data <- trim_column data 5 to_trim ;;
       trim_column data 6 to_trim
     else Ok data) = Ok data'
    /\ lidar_inv c data'
    /\ length data' = length data
    /\ index_column data' =
       skipn (Z.to_nat (Z.max 0 to_trim)) (index_column data)
    /\ exists k', shaped data' k'.
Proof.
  intros Hms (idx & acts & speeds & imgs & dones & rews & infos & Hal & Hidx) to_trim.
  destruct Hal as ([extra ->] & La & Ls & Li & Ld & Lr & Lf).
  pose proof (len_nonneg idx) as Hn.
  assert (HL : __len__ c (idx :: acts :: speeds :: imgs :: dones :: rews
                            :: infos :: extra)
               = Z.max 0 (len idx - min_samples c - 1)).
  { destruct (usable_length_index c (idx :: acts :: speeds :: imgs :: dones
                                       :: rews :: infos :: extra))
      as [H|[H _]]; [exact H|discriminate]. }
  destruct (0 <? to_trim) eqn:E.
  - apply Z.ltb_lt in E. rewrite trim_columns.
    rewrite !slice_drop by lia.
    set (t := Z.to_nat to_trim).
    assert (Hshape : shaped (skipn t idx :: skipn t acts :: skipn t speeds
                              :: skipn t imgs :: skipn t dones :: skipn t rews
                              :: skipn t infos :: extra)
                            (k + Z.of_nat (Nat.min t (length idx)))).
    { exists (skipn t idx), (skipn t acts), (skipn t speeds), (skipn t imgs),
        (skipn t dones), (skipn t rews), (skipn t infos).
      split.
      - split; [now exists extra|].
        rewrite !length_skipn. repeat split; congruence.
      - rewrite length_skipn.
        destruct (Nat.le_ge_cases t (length idx)) as [H|H].
        + rewrite Hidx at 1. rewrite consecutive_skipn by exact H.
          rewrite Nat.min_l by exact H. reflexivity.
        + rewrite skipn_all2 by exact H.
          replace (length idx - t)%nat with 0%nat by lia. reflexivity. }
    eexists. split; [reflexivity|].
    split; [|split; [reflexivity|split]].
    + split; [right; eexists; exact Hshape|].
      unfold __len__. unfold len. rewrite length_skipn.
      fold to_trim in HL. unfold len in HL. subst t.
      destruct (Z.of_nat (length idx - Z.to_nat to_trim) - min_samples c - 1 <? 0)
        eqn:E2; [apply Z.ltb_lt in E2 | apply Z.ltb_ge in E2]; lia.
    + simpl index_column. subst t. f_equal. lia.
    + eexists. exact Hshape.
  - apply Z.ltb_ge in E.
    assert (Hshape : shaped (idx :: acts :: speeds :: imgs :: dones :: rews
                               :: infos :: extra) k).
    { exists idx, acts, speeds, imgs, dones, rews, infos.
      split; [|exact Hidx]. split; [now exists extra|].
      repeat split; assumption. }
    eexists. split; [reflexivity|].
    split; [|split; [reflexivity|split]].
    + split; [right; exists k; exact Hshape|]. lia.
    + replace (Z.max 0 to_trim) with 0 by lia. reflexivity.
    + exists k. exact Hshape.
Qed.


Lemma shaped_usable_length c data k :
  shaped data k ->
  __len__ c data = Z.max 0 (len (index_column data) - min_samples c - 1).
Proof.
  intros (idx & acts & speeds & imgs & dones & rews & infos & ([extra ->] & _) & _).
  destruct (usable_length_index c (idx :: acts :: speeds :: imgs :: dones
                                     :: rews :: infos :: extra))
    as [H|[H _]]; [exact H|discriminate].
Qed.

(** What one call of [append_buffer] does to a store that satisfies the
    invariant: it succeeds, keeps the invariant, and leaves as index
    column a suffix of the grown run of indices. *)
Lemma append_buffer_spec c data (buffer : list (sample Obj)) :
  0 <= min_samples c -> lidar_inv c data ->
  exists data' k,
    append_buffer c data buffer = Ok data'
    /\ lidar_inv c data'
    /\ (exists k', shaped data' k')
    /\ index_column data = consecutive k (length (index_column data))
    /\ (data = [] -> k = 0)
    /\ let grown :=
         if extends c data
         then consecutive k (length (index_column data) + length buffer)
         else index_column data in
       let to_trim := Z.max 0 (len grown - min_samples c - 1) - memory_size c in
       index_column data' = skipn (Z.to_nat (Z.max 0 to_trim)) grown.
Proof.
  intros Hms [Hshape Hbound]. unfold append_buffer.
  destruct Hshape as [-> | [k Hk]].
  - (* nothing stored yet *)
    change (0 <? __len__ c []) with false. cbv iota. cbn [bind app].
    change (enumerate_map (fun i => VInt (0 + i)) buffer)
      with (@consecutive Obj 0 (length buffer)).
    set (grown := consecutive 0 (length buffer) :: _).
    assert (Hg : shaped grown 0).
    { eexists _, _, _, _, _, _, _. split.
      - split; [eexists; reflexivity|].
        rewrite !length_map, consecutive_length. repeat split; reflexivity.
      - now rewrite consecutive_length. }
    destruct (trim_shaped c grown 0 Hms Hg) as (data' & Hrun & Hinv & _ & Hidx & Hsh).
    exists data', 0. split; [exact Hrun|]. split; [exact Hinv|].
    split; [exact Hsh|]. split; [reflexivity|]. split; [reflexivity|].
    cbn [extends index_column length Nat.add]. cbv zeta.
    rewrite Hidx, (shaped_usable_length c grown 0 Hg). reflexivity.
  - pose proof Hk as Hk'.
    destruct Hk as (idx & acts & speeds & imgs & dones & rews & infos & Hal & Hidx).
    destruct Hal as ([extra ->] & La & Ls & Li & Ld & Lr & Lf).
    set (data := idx :: acts :: speeds :: imgs :: dones :: rews :: infos :: extra) in *.
    pose proof (shaped_usable_length c data k Hk') as HL.
    change (index_column data) with idx in *.
    change (extends c data) with (0 <? __len__ c data).
    destruct (0 <? __len__ c data) eqn:E.
    + (* rows are appended to the seven columns *)
      apply Z.ltb_lt in E.
      assert (Hpos : (0 < length idx)%nat) by (unfold len in HL; lia).
      assert (Hlast : getitem idx (-1) = Ok (VInt (k + Z.of_nat (length idx) - 1))).
      { rewrite Hidx. rewrite consecutive_length. now apply consecutive_last. }
      unfold column. subst data. cbn [nth_error bind].
      rewrite Hlast. cbn [bind succ_index].
      change (enumerate_map (fun i => VInt (k + Z.of_nat (length idx) - 1 + 1 + i)) buffer)
        with (@consecutive Obj (k + Z.of_nat (length idx) - 1 + 1) (length buffer)).
      replace (k + Z.of_nat (length idx) - 1 + 1) with (k + Z.of_nat (length idx)) by lia.
      rewrite iadd_columns. cbn [bind].
      set (grown := (idx ++ consecutive (k + Z.of_nat (length idx)) (length buffer)) :: _).
      assert (Hi : idx ++ consecutive (k + Z.of_nat (length idx)) (length buffer)
                   = consecutive k (length idx + length buffer)).
      { rewrite Hidx at 1. apply consecutive_app. }
      assert (Hg : shaped grown k).
      { eexists _, _, _, _, _, _, _. split.
        - split; [eexists; reflexivity|].
          rewrite !length_app, !length_map, consecutive_length.
          repeat split; congruence.
        - rewrite Hi. now rewrite consecutive_length. }
      destruct (trim_shaped c grown k Hms Hg) as (data' & Hrun & Hinv & _ & Hidx' & Hsh).
      exists data', k. split; [exact Hrun|]. split; [exact Hinv|].
      split; [exact Hsh|]. split; [exact Hidx|].
      split; [discriminate|]. cbv zeta.
      rewrite Hidx', (shaped_usable_length c grown k Hg).
      unfold grown. cbn [index_column]. rewrite Hi. reflexivity.
    + (* the seven new columns are added behind the stored ones *)
      cbn [bind]. subst data. cbn [app].
      set (grown := idx :: acts :: speeds :: imgs :: dones :: rews :: infos :: _).
      assert (Hg : shaped grown k).
      { exists idx, acts, speeds, imgs, dones, rews, infos. split; [|exact Hidx].
        split; [eexists; reflexivity|]. repeat split; assumption. }
      destruct (trim_shaped c grown k Hms Hg) as (data' & Hrun & Hinv & _ & Hidx' & Hsh).
      exists data', k. split; [exact Hrun|]. split; [exact Hinv|].
      split; [exact Hsh|]. split; [exact Hidx|].
      split; [discriminate|]. cbv zeta.
      rewrite Hidx', (shaped_usable_length c grown k Hg). reflexivity.
Qed.

Lemma reachable_inv c data :
  0 <= min_samples c -> reachable c data -> lidar_inv c data.
Proof.
  intros Hms H. induction H as [|data data' buffer _ IH Happ].
  - split; [now left|]. simpl. lia.
  - destruct (append_buffer_spec c data buffer Hms IH) as (d & k & Hrun & Hinv & _).
    congruence.
Qed.


(** C3 (amended): along every sequence of appends from the empty memory
    the index column is a run of consecutive integers; rows added to the
    stored columns are numbered from the last stored index plus one (from
    [0] when nothing was ever stored), and eviction only drops the oldest
    indices; after appending 150 samples to the empty memory with
    [memory_size = 100], [imgs_obs = 4], [act_buf_len = 1] the remaining
    indices are [45 .. 149]. *)
Theorem index_column_gapless c data (buffer : list (sample Obj)) :
  0 <= imgs_obs c -> 0 <= act_buf_len c ->
  reachable c data ->
  exists data' k,
    append_buffer c data buffer = Ok data'
    /\ index_column data = consecutive k (length (index_column data))
    /\ (data = [] -> k = 0)
    /\ (exists k',
          index_column data' = consecutive k' (length (index_column data')))
    /\ (extends c data = true ->
        exists trimmed,
          index_column data' =
          skipn trimmed
            (index_column data
             ++ consecutive (k + len (index_column data)) (length buffer)))
    /\ (data = [] -> memory_size c = 100 -> imgs_obs c = 4 ->
        act_buf_len c = 1 -> length buffer = 150%nat ->
        index_column data' = consecutive 45 105).
Proof.
  intros Hio Habl Hr.
  assert (Hms : 0 <= min_samples c) by (unfold min_samples; lia).
  pose proof (reachable_inv c data Hms Hr) as Hinv.
  destruct (append_buffer_spec c data buffer Hms Hinv)
    as (data' & k & Hrun & _ & [k' Hsh'] & Hidx & Hk0 & Hidx').
  cbv zeta in Hidx'.
  exists data', k. split; [exact Hrun|]. split; [exact Hidx|].
  split; [exact Hk0|]. split.
  { exists k'.
    destruct Hsh' as (idx & acts & speeds & imgs & dones & rews & infos
                      & ([extra ->] & _) & E). exact E. }
  split.
  - intros E. rewrite E in Hidx'. eexists. rewrite Hidx'.
    f_equal. unfold len. set (idx := index_column data) in *.
    rewrite Hidx at 2. now rewrite consecutive_app.
  - intros -> E1 E2 E3 E4. specialize (Hk0 eq_refl). subst k.
    cbn [extends index_column length Nat.add] in Hidx'.
    rewrite Hidx', E4. unfold len. rewrite consecutive_length.
    unfold min_samples. rewrite E1, E2, E3.
    change (Z.to_nat (Z.max 0 (Z.max 0 (Z.of_nat 150 - Z.max 4 1 - 1) - 100)))
      with 45%nat.
    now rewrite consecutive_skipn by lia.
Qed.

(** An empty buffer leaves the usable length of a reachable store as it
    is. *)
Lemma append_empty_buffer c data :
  0 <= imgs_obs c -> 0 <= act_buf_len c ->
  reachable c data ->
  exists data',
    append_buffer c data [] = Ok data'
    /\ __len__ c data' = __len__ c data.
Proof.
  intros Hio Habl Hr.
  assert (Hms : 0 <= min_samples c) by (unfold min_samples; lia).
  pose proof (reachable_inv c data Hms Hr) as Hinv.
  destruct (append_buffer_spec c data [] Hms Hinv)
    as (data' & k & Hrun & _ & [k' Hsh'] & Hidx & Hk0 & Hidx').
  cbv zeta in Hidx'.
  exists data'. split; [exact Hrun|].
  rewrite (shaped_usable_length c data' k' Hsh'), Hidx'.
  destruct Hinv as [[-> | [k0 Hk]] Hb].
  - cbn [extends index_column length Nat.add].
    change (@consecutive Obj k 0) with (@nil (value Obj)).
    rewrite skipn_nil. change (__len__ c (@nil (list (value Obj)))) with 0.
    change (len (@nil (value Obj))) with 0. lia.
  - pose proof (shaped_usable_length c data k0 Hk) as HL.
    assert (Hg : (if extends c data
                  then consecutive k (length (index_column data) + length (@nil (sample Obj)))
                  else index_column data) = index_column data).
    { destruct (extends c data); [|reflexivity].
      simpl length. rewrite Nat.add_0_r. now rewrite <- Hidx. }
    rewrite Hg. unfold len in *. rewrite length_skipn. lia.
Qed.

End AppendFacts.
(** ** Float division *)

Section FloatFacts.

Lemma round_half_even_spec (y : Q) :
  let m := round_half_even y in
  (inject_Z m - (1 # 2) <= y <= inject_Z m + (1 # 2))%Q
  /\ ((y == inject_Z m + (1 # 2))%Q -> Z.even m = true)
  /\ ((y == inject_Z m - (1 # 2))%Q -> Z.even m = true).
Proof.
  unfold round_half_even.
  pose proof (Qfloor_le y) as Hlo. pose proof (Qlt_floor y) as Hhi.
  rewrite inject_Z_plus in Hhi. change (inject_Z 1) with 1%Q in Hhi.
  set (f := Qfloor y) in *.
  destruct (Qcompare_spec (y - inject_Z f) (1 # 2)) as [E|E|E];
    cbv beta iota zeta.
  - destruct (Z.even f) eqn:Ev; cbv beta iota zeta.
    + split; [lra|]. split; intros _; exact Ev.
    + rewrite inject_Z_plus. change (inject_Z 1) with 1%Q.
      assert (Ev' : Z.even (f + 1) = true).
      { rewrite Z.even_add, Ev. reflexivity. }
      split; [lra|]. split; intros _; exact Ev'.
  - split; [lra|]. split; intros H; exfalso; lra.
  - rewrite inject_Z_plus. change (inject_Z 1) with 1%Q.
    split; [lra|]. split; intros H; exfalso; lra.
Qed.

Lemma round_half_even_monotone (y y' : Q) :
  (y <= y')%Q -> round_half_even y <= round_half_even y'.
Proof.
  intros Hy.
  destruct (round_half_even_spec y) as ([Hlo _] & _ & Heven).
  destruct (round_half_even_spec y') as ([_ Hhi'] & Heven' & _).
  cbv zeta in *.
  set (m := round_half_even y) in *. set (m' := round_half_even y') in *.
  destruct (Z_le_gt_dec m m') as [H|H]; [exact H|exfalso].
  assert (Hm : (inject_Z m' + 1 <= inject_Z m)%Q).
  { change 1%Q with (inject_Z 1). rewrite <- inject_Z_plus, <- Zle_Qle. lia. }
  assert (E1 : (y == inject_Z m - (1 # 2))%Q) by lra.
  assert (E2 : (y' == inject_Z m' + (1 # 2))%Q) by lra.
  assert (E3 : (inject_Z m == inject_Z (m' + 1))%Q).
  { rewrite inject_Z_plus. change (inject_Z 1) with 1%Q. lra. }
  assert (E4 : m = m' + 1) by (apply inject_Z_injective; exact E3).
  specialize (Heven E1). specialize (Heven' E2).
  rewrite E4, Z.even_add, Heven' in Heven. discriminate.
Qed.

Lemma round_half_even_Z (n : Z) : round_half_even (inject_Z n) = n.
Proof.
  unfold round_half_even. rewrite Qfloor_Z.
  destruct (Qcompare_spec (inject_Z n - inject_Z n) (1 # 2)) as [E|E|E];
    [lra|reflexivity|lra].
Qed.

Lemma two_power_pos (k : Z) : (0 < 2 ^ k)%Q.
Proof. apply Qpower_0_lt. reflexivity. Qed.

Lemma two_power_plus (a b : Z) : (2 ^ (a + b) == 2 ^ a * 2 ^ b)%Q.
Proof. apply Qpower_plus. discriminate. Qed.

Lemma two_power_le (a b : Z) : a <= b -> (2 ^ a <= 2 ^ b)%Q.
Proof. intros H. apply Qpower_le_compat_l; [exact H|discriminate]. Qed.

Lemma two_power_Z (n : Z) : 0 <= n -> (inject_Z (2 ^ n) == 2 ^ n)%Q.
Proof. intros H. now rewrite Zpower_Qpower. Qed.

Lemma floor_log2_spec (x : Q) :
  (0 < x)%Q ->
  (2 ^ floor_log2 x <= x < 2 ^ (floor_log2 x + 1))%Q.
Proof.
  intros Hx. unfold floor_log2.
  destruct x as [n d]. cbn [Qnum Qden].
  assert (Hn : 0 < n).
  { unfold Qlt in Hx. cbn in Hx. lia. }
  pose proof (Z.log2_spec n Hn) as [Hn1 Hn2].
  pose proof (Z.log2_spec (Zpos d) eq_refl) as [Hd1 Hd2].
  pose proof (Z.log2_nonneg n) as Ln. pose proof (Z.log2_nonneg (Zpos d)) as Ld.
  set (ln := Z.log2 n) in *. set (ld := Z.log2 (Zpos d)) in *.
  assert (Ex : (n # d == inject_Z n / inject_Z (Zpos d))%Q)
    by apply Qmake_Qdiv.
  assert (Hdpos : (0 < inject_Z (Zpos d))%Q) by reflexivity.
  assert (Qn1 : (2 ^ ln <= inject_Z n)%Q)
    by (rewrite <- two_power_Z by lia; now rewrite <- Zle_Qle).
  assert (Qn2 : (inject_Z n < 2 ^ (ln + 1))%Q)
    by (rewrite <- two_power_Z by lia; now rewrite <- Zlt_Qlt).
  assert (Qd1 : (2 ^ ld <= inject_Z (Zpos d))%Q)
    by (rewrite <- two_power_Z by lia; now rewrite <- Zle_Qle).
  assert (Qd2 : (inject_Z (Zpos d) < 2 ^ (ld + 1))%Q)
    by (rewrite <- two_power_Z by lia; now rewrite <- Zlt_Qlt).
  (* x * d = n *)
  assert (Hxd : ((n # d) * inject_Z (Zpos d) == inject_Z n)%Q).
  { rewrite Ex. field. intros H. rewrite H in Hdpos. discriminate. }
  set (x := (n # d)%Q) in *. set (D := inject_Z (Zpos d)) in *.
  set (N := inject_Z n) in *.
  pose proof (two_power_pos (ln - ld)) as P0.
  pose proof (two_power_pos ld) as P1.
  assert (Pa : (2 ^ (ln + 1) == 2 ^ (ln - ld + 1) * 2 ^ ld)%Q).
  { rewrite <- two_power_plus. now replace (ln - ld + 1 + ld) with (ln + 1) by lia. }
  assert (Pb : (2 ^ ln == 2 ^ (ln - ld - 1) * 2 ^ (ld + 1))%Q).
  { rewrite <- two_power_plus. now replace (ln - ld - 1 + (ld + 1)) with ln by lia. }
  pose proof (two_power_pos (ln - ld + 1)) as P2.
  pose proof (two_power_pos (ln - ld - 1)) as P3.
  pose proof (two_power_pos (ld + 1)) as P4.
  assert (Hup : (x < 2 ^ (ln - ld + 1))%Q).
  { (* x * D = N < 2^(ln+1) = 2^(ln-ld+1) * 2^ld <= 2^(ln-ld+1) * D *)
    apply Qnot_le_lt. intros Hc.
    assert ((2 ^ (ln - ld + 1) * D <= x * D)%Q) by nra.
    assert ((2 ^ (ln - ld + 1) * 2 ^ ld <= 2 ^ (ln - ld + 1) * D)%Q) by nra.
    lra. }
  assert (Hlow : (2 ^ (ln - ld - 1) < x)%Q).
  { apply Qnot_le_lt. intros Hc.
    assert ((x * D <= 2 ^ (ln - ld - 1) * D)%Q) by nra.
    assert ((2 ^ (ln - ld - 1) * D < 2 ^ (ln - ld - 1) * 2 ^ (ld + 1))%Q) by nra.
    lra. }
  destruct (Qle_bool (2 ^ (ln - ld)) x) eqn:E.
  - apply Qle_bool_iff in E. split; [exact E|exact Hup].
  - assert (Hlt : (x < 2 ^ (ln - ld))%Q).
    { apply Qnot_le_lt. intros Hc. apply Qle_bool_iff in Hc. congruence. }
    replace (ln - ld - 1 + 1) with (ln - ld) by lia.
    split; [lra|exact Hlt].
Qed.

Lemma floor_log2_monotone (x y : Q) :
  (0 < x)%Q -> (x <= y)%Q -> floor_log2 x <= floor_log2 y.
Proof.
  intros Hx Hxy.
  destruct (floor_log2_spec x Hx) as [Hx1 _].
  destruct (floor_log2_spec y) as [_ Hy2]; [lra|].
  assert (H : (2 ^ floor_log2 x < 2 ^ (floor_log2 y + 1))%Q) by lra.
  apply Qpower_lt_compat_l_inv in H; [lia|reflexivity].
Qed.

Lemma binary64_monotone (x y : Q) :
  (0 < x)%Q -> (x <= y)%Q -> (binary64 x <= binary64 y)%Q.
Proof.
  intros Hx Hxy. assert (Hy : (0 < y)%Q) by lra.
  pose proof (floor_log2_monotone x y Hx Hxy) as Hk.
  destruct (floor_log2_spec x Hx) as [Hx1 Hx2].
  destruct (floor_log2_spec y Hy) as [Hy1 Hy2].
  unfold binary64.
  set (kx := floor_log2 x) in *. set (ky := floor_log2 y) in *.
  set (ex := Z.max (kx - 52) (-1074)). set (ey := Z.max (ky - 52) (-1074)).
  assert (He : ex <= ey) by (unfold ex, ey; lia).
  pose proof (two_power_pos ex) as Pex. pose proof (two_power_pos ey) as Pey.
  destruct (Z.eq_dec ex ey) as [E|E].
  - rewrite <- E.
    assert (Hm : round_half_even (x / 2 ^ ex) <= round_half_even (y / 2 ^ ex)).
    { apply round_half_even_monotone.
      apply Qmult_le_compat_r; [exact Hxy|].
      apply Qlt_le_weak. now apply Qinv_lt_0_compat. }
    rewrite Zle_Qle in Hm. nra.
  - assert (Hlt : ex + 1 <= ey) by lia.
    assert (Eey : ey = ky - 52) by (unfold ex, ey in *; lia).
    (* the significand of x is at most 2^53 *)
    assert (Hmx : round_half_even (x / 2 ^ ex) <= 2 ^ 53).
    { rewrite <- (round_half_even_Z (2 ^ 53)).
      apply round_half_even_monotone.
      apply Qle_shift_div_r; [exact Pex|].
      rewrite two_power_Z by lia. rewrite <- two_power_plus.
      apply Qlt_le_weak. eapply Qlt_le_trans; [exact Hx2|].
      apply two_power_le. unfold ex. lia. }
    (* the significand of y is at least 2^52 *)
    assert (Hmy : 2 ^ 52 <= round_half_even (y / 2 ^ ey)).
    { rewrite <- (round_half_even_Z (2 ^ 52)) at 1.
      apply round_half_even_monotone.
      apply Qle_shift_div_l; [exact Pey|].
      rewrite two_power_Z by lia. rewrite <- two_power_plus.
      eapply Qle_trans; [|exact Hy1].
      apply two_power_le. lia. }
    rewrite Zle_Qle in Hmx, Hmy.
    rewrite two_power_Z in Hmx, Hmy by lia.
    assert (P : (2 ^ 53 * 2 ^ ex <= 2 ^ 52 * 2 ^ ey)%Q).
    { rewrite <- !two_power_plus. apply two_power_le. lia. }
    pose proof (two_power_pos 53). pose proof (two_power_pos 52).
    eapply Qle_trans; [|eapply Qle_trans; [exact P|]].
    + apply Qmult_le_compat_r; [exact Hmx|lra].
    + apply Qmult_le_compat_r; [exact Hmy|lra].
Qed.

Lemma binary64_nonneg (x : Q) : (0 <= x)%Q -> (0 <= binary64 x)%Q.
Proof.
  intros Hx. unfold binary64.
  set (e := Z.max _ _). pose proof (two_power_pos e) as Pe.
  assert (Hm : 0 <= round_half_even (x / 2 ^ e)).
  { rewrite <- (round_half_even_Z 0) at 1.
    apply round_half_even_monotone.
    apply Qle_shift_div_l; [exact Pe|]. change (inject_Z 0) with 0%Q. lra. }
  rewrite Zle_Qle in Hm. change (inject_Z 0) with 0%Q in Hm. nra.
Qed.

(** Rounding up to a float loses at most half a unit of the last place:
    the [2^-53]th part of the number, or [2^-1075] where the floats are
    subnormal. *)
Lemma binary64_error (x : Q) :
  (0 < x)%Q -> (x <= binary64 x + x * 2 ^ (-53) + 2 ^ (-1075))%Q.
Proof.
  intros Hx. destruct (floor_log2_spec x Hx) as [Hk _].
  unfold binary64. set (k := floor_log2 x) in *.
  set (e := Z.max (k - 52) (-1074)).
  destruct (round_half_even_spec (x / 2 ^ e)) as ([_ Hup] & _).
  cbv zeta in Hup. set (m := round_half_even (x / 2 ^ e)) in *.
  pose proof (two_power_pos e) as Pe.
  pose proof (two_power_pos (-53)) as P53.
  pose proof (two_power_pos (-1075)) as P1075.
  assert (Hx' : (x <= inject_Z m * 2 ^ e + (1 # 2) * 2 ^ e)%Q).
  { assert (E : (x == x / 2 ^ e * 2 ^ e)%Q) by (field; lra).
    rewrite E at 1. nra. }
  assert (Hhalf : ((1 # 2) * 2 ^ e <= x * 2 ^ (-53) + 2 ^ (-1075))%Q).
  { assert (E1 : ((1 # 2) * 2 ^ e == 2 ^ (e - 1))%Q).
    { replace (e - 1) with (e + -1) by lia. rewrite two_power_plus.
      change (2 ^ (-1))%Q with (1 # 2)%Q. ring. }
    rewrite E1. destruct (Z_le_gt_dec (k - 52) (-1074)) as [Hs|Hn].
    - replace (e - 1) with (-1075) by (unfold e; lia). nra.
    - replace (e - 1) with (k + -53) by (unfold e; lia).
      rewrite two_power_plus. nra. }
  lra.
Qed.

Lemma binary64_two_power_1023 : (binary64 (inject_Z (2 ^ 1023)) < 2 ^ 1024)%Q.
Proof. vm_compute. reflexivity. Qed.

Lemma quotient_pos (a b : Z) :
  0 < a -> 0 < b -> (0 < inject_Z a / inject_Z b)%Q.
Proof.
  intros Ha Hb. apply Qlt_shift_div_l.
  - change 0%Q with (inject_Z 0). now rewrite <- Zlt_Qlt.
  - rewrite Qmult_0_l. change 0%Q with (inject_Z 0). now rewrite <- Zlt_Qlt.
Qed.

Lemma quotient_antitone (a b b' : Z) :
  0 <= a -> 0 < b -> b <= b' ->
  (inject_Z a / inject_Z b' <= inject_Z a / inject_Z b)%Q.
Proof.
  intros Ha Hb Hb'.
  destruct b as [|p|p]; try lia. destruct b' as [|p'|p']; try lia.
  unfold Qle, Qdiv, Qmult, Qinv, inject_Z. simpl.
  rewrite !Z.mul_1_r. nia.
Qed.

(** The division of a positive integer by a positive integer. *)
Lemma true_divide_pos (a b : Z) :
  0 < a -> 0 < b ->
  true_divide a b =
  let r := binary64 (inject_Z a / inject_Z b) in
  if Qle_bool (2 ^ 1024) r then Raise OverflowError else Ok r.
Proof.
  intros Ha Hb. unfold true_divide.
  replace (b =? 0) with false by (symmetry; apply Z.eqb_neq; lia).
  replace (a =? 0) with false by (symmetry; apply Z.eqb_neq; lia).
  rewrite !Z.abs_eq by lia.
  replace (Z.sgn a * Z.sgn b <? 0) with false; [reflexivity|].
  symmetry. apply Z.ltb_ge. rewrite (Z.sgn_pos a), (Z.sgn_pos b) by lia. lia.
Qed.

(** The quotient of a non-negative integer by a positive one is not
    negative. *)
Lemma true_divide_nonneg (a b : Z) r :
  0 <= a -> 0 < b -> true_divide a b = Ok r -> (0 <= r)%Q.
Proof.
  intros Ha Hb. destruct (Z.eq_dec a 0) as [->|Hne].
  - unfold true_divide.
    replace (b =? 0) with false by (symmetry; apply Z.eqb_neq; lia).
    change (0 =? 0) with true. cbv iota. intros H. injection H as <-. lra.
  - rewrite true_divide_pos by lia. cbv zeta.
    destruct (Qle_bool _ _); [discriminate|].
    intros H. injection H as <-. apply binary64_nonneg.
    apply Qlt_le_weak. apply quotient_pos; lia.
Qed.

(** A larger divisor gives a quotient that is not larger, and raises
    nothing when the smaller one did not. *)
Lemma true_divide_antitone (a b b' : Z) r :
  0 <= a -> 0 < b -> b <= b' ->
  true_divide a b = Ok r ->
  exists r', true_divide a b' = Ok r' /\ (r' <= r)%Q.
Proof.
  intros Ha Hb Hb'. destruct (Z.eq_dec a 0) as [->|Hne].
  - unfold true_divide.
    replace (b =? 0) with false by (symmetry; apply Z.eqb_neq; lia).
    replace (b' =? 0) with false by (symmetry; apply Z.eqb_neq; lia).
    change (0 =? 0) with true. cbv iota. intros H. injection H as <-.
    exists 0%Q. split; [reflexivity|lra].
  - rewrite !true_divide_pos by lia. cbv zeta.
    assert (Hm : (binary64 (inject_Z a / inject_Z b')
                  <= binary64 (inject_Z a / inject_Z b))%Q).
    { apply binary64_monotone; [apply quotient_pos; lia|].
      apply quotient_antitone; lia. }
    destruct (Qle_bool (2 ^ 1024) (binary64 (inject_Z a / inject_Z b))) eqn:E;
      [discriminate|].
    intros H. injection H as <-.
    destruct (Qle_bool (2 ^ 1024) (binary64 (inject_Z a / inject_Z b'))) eqn:E'.
    + exfalso. apply Qle_bool_iff in E'.
      assert (Hc : Qle_bool (2 ^ 1024) (binary64 (inject_Z a / inject_Z b)) = true)
        by (apply Qle_bool_iff; lra).
      congruence.
    + eexists. split; [reflexivity|exact Hm].
Qed.

(** The exact quotient behind a float quotient. *)
Lemma true_divide_error (a b : Z) r :
  0 <= a -> 0 < b -> true_divide a b = Ok r ->
  (inject_Z a / inject_Z b
   <= r + inject_Z a / inject_Z b * 2 ^ (-53) + 2 ^ (-1075))%Q.
Proof.
  intros Ha Hb. pose proof (two_power_pos (-1075)) as P.
  destruct (Z.eq_dec a 0) as [->|Hne].
  - unfold true_divide.
    replace (b =? 0) with false by (symmetry; apply Z.eqb_neq; lia).
    change (0 =? 0) with true. cbv iota. intros H. injection H as <-.
    assert (E : (inject_Z 0 / inject_Z b == 0)%Q)
      by (unfold Qdiv; change (inject_Z 0) with 0%Q; ring).
    rewrite E. lra.
  - rewrite true_divide_pos by lia. cbv zeta.
    destruct (Qle_bool _ _); [discriminate|].
    intros H. injection H as <-. apply binary64_error.
    apply quotient_pos; lia.
Qed.

(** Counters up to [2^1023] never overflow the division. *)
Lemma true_divide_defined (a b : Z) :
  Z.abs a <= 2 ^ 1023 -> b <> 0 -> exists r, true_divide a b = Ok r.
Proof.
  intros Ha Hb. unfold true_divide.
  replace (b =? 0) with false by (symmetry; apply Z.eqb_neq; lia).
  destruct (a =? 0) eqn:Ea; [now exists 0%Q|]. apply Z.eqb_neq in Ea.
  cbv zeta.
  destruct (Qle_bool _ _) eqn:E; [|eexists; reflexivity].
  exfalso. apply Qle_bool_iff in E.
  assert (Hpa : 0 < Z.abs a) by lia. assert (Hpb : 0 < Z.abs b) by lia.
  assert (H1 : (inject_Z (Z.abs a) / inject_Z (Z.abs b) <= inject_Z (2 ^ 1023))%Q).
  { apply Qle_shift_div_r.
    - change 0%Q with (inject_Z 0). now rewrite <- Zlt_Qlt.
    - rewrite <- inject_Z_mult, <- Zle_Qle.
      assert (0 < 2 ^ 1023) by (apply Z.pow_pos_nonneg; lia). nia. }
  pose proof (binary64_monotone _ _ (quotient_pos _ _ Hpa Hpb) H1) as H2.
  pose proof binary64_two_power_1023 as H3. lra.
Qed.

(** The only error of a division by a positive integer. *)
Lemma true_divide_raises (a b : Z) e :
  0 < b -> true_divide a b = Raise e -> e = OverflowError.
Proof.
  intros Hb. unfold true_divide.
  replace (b =? 0) with false by (symmetry; apply Z.eqb_neq; lia).
  destruct (a =? 0); [discriminate|]. cbv zeta.
  destruct (Qle_bool _ _); [|discriminate].
  intros H. now injection H as <-.
Qed.

(** [true_divide] against the division of the machine. *)
Lemma true_divide_agrees_with_machine :
  forallb (fun ab =>
             match true_divide (fst ab) (snd ab),
                   machine_divide (fst ab) (snd ab) with
             | Ok r, Some r' => Qeq_bool r r'
             | _, _ => false
             end)
    [(3, 10); (1, 3); (2, 3); (1, 10); (7, 5); (1000, 1000); (1001, 1000);
     (0, 7); (123456789, 987654321);
     (1, 9007199254740991); (9007199254740991, 3);
     (4503599627370497, 2); (4503599627370499, 2)]
  = true.
Proof. vm_compute. reflexivity. Qed.

(** The corners of the division: a tie goes to the even significand, the
    quotients below half of the smallest float are 0, the largest float
    is reached, and what rounds beyond it is an [OverflowError]. *)
Lemma true_divide_corners :
  forallb (fun abr =>
             match true_divide (fst (fst abr)) (snd (fst abr)), snd abr with
             | Ok r, Some r' => Qeq_bool r r'
             | Raise OverflowError, None => true
             | _, _ => false
             end)
    [(2 ^ 53 + 1, 1, Some (inject_Z (2 ^ 53)));
     (2 ^ 53 + 3, 1, Some (inject_Z (2 ^ 53 + 4)));
     (- (2 ^ 53 + 1), 1, Some (inject_Z (- 2 ^ 53)));
     (1, 2 ^ 1074, Some (1 # Z.to_pos (2 ^ 1074))%Q);
     (1, 2 ^ 1075, Some 0%Q);
     (3, 2 ^ 1075, Some (2 # Z.to_pos (2 ^ 1074))%Q);
     (2 ^ 1024 - 2 ^ 970 - 1, 1, Some (inject_Z ((2 ^ 53 - 1) * 2 ^ 971)));
     (2 ^ 1024 - 2 ^ 970, 1, None);
     (2 ^ 1024, 1, None)]
  = true.
Proof. vm_compute. reflexivity. Qed.

(** The float [0.3] is below three tenths, and the quotient [3 / 10] is
    this float. *)
Lemma three_tenths_is_rounded :
  true_divide 3 10 = Ok (5404319552844595 # 18014398509481984)%Q
  /\ (5404319552844595 # 18014398509481984 < 3 # 10)%Q.
Proof. split; [|reflexivity]. vm_compute. reflexivity. Qed.

End FloatFacts.

(** ** The pacing rule of the training loop *)

Section PacingFacts.

Import TrainingOffline.

Variables Memory Sample : Type.
Variable memory_append : Memory -> list Sample -> result Memory.
Variable batches : nat.
Variable c : config.

Implicit Types (t : trainer Memory) (w : @world Memory Sample).

Lemma ratio_defined t :
  0 < total_samples t ->
  ratio t = true_divide (total_updates t) (total_samples t).
Proof.
  intros H. unfold ratio.
  now replace (0 <? total_samples t) with true by (symmetry; now apply Z.ltb_lt).
Qed.

Lemma ratio_undefined t :
  total_samples t <= 0 -> ratio t = Ok (inject_Z (-1)).
Proof.
  intros H. unfold ratio.
  now replace (0 <? total_samples t) with false by (symmetry; now apply Z.ltb_ge).
Qed.

Lemma starved_defined t :
  0 < total_samples t ->
  starved c t = (r <- true_divide (total_updates t) (total_samples t) ;;
                 Ok (over c r)).
Proof. intros H. unfold starved. now rewrite ratio_defined. Qed.

Lemma starved_undefined t : total_samples t <= 0 -> starved c t = Ok true.
Proof.
  intros H. unfold starved. rewrite ratio_undefined by exact H.
  cbn [bind]. f_equal. unfold over. rewrite Qeq_bool_refl. apply orb_true_r.
Qed.

(** The test on a ratio that is not negative. *)
Lemma over_nonneg (r : Q) :
  (0 <= r)%Q ->
  over c r = negb (Qle_bool r (max_training_steps_per_env_step c)).
Proof.
  intros Hr. unfold over.
  destruct (Qeq_bool r (inject_Z (-1))) eqn:E; [|now rewrite orb_false_r].
  apply Qeq_bool_iff in E. exfalso.
  assert (H : (inject_Z (-1) < 0)%Q) by reflexivity. lra.
Qed.

(** Outside the loop the ratio is defined and within the bound. *)
Lemma not_starved_within t :
  starved c t = Ok false ->
  within_bound (max_training_steps_per_env_step c)
    (total_updates t) (total_samples t).
Proof.
  intros H.
  destruct (Z_lt_le_dec 0 (total_samples t)) as [Hs|Hs].
  - split; [exact Hs|]. rewrite starved_defined in H by exact Hs.
    destruct (true_divide _ _) as [r|e]; [|discriminate].
    cbn [bind] in H. injection H as H. exists r. split; [reflexivity|].
    unfold over in H. apply orb_false_iff in H. destruct H as [Hle _].
    apply negb_false_iff in Hle. now apply Qle_bool_iff.
  - rewrite starved_undefined in H by exact Hs. discriminate.
Qed.

Lemma starved_iff t :
  0 <= total_updates t -> 0 <= total_samples t ->
  starved c t = Ok true <->
  total_samples t = 0
  \/ exists r,
       true_divide (total_updates t) (total_samples t) = Ok r
       /\ (max_training_steps_per_env_step c < r)%Q.
Proof.
  intros Hu Hs.
  destruct (Z_lt_le_dec 0 (total_samples t)) as [Hpos|Hz].
  - rewrite starved_defined by exact Hpos. split.
    + destruct (true_divide _ _) as [r|e] eqn:E; [|discriminate].
      cbn [bind]. intros H. injection H as H. right. exists r.
      split; [reflexivity|].
      rewrite over_nonneg in H by exact (true_divide_nonneg _ _ _ Hu Hpos E).
      apply negb_true_iff in H. apply Qnot_le_lt. intros Hle.
      apply Qle_bool_iff in Hle. congruence.
    + intros [H|(r & E & Hlt)]; [lia|]. rewrite E. cbn [bind]. f_equal.
      rewrite over_nonneg by exact (true_divide_nonneg _ _ _ Hu Hpos E).
      apply negb_true_iff.
      destruct (Qle_bool r _) eqn:E'; [|reflexivity].
      apply Qle_bool_iff in E'. exfalso. lra.
  - rewrite starved_undefined by exact Hz. split; [intros _; left; lia|reflexivity].
Qed.

(** The test itself raises nothing but the [OverflowError] of the
    division. *)
Lemma starved_raises t e : starved c t = Raise e -> e = OverflowError.
Proof.
  destruct (Z_lt_le_dec 0 (total_samples t)) as [Hpos|Hz].
  - rewrite starved_defined by exact Hpos.
    destruct (true_divide _ _) as [r|e'] eqn:E; [discriminate|].
    cbn [bind]. intros H. injection H as <-.
    exact (true_divide_raises _ _ _ Hpos E).
  - rewrite starved_undefined by exact Hz. discriminate.
Qed.

Lemma starved_overflow t e :
  starved c t = Raise e ->
  e = OverflowError /\ 2 ^ 1023 < Z.abs (total_updates t).
Proof.
  intros H. split; [exact (starved_raises _ _ H)|].
  destruct (Z_lt_le_dec 0 (total_samples t)) as [Hpos|Hz].
  - rewrite starved_defined in H by exact Hpos.
    destruct (Z_lt_le_dec (2 ^ 1023) (Z.abs (total_updates t))) as [Hb|Hb];
      [exact Hb|exfalso].
    destruct (true_divide_defined (total_updates t) (total_samples t) Hb
                ltac:(lia)) as [r Hr].
    rewrite Hr in H. discriminate.
  - rewrite starved_undefined in H by exact Hz. discriminate.
Qed.

Lemma wait_for_samples_done bufs t l w' :
  wait_for_samples memory_append c bufs t l = (Done, w') ->
  starved c (self w') = Ok false.
Proof.
  revert t l. induction bufs as [|buffer rest IH]; intros t l; simpl.
  - discriminate.
  - destruct (update_buffer memory_append t buffer) as [t'|e]; [|discriminate].
    destruct (starved c t') as [[|]|e] eqn:E.
    + apply IH.
    + intros H. injection H as <-. exact E.
    + discriminate.
Qed.

Lemma check_ratio_done w w' :
  check_ratio memory_append c w = (Done, w') -> starved c (self w') = Ok false.
Proof.
  unfold check_ratio. destruct (starved c (self w)) as [[|]|e] eqn:E.
  - apply wait_for_samples_done.
  - intros H. injection H as <-. exact E.
  - discriminate.
Qed.

Lemma wait_for_samples_log bufs t l st w' :
  wait_for_samples memory_append c bufs t l = (st, w') ->
  paced c l ->
  paced c (log w').
Proof.
  unfold paced in *.
  revert t l. induction bufs as [|buffer rest IH]; intros t l; simpl.
  - intros H. injection H as _ <-. auto.
  - destruct (update_buffer memory_append t buffer) as [t'|e].
    + destruct (starved c t') as [[|]|e] eqn:E.
      * intros H Hl. apply (IH _ _ H). repeat constructor. exact Hl.
      * intros H Hl. injection H as _ <-. simpl. constructor; [exact I|exact Hl].
      * intros H Hl. injection H as _ <-. simpl. constructor; [exact I|exact Hl].
    + intros H Hl. injection H as _ <-. simpl. constructor; [exact I|exact Hl].
Qed.

Lemma check_ratio_log w st w' :
  check_ratio memory_append c w = (st, w') ->
  paced c (log w) ->
  paced c (log w').
Proof.
  unfold paced in *.
  unfold check_ratio. destruct (starved c (self w)) as [[|]|e].
  - intros H Hl. apply (wait_for_samples_log _ _ _ _ _ H).
    constructor; [exact I|exact Hl].
  - intros H. injection H as _ <-. auto.
  - intros H. injection H as _ <-. auto.
Qed.

Lemma train_step_log w st w' :
  starved c (self w) = Ok false ->
  train_step memory_append c w = (st, w') ->
  paced c (log w) ->
  paced c (log w').
Proof.
  unfold paced in *.
  intros Hns. unfold train_step. cbn [total_updates total_samples epoch memory].
  pose proof (not_starved_within _ Hns) as Hw.
  assert (Hw' : within_bound (max_training_steps_per_env_step c)
                  (total_updates (self w) + 1 - 1) (total_samples (self w)))
    by (now replace (total_updates (self w) + 1 - 1) with (total_updates (self w))
          by lia).
  assert (Hlog : forall l,
             paced c l ->
             paced c (EvUpdated (total_updates (self w) + 1) (total_samples (self w))
                      :: EvTrain (total_updates (self w)) (total_samples (self w))
                      :: l)).
  { intros l Hl. constructor; [exact Hw'|]. constructor; [exact Hw|exact Hl]. }
  destruct (update_model_interval c =? 0).
  - intros H Hl. injection H as _ <-. simpl. auto.
  - intros H Hl. apply (check_ratio_log _ _ _ H). simpl.
    destruct (_ =? 0); [constructor; [exact I|]|]; auto.
Qed.

Lemma train_step_done w w' :
  train_step memory_append c w = (Done, w') -> starved c (self w') = Ok false.
Proof.
  unfold train_step. destruct (update_model_interval c =? 0); [discriminate|].
  apply check_ratio_done.
Qed.

Lemma train_loop_log n w st w' :
  starved c (self w) = Ok false ->
  train_loop memory_append c n w = (st, w') ->
  paced c (log w) ->
  paced c (log w').
Proof.
  unfold paced in *.
  revert w. induction n as [|n IH]; intros w Hns; simpl.
  - intros H. injection H as _ <-. auto.
  - destruct (train_step memory_append c w) as [st1 w1] eqn:E.
    pose proof (train_step_log _ _ _ Hns E) as Hstep. unfold paced in Hstep.
    destruct st1.
    + intros H Hl. apply (IH w1 (train_step_done _ _ E) H). auto.
    + intros H Hl. injection H as _ <-. auto.
    + intros H Hl. injection H as _ <-. auto.
Qed.

Lemma update_buffer_keeps_bound t t' buffer :
  update_buffer memory_append t buffer = Ok t' ->
  total_updates t' = total_updates t
  /\ total_samples t' = total_samples t + len buffer.
Proof.
  unfold update_buffer. destruct (memory_append (memory t) buffer); [|discriminate].
  intros H. injection H as <-. now split.
Qed.

Lemma within_not_starved t :
  0 <= total_updates t ->
  within_bound (max_training_steps_per_env_step c)
    (total_updates t) (total_samples t) ->
  starved c t = Ok false.
Proof.
  intros Hu (Hs & r & E & Hle). rewrite starved_defined by exact Hs.
  rewrite E. cbn [bind]. f_equal.
  rewrite over_nonneg by exact (true_divide_nonneg _ _ _ Hu Hs E).
  apply negb_false_iff. now apply Qle_bool_iff.
Qed.

(** More samples never starve a trainer that was not starved. *)
Lemma update_buffer_not_starved t t' buffer :
  0 <= total_updates t -> starved c t = Ok false ->
  update_buffer memory_append t buffer = Ok t' ->
  starved c t' = Ok false.
Proof.
  intros Hu Hns Hup.
  destruct (update_buffer_keeps_bound _ _ _ Hup) as [Eu Es].
  destruct (not_starved_within _ Hns) as (Hs & r & E & Hle).
  pose proof (len_nonneg buffer) as Hn.
  apply within_not_starved; [lia|]. split; [lia|].
  rewrite Eu, Es.
  destruct (true_divide_antitone _ _ (total_samples t + len buffer) _ Hu Hs
              ltac:(lia) E) as (r' & E' & Hr').
  exists r'. split; [exact E'|lra].
Qed.

(** The exact quotients at the two observation points of a training
    step: within the bound up to the rounding of the division before the
    step, and over it by at most the share [1 / s] of the step more, after
    it. *)
Lemma within_bound_exact (u s : Z) :
  0 <= u ->
  within_bound (max_training_steps_per_env_step c) u s ->
  let q := (inject_Z u / inject_Z s)%Q in
  (q <= max_training_steps_per_env_step c + q * 2 ^ (-53) + 2 ^ (-1075))%Q
  /\ (inject_Z (u + 1) / inject_Z s
      <= max_training_steps_per_env_step c + 1 / inject_Z s
         + q * 2 ^ (-53) + 2 ^ (-1075))%Q.
Proof.
  intros Hu (Hs & r & E & Hle). cbv zeta.
  pose proof (true_divide_error _ _ _ Hu Hs E) as He.
  assert (E1 : (inject_Z (u + 1) / inject_Z s
                == inject_Z u / inject_Z s + 1 / inject_Z s)%Q).
  { rewrite inject_Z_plus. unfold Qdiv. change (inject_Z 1) with 1%Q. ring. }
  split; [lra|]. rewrite E1. lra.
Qed.

Lemma wait_for_samples_updates bufs t l st w' :
  wait_for_samples memory_append c bufs t l = (st, w') ->
  total_updates (self w') = total_updates t.
Proof.
  revert t l. induction bufs as [|buffer rest IH]; intros t l; simpl.
  - intros H. now injection H as _ <-.
  - destruct (update_buffer memory_append t buffer) as [t'|e] eqn:E.
    + destruct (update_buffer_keeps_bound _ _ _ E) as [Eu _].
      destruct (starved c t') as [[|]|e'].
      * intros H. rewrite (IH _ _ H). exact Eu.
      * intros H. now injection H as _ <-.
      * intros H. now injection H as _ <-.
    + intros H. now injection H as _ <-.
Qed.

Lemma check_ratio_updates w st w' :
  check_ratio memory_append c w = (st, w') ->
  total_updates (self w') = total_updates (self w).
Proof.
  unfold check_ratio. destruct (starved c (self w)) as [[|]|e].
  - apply wait_for_samples_updates.
  - intros H. now injection H as _ <-.
  - intros H. now injection H as _ <-.
Qed.

Lemma train_step_updates w st w' :
  train_step memory_append c w = (st, w') ->
  total_updates (self w') = total_updates (self w) + 1.
Proof.
  unfold train_step. destruct (update_model_interval c =? 0).
  - intros H. now injection H as _ <-.
  - intros H. now rewrite (check_ratio_updates _ _ _ H).
Qed.

Lemma train_loop_invariant n w st w' :
  starved c (self w) = Ok false -> 0 <= total_updates (self w) ->
  train_loop memory_append c n w = (st, w') ->
  paced c (log w) ->
  0 <= total_updates (self w')
  /\ paced c (log w').
Proof.
  unfold paced in *.
  intros Hns Hu H Hl. split; [|exact (train_loop_log _ _ _ _ Hns H Hl)].
  clear Hl Hns. revert w Hu H. induction n as [|n IH]; intros w Hu; simpl.
  - intros H. now injection H as _ <-.
  - destruct (train_step memory_append c w) as [st1 w1] eqn:E.
    pose proof (train_step_updates _ _ _ E) as Eu.
    destruct st1.
    + apply IH. lia.
    + intros H. injection H as _ <-. lia.
    + intros H. injection H as _ <-. lia.
Qed.

Lemma run_round_invariant w st w' :
  0 <= total_updates (self w) ->
  run_round memory_append batches c w = (st, w') ->
  paced c (log w) ->
  0 <= total_updates (self w')
  /\ paced c (log w').
Proof.
  unfold paced in *.
  intros Hu. unfold run_round.
  destruct (check_ratio memory_append c w) as [st1 w1] eqn:E.
  pose proof (check_ratio_updates _ _ _ E) as Eu.
  pose proof (check_ratio_log _ _ _ E) as Hlog. unfold paced in Hlog.
  destruct st1; try (intros H Hl; injection H as _ <-; split; [lia|auto]).
  pose proof (check_ratio_done _ _ E) as Hns.
  destruct (incoming w1) as [|buffer rest].
  - intros H Hl. injection H as _ <-. split; [lia|auto].
  - destruct (update_buffer memory_append (self w1) buffer) as [t|e] eqn:Eup.
    + intros H Hl.
      destruct (update_buffer_keeps_bound _ _ _ Eup) as [Eu' _].
      assert (Hu1 : 0 <= total_updates (self w1)) by lia.
      assert (Hut : 0 <= total_updates t) by lia.
      pose proof (update_buffer_not_starved _ _ _ Hu1 Hns Eup) as Hns'.
      apply (train_loop_invariant batches (World t rest _) st w' Hns' Hut H).
      simpl. constructor; [exact I|auto].
    + intros H Hl. injection H as _ <-. simpl.
      split; [lia|]. constructor; [exact I|auto].
Qed.

Lemma run_rounds_invariant n w st w' :
  0 <= total_updates (self w) ->
  run_rounds memory_append batches c n w = (st, w') ->
  paced c (log w) ->
  0 <= total_updates (self w')
  /\ paced c (log w').
Proof.
  unfold paced in *.
  revert w. induction n as [|n IH]; intros w Hu; simpl.
  - intros H Hl. injection H as _ <-. auto.
  - destruct (run_round memory_append batches c w) as [st1 w1] eqn:E.
    intros H Hl. destruct (run_round_invariant _ _ _ Hu E Hl) as [Hu1 Hl1].
    destruct st1; [exact (IH _ Hu1 H Hl1)| |]; injection H as _ <-; auto.
Qed.

Lemma ingest_updates pre t t' :
  ingest memory_append t pre = Ok t' ->
  total_updates t' = total_updates t
  /\ total_samples t <= total_samples t'.
Proof.
  revert t. induction pre as [|buffer pre IH]; intros t; simpl.
  - intros H. injection H as <-. lia.
  - destruct (update_buffer memory_append t buffer) as [t1|e] eqn:E;
      [|discriminate].
    cbn [bind]. intros H. destruct (IH _ H) as [Eu Es].
    destruct (update_buffer_keeps_bound _ _ _ E) as [Eu1 Es1].
    pose proof (len_nonneg buffer). lia.
Qed.

(** The polling loop returns as soon as the buffers at hand bring the
    ratio within the bound, for a counter of updates that no division
    overflows on. *)
Lemma wait_for_samples_returns pre rest t t' l :
  0 <= total_updates t <= 2 ^ 1023 -> 0 <= total_samples t ->
  pre <> [] ->
  ingest memory_append t pre = Ok t' -> starved c t' = Ok false ->
  exists w', wait_for_samples memory_append c (pre ++ rest) t l = (Done, w').
Proof.
  revert t l. induction pre as [|buffer pre IH]; intros t l Hu Hs Hne; [congruence|].
  simpl. destruct (update_buffer memory_append t buffer) as [t1|e] eqn:Eup;
    [|discriminate].
  cbn [bind]. intros Hin Hns.
  destruct (update_buffer_keeps_bound _ _ _ Eup) as [Eu Es].
  pose proof (len_nonneg buffer) as Hn.
  destruct (starved c t1) as [[|]|e] eqn:E.
  - destruct pre as [|b2 pre'].
    + simpl in Hin. congruence.
    + apply IH; [lia|lia|discriminate|exact Hin|exact Hns].
  - eexists. reflexivity.
  - exfalso. destruct (starved_overflow _ _ E) as [_ Hbig]. lia.
Qed.


(** C6: [check_ratio] enters the polling loop exactly when
    [total_samples == 0] or the ratio, the float
    [total_updates / total_samples], strictly exceeds the bound (1000
    updates for 1000 samples with bound 1 is not starved, 1001 is); the
    loop ingests buffers until the ratio is within the bound, sleeps only
    when the ratio is still over it after an ingestion, and returns as
    soon as the buffers bring the ratio within the bound; it is run again
    after every single update, so that along an epoch the ratio is within
    the bound before each training step and exceeds it after the step by
    at most what this one step has added: the ratio of one update less
    is within the bound.  The test raises nothing but the [OverflowError]
    of a division of more than [2^1023] updates.  In exact numbers, a
    ratio within the bound is a quotient that exceeds the bound by at most
    the rounding of the division, its [2^-53]th part (and [2^-1075]), and
    one step adds [1 / total_samples] to it. *)
Theorem pacing_rule :
  (forall t, 0 <= total_updates t -> 0 <= total_samples t ->
     (starved c t = Ok true <->
      total_samples t = 0
      \/ exists r,
           true_divide (total_updates t) (total_samples t) = Ok r
           /\ (max_training_steps_per_env_step c < r)%Q))
  /\ (forall w,
        check_ratio memory_append c w =
        match starved c (self w) with
        | Raise e => (Raised e, w)
        | Ok true =>
            wait_for_samples memory_append c (incoming w) (self w)
              (EvWaiting :: log w)
        | Ok false => (Done, w)
        end)
  /\ (forall buffer rest t t' l,
        update_buffer memory_append t buffer = Ok t' ->
        wait_for_samples memory_append c (buffer :: rest) t l =
        match starved c t' with
        | Raise e => (Raised e, World t' rest (EvRetrieve (len buffer) :: l))
        | Ok true =>
            wait_for_samples memory_append c rest t'
              (EvSleep :: EvRetrieve (len buffer) :: l)
        | Ok false => (Done, World t' rest (EvRetrieve (len buffer) :: l))
        end)
  /\ (forall t e, starved c t = Raise e ->
        e = OverflowError /\ 2 ^ 1023 < Z.abs (total_updates t))
  /\ (forall w w',
        check_ratio memory_append c w = (Done, w') ->
        within_bound (max_training_steps_per_env_step c)
          (total_updates (self w')) (total_samples (self w')))
  /\ (forall pre rest t t' l,
        0 <= total_updates t <= 2 ^ 1023 -> 0 <= total_samples t ->
        pre <> [] ->
        ingest memory_append t pre = Ok t' -> starved c t' = Ok false ->
        exists w',
          wait_for_samples memory_append c (pre ++ rest) t l = (Done, w'))
  /\ (forall w w',
        train_step memory_append c w = (Done, w') ->
        total_updates (self w') = total_updates (self w) + 1
        /\ within_bound (max_training_steps_per_env_step c)
             (total_updates (self w')) (total_samples (self w')))
  /\ (forall w st w',
        0 <= total_updates (self w) ->
        paced c (log w) ->
        run_epoch memory_append batches c w = (st, w') ->
        paced c (log w'))
  /\ (forall u s,
        0 <= u ->
        within_bound (max_training_steps_per_env_step c) u s ->
        let q := (inject_Z u / inject_Z s)%Q in
        (q <= max_training_steps_per_env_step c
              + q * 2 ^ (-53) + 2 ^ (-1075))%Q
        /\ (inject_Z (u + 1) / inject_Z s
            <= max_training_steps_per_env_step c + 1 / inject_Z s
               + q * 2 ^ (-53) + 2 ^ (-1075))%Q)
  /\ ((max_training_steps_per_env_step c == 1)%Q ->
      forall t, total_samples t = 1000 ->
        (total_updates t = 1000 -> starved c t = Ok false)
        /\ (total_updates t = 1001 -> starved c t = Ok true)).
Proof.
  unfold paced in *.
  split; [exact starved_iff|].
  split; [reflexivity|].
  split.
  { intros buffer rest t t' l H. simpl. now rewrite H. }
  split; [exact starved_overflow|].
  split.
  { intros w w' H. apply not_starved_within. exact (check_ratio_done _ _ H). }
  split; [exact wait_for_samples_returns|].
  split.
  { intros w w' H. split; [exact (train_step_updates _ _ _ H)|].
    apply not_starved_within. exact (train_step_done _ _ H). }
  split.
  { intros w st w' Hu Hl. unfold run_epoch.
    destruct (run_rounds memory_append batches c (rounds c) w) as [st1 w1] eqn:E.
    destruct (run_rounds_invariant _ _ _ _ Hu E Hl) as [_ Hl1].
    destruct st1; intros H; injection H as _ <-; exact Hl1. }
  split; [exact within_bound_exact|].
  intros Hb t Hs. split; intros Hu.
  - rewrite starved_defined by lia. rewrite Hu, Hs.
    assert (E : exists r, true_divide 1000 1000 = Ok r /\ (r == 1)%Q).
    { eexists. split; [vm_compute; reflexivity|]. vm_compute. reflexivity. }
    destruct E as (r & E & Hr). rewrite E. cbn [bind]. f_equal.
    rewrite over_nonneg by lra.
    apply negb_false_iff. apply Qle_bool_iff. lra.
  - rewrite starved_defined by lia. rewrite Hu, Hs.
    assert (E : exists r, true_divide 1001 1000 = Ok r /\ (1 < r)%Q).
    { eexists. split; [vm_compute; reflexivity|]. vm_compute. reflexivity. }
    destruct E as (r & E & Hr). rewrite E. cbn [bind]. f_equal.
    rewrite over_nonneg by lra.
    apply negb_true_iff.
    destruct (Qle_bool _ _) eqn:E'; [|reflexivity].
    apply Qle_bool_iff in E'. exfalso. lra.
Qed.

End PacingFacts.

(** ** Empty buffers *)

Section EmptyBuffer.

Import TrainingOffline.

Context {Obj : Type}.
Variable mc : MemoryTMNF.config.
Variable tc : config.

(** C9: when [retrieve_buffer] returns an empty buffer, [update_buffer]
    succeeds and leaves [total_samples] and the length of the memory
    unchanged, and the polling loop, still starved, goes to sleep and
    polls again instead of failing. *)
Theorem empty_buffer_no_contribution
  (t : trainer (store Obj)) (rest : list (list (MemoryTMNFLidar.sample Obj)))
  (l : list event) :
  0 <= MemoryTMNF.imgs_obs mc -> 0 <= MemoryTMNF.act_buf_len mc ->
  reachable mc (memory t) ->
  exists t',
    update_buffer (MemoryTMNFLidar.append mc) t [] = Ok t'
    /\ total_samples t' = total_samples t
    /\ total_updates t' = total_updates t
    /\ MemoryTMNF.__len__ mc (memory t') = MemoryTMNF.__len__ mc (memory t)
    /\ reachable mc (memory t')
    /\ starved tc t' = starved tc t
    /\ (starved tc t = Ok true ->
        wait_for_samples (MemoryTMNFLidar.append mc) tc ([] :: rest) t l =
        wait_for_samples (MemoryTMNFLidar.append mc) tc rest t'
          (EvSleep :: EvRetrieve 0 :: l)).
Proof.
  intros Hio Habl Hr.
  destruct (append_empty_buffer mc (memory t) Hio Habl Hr) as (m' & Hrun & Hlen).
  assert (Hup : update_buffer (MemoryTMNFLidar.append mc) t []
                = Ok (Trainer (epoch t) (total_updates t) (total_samples t + 0) m')).
  { unfold update_buffer, MemoryTMNFLidar.append. now rewrite Hrun. }
  eexists. split; [exact Hup|]. cbn [total_samples total_updates memory].
  assert (Hst : starved tc (Trainer (epoch t) (total_updates t) (total_samples t + 0) m')
                = starved tc t).
  { unfold starved, ratio. cbn [total_samples total_updates].
    now rewrite Z.add_0_r. }
  split; [lia|]. split; [reflexivity|]. split; [exact Hlen|].
  split; [exact (reach_append mc _ _ _ Hr Hrun)|].
  split; [exact Hst|].
  intros Hs. cbn [wait_for_samples]. rewrite Hup, Hst, Hs. reflexivity.
Qed.

End EmptyBuffer.
(** ** Trajectories of length one *)

Section TrajectoryFacts.

Import MemoryTMNFLidar.

Context {Obj : Type} (np_float32 : value Obj -> value Obj).

Lemma slice_from_one (l : list (value Obj)) b :
  len l <= b -> slice l (Some 1) (Some b) = tl l.
Proof.
  intros Hb. pose proof (len_nonneg l) as Hn.
  rewrite <- slice_tail. unfold slice, clamp.
  destruct (b <? 0) eqn:E; [apply Z.ltb_lt in E; lia|].
  now rewrite (Z.min_r b) by lia.
Qed.

(** C7 (amended): with [traj_len = 1] and the same [imgs_obs],
    [act_buf_len] and stored data, [get_trajectory(item)] returns, for
    every valid item, four lists of one element each: the new observation
    window, the reward, the done flag and the info of
    [get_transition(item)]; the two memories have the same usable
    length. *)
Theorem trajectory_of_length_one (M io abl : Z)
  data idx acts speeds imgs dones rews infos item :
  0 <= io -> 0 <= abl ->
  aligned data idx acts speeds imgs dones rews infos ->
  0 <= item < __len__ (Config M io abl) data ->
  TrajMemoryTMNFLidar.__len__ (TrajMemoryTMNFLidar.Config M io abl 1) data
  = __len__ (Config M io abl) data
  /\ exists t,
      get_transition np_float32 (Config M io abl) data item = Ok t
      /\ TrajMemoryTMNFLidar.get_trajectory np_float32
           (TrajMemoryTMNFLidar.Config M io abl 1) data item
         = Ok (TrajMemoryTMNFLidar.Trajectory
                 [t_new_obs t] [t_rew t] [t_done t] [t_info t]).
Proof.
  intros Hio Habl Hal Hitem.
  set (c := Config M io abl) in *.
  set (tc := TrajMemoryTMNFLidar.Config M io abl 1).
  assert (Ems : TrajMemoryTMNFLidar.min_samples tc = min_samples c)
    by (unfold TrajMemoryTMNFLidar.min_samples, min_samples; simpl; lia).
  assert (Esi : TrajMemoryTMNFLidar.start_imgs_offset tc = start_imgs_offset c)
    by (unfold TrajMemoryTMNFLidar.start_imgs_offset, start_imgs_offset;
        now rewrite Ems).
  assert (Esa : TrajMemoryTMNFLidar.start_acts_offset tc = start_acts_offset c)
    by (unfold TrajMemoryTMNFLidar.start_acts_offset, start_acts_offset;
        now rewrite Ems).
  split.
  { unfold TrajMemoryTMNFLidar.__len__, __len__. now rewrite Ems. }
  pose proof (usable_length_rows c _ _ _ _ _ _ _ _ Hal) as Hlen.
  destruct (offsets_meet c Hio Habl) as (Hms & Hi & Ha & Hsi & Hsa).
  change (imgs_obs c) with io in *. change (act_buf_len c) with abl in *.
  assert (Hnow : item + min_samples c < len idx) by lia.
  destruct (get_transition_in_store np_float32 c _ _ _ _ _ _ _ _ item Hio Habl Hal
              (proj1 Hitem) Hnow)
    as (sl & sn & a & r & d & f & Gsl & Hsn & Hna & Hr & Hd & Hf & Hget).
  cbv zeta in Hget. change (imgs_obs c) with io in Hget.
  change (act_buf_len c) with abl in Hget.
  eexists. split; [exact Hget|]. cbn [t_new_obs t_rew t_done t_info].
  destruct Hal as ([extra ->] & La & Ls & Li & Ld & Lr & Lf).
  assert (Hl : forall l : list (value Obj),
             length l = length idx -> len l = len idx)
    by (intros l E; unfold len; now rewrite E).
  unfold TrajMemoryTMNFLidar.get_trajectory,
    TrajMemoryTMNFLidar.load_acts_traj, TrajMemoryTMNFLidar.load_imgs_traj,
    column.
  rewrite Ems, Esi, Esa.
  change (TrajMemoryTMNFLidar.imgs_obs tc) with io.
  change (TrajMemoryTMNFLidar.act_buf_len tc) with abl.
  change (TrajMemoryTMNFLidar.traj_len tc) with 1.
  change (range 1) with [0].
  simpl nth_error. cbn [bind comprehension].
  rewrite (slice_window acts) by (rewrite ?(Hl _ La); lia).
  rewrite (slice_window imgs) by (rewrite ?(Hl _ Li); lia).
  replace (item + start_acts_offset c + abl + 1 - (item + start_acts_offset c))
    with (abl + 1) by lia.
  replace (item + start_imgs_offset c + io + 1 - (item + start_imgs_offset c))
    with (io + 1) by lia.
  set (wa := window acts _ _). set (wi := window imgs _ _).
  assert (Lwa : length wa = Z.to_nat (abl + 1))
    by (apply window_length; pose proof (Hl _ La); unfold len in *; lia).
  assert (Lwi : length wi = Z.to_nat (io + 1))
    by (apply window_length; pose proof (Hl _ Li); unfold len in *; lia).
  destruct wi as [|i0 wi'] eqn:Ewi; [simpl in Lwi; lia|].
  cbn [np_stack bind]. rewrite Z.add_0_r.
  rewrite (getitem_nth rews _ r), (getitem_nth speeds _ sn),
    (getitem_nth dones _ d), (getitem_nth infos _ f) by (lia || assumption).
  cbn [bind].
  rewrite !slice_from_one by (unfold len; rewrite ?Lwa, ?Lwi; lia).
  reflexivity.
Qed.

End TrajectoryFacts.

(** ** The length of the image and drone memories *)

Section ColumnCountFacts.

Context {Obj : Type}.

(** C10 (amended): [MemoryTM2020.__len__] and [MemoryCognifly.__len__]
    are 0 whenever the number of columns [len(self.data)] is below
    [min_samples + 1]; the first append to the empty memory leaves 8
    (resp. 11) columns, so that with [min_samples >= 8] (resp. [>= 11])
    the length after it is 0 whatever the number of rows appended. *)
Theorem length_needs_columns :
  (forall c (data : store Obj),
      len data < MemoryTM2020.min_samples c + 1 ->
      MemoryTM2020.__len__ c data = Ok 0)
  /\ (forall c (data : store Obj),
        len data < MemoryCognifly.min_samples c + 1 ->
        MemoryCognifly.__len__ c data = Ok 0)
  /\ (forall decode c files buffer (m' : MemoryTM2020.memory Obj),
        8 <= MemoryTM2020.min_samples c ->
        MemoryTM2020.append_buffer decode c (MemoryTM2020.Memory [] files) buffer
        = Ok m' ->
        length (MemoryTM2020.data m') = 8%nat
        /\ MemoryTM2020.__len__ c (MemoryTM2020.data m') = Ok 0)
  /\ (forall c buffer (data' : store Obj),
        11 <= MemoryCognifly.min_samples c ->
        MemoryCognifly.append_buffer c [] buffer = Ok data' ->
        length data' = 11%nat /\ MemoryCognifly.__len__ c data' = Ok 0).
Proof.
  assert (H20 : forall c (data : store Obj),
             len data < MemoryTM2020.min_samples c + 1 ->
             MemoryTM2020.__len__ c data = Ok 0).
  { intros c data H. unfold MemoryTM2020.__len__.
    now replace (len data <? MemoryTM2020.min_samples c + 1) with true
      by (symmetry; now apply Z.ltb_lt). }
  assert (Hcf : forall c (data : store Obj),
             len data < MemoryCognifly.min_samples c + 1 ->
             MemoryCognifly.__len__ c data = Ok 0).
  { intros c data H. unfold MemoryCognifly.__len__.
    now replace (len data <? MemoryCognifly.min_samples c + 1) with true
      by (symmetry; now apply Z.ltb_lt). }
  split; [exact H20|]. split; [exact Hcf|]. split.
  - intros decode c files buffer m' Hms. unfold MemoryTM2020.append_buffer.
    cbn [MemoryTM2020.data].
    rewrite (H20 c []) by (change (len (@nil (list (value Obj)))) with 0; lia).
    cbn [bind]. change (0 <? 0) with false. cbv iota. cbn [bind].
    destruct (comprehension _ _) as [d0|e]; [|discriminate].
    cbn [bind app].
    set (grown := [_; _; _; _; _; _; _; _]).
    assert (Hg : MemoryTM2020.__len__ c grown = Ok 0)
      by (apply H20; change (len grown) with 8; lia).
    rewrite Hg. cbn [bind].
    destruct (0 <? 0 - MemoryTM2020.memory_size c).
    + subst grown. unfold trim_column, column. cbn [nth_error bind setitem].
      intros H. injection H as <-. cbn [MemoryTM2020.data].
      split; [reflexivity|]. apply H20.
      match goal with |- len ?l < _ => change (len l) with 8 end. lia.
    + cbn [bind]. intros H. injection H as <-. cbn [MemoryTM2020.data].
      split; [reflexivity|exact Hg].
  - intros c buffer data' Hms. unfold MemoryCognifly.append_buffer.
    rewrite (Hcf c []) by (change (len (@nil (list (value Obj)))) with 0; lia).
    cbn [bind]. change (0 <? 0) with false. cbv iota. cbn [bind].
    destruct (comprehension _ _) as [d0|e]; [|discriminate].
    cbn [bind app].
    set (grown := [_; _; _; _; _; _; _; _; _; _; _]).
    assert (Hg : MemoryCognifly.__len__ c grown = Ok 0)
      by (apply Hcf; change (len grown) with 11; lia).
    rewrite Hg. cbn [bind].
    destruct (0 <? 0 - MemoryCognifly.memory_size c).
    + subst grown. unfold trim_column, column. cbn [nth_error bind setitem].
      intros H. injection H as <-.
      split; [reflexivity|]. apply Hcf.
      match goal with |- len ?l < _ => change (len l) with 11 end. lia.
    + intros H. injection H as <-. split; [reflexivity|exact Hg].
Qed.

End ColumnCountFacts.
(** ** The concrete scenarios *)

Lemma demo_store_aligned (n : nat) :
  aligned (demo_store n) (consecutive 0 n) (demo_column 100 n)
    (demo_column 200 n) (demo_column 300 n) (repeat (VBool false) n)
    (demo_column 400 n) (demo_column 500 n).
Proof.
  split; [exists []; reflexivity|].
  unfold demo_column, consecutive.
  rewrite !length_map, !length_seq, repeat_length. repeat split; reflexivity.
Defined.

(** Ten samples appended to the empty memory give [demo_store 10]. *)
Lemma demo_store_appended :
  MemoryTMNFLidar.append_buffer demo_config [] (demo_buffer 0 10)
  = Ok (demo_store 10).
Proof. reflexivity. Qed.

Lemma get_transition_windows_witness :
  0 <= 0 < MemoryTMNF.__len__ demo_config (demo_store 10)
  /\ MemoryTMNFLidar.get_transition (fun x => x) demo_config (demo_store 10) 0
     = Ok (MemoryTMNFLidar.Transition
             (Observation (VObj 203) [VObj 300; VObj 301; VObj 302; VObj 303]
                [VObj 103])
             (VObj 104) (VObj 404)
             (Observation (VObj 204) [VObj 301; VObj 302; VObj 303; VObj 304]
                [VObj 104])
             (VBool false) (VObj 504)).
Proof.
  assert (Hitem : 0 <= 0 < MemoryTMNF.__len__ demo_config (demo_store 10))
    by (vm_compute; split; [discriminate|reflexivity]).
  split; [exact Hitem|].
  destruct (get_transition_windows (fun x => x) demo_config (demo_store 10)
              _ _ _ _ _ _ _ 0
              ltac:(simpl; lia) ltac:(simpl; lia) (demo_store_aligned 10) Hitem)
    as [_ H].
  destruct (H eq_refl eq_refl eq_refl)
    as (i0 & i1 & i2 & i3 & i4 & a3 & a4 & s3 & s4 & r4 & d4 & f4
        & Ei & Ea & Es3 & Es4 & Er & Ed & Ef & Hget).
  vm_compute in Ei, Ea, Es3, Es4, Er, Ed, Ef.
  injection Ei as <- <- <- <- <-. injection Ea as <- <-.
  injection Es3 as <-. injection Es4 as <-. injection Er as <-.
  injection Ed as <-. injection Ef as <-.
  exact Hget.
Defined.

Lemma new_windows_end_at_now_witness :
  exists t front_imgs front_acts,
    MemoryTMNFLidar.get_transition (fun x => x) demo_config (demo_store 10) 2
    = Ok t
    /\ o_imgs (MemoryTMNFLidar.t_new_obs t) = front_imgs ++ [VObj 306]
    /\ o_acts (MemoryTMNFLidar.t_new_obs t) = front_acts ++ [VObj 106].
Proof.
  destruct (new_windows_end_at_now (fun x => x) demo_config (demo_store 10)
              _ _ _ _ _ _ _ 2
              ltac:(simpl; lia) ltac:(simpl; lia) (demo_store_aligned 10)
              ltac:(vm_compute; split; [discriminate|reflexivity]))
    as (t & img & act & Hget & Himg & Hact & Hi & Ha).
  vm_compute in Himg, Hact. injection Himg as <-. injection Hact as <-.
  destruct (Hi ltac:(simpl; lia)) as [fi Efi].
  destruct (Ha ltac:(simpl; lia)) as [fa Efa].
  exists t, fi, fa. repeat split; assumption.
Defined.

(** C8, as stated, fails: the item equal to the usable length (5, with
    ten stored rows) is answered with a transition, not with an error. *)
Lemma item_at_length_is_answered :
  ~ (forall item,
        ~ (0 <= item < MemoryTMNF.__len__ demo_config (demo_store 10)) ->
        exists e,
          MemoryTMNFLidar.get_transition (fun x => x) demo_config
            (demo_store 10) item = Raise e).
Proof.
  intros H. destruct (H 5) as [e He].
  - vm_compute. intros [_ Hlt]. discriminate Hlt.
  - vm_compute in He. discriminate He.
Qed.

(** A negative item is not refused either: with [imgs_obs = 1] and
    [act_buf_len = 4] the item [-1] yields a transition whose action
    buffers are empty. *)
Lemma negative_item_is_answered :
  MemoryTMNFLidar.get_transition (fun x => x) (MemoryTMNF.Config 100 1 4)
    (demo_store 10) (-1)
  = Ok (MemoryTMNFLidar.Transition
          (Observation (VObj 202) [VObj 302] [])
          (VObj 103) (VObj 403)
          (Observation (VObj 203) [VObj 303] [])
          (VBool false) (VObj 503)).
Proof. reflexivity. Qed.

Lemma get_transition_beyond_length_witness :
  MemoryTMNFLidar.get_transition (fun x => x) demo_config (demo_store 10) 6
  = Raise IndexError
  /\ MemoryTMNFLidar.get_transition (fun x => x) demo_config (demo_store 10) 10
     = Raise ValueError.
Proof.
  split.
  - apply (proj1 (get_transition_beyond_length (fun x => x) demo_config
                    (demo_store 10) _ _ _ _ _ _ _ 6
                    ltac:(simpl; lia) ltac:(simpl; lia) (demo_store_aligned 10))).
    vm_compute. reflexivity.
  - apply (proj1 (get_transition_beyond_length (fun x => x) demo_config
                    (demo_store 10) _ _ _ _ _ _ _ 10
                    ltac:(simpl; lia) ltac:(simpl; lia) (demo_store_aligned 10))).
    vm_compute. reflexivity.
Defined.

(** C3, as stated, fails: after the 150 appends the first remaining row
    carries the index 45, the one given to the 46th sample; the 51st
    sample was given the index 50. *)
Lemma first_remaining_index_is_45 :
  exists data',
    MemoryTMNFLidar.append_buffer demo_config [] (demo_buffer 0 150) = Ok data'
    /\ hd_error (index_column data') = Some (VInt 45)
    /\ nth_error (@consecutive Z 0 150) 50 = Some (VInt 50)
    /\ hd_error (index_column data') <> nth_error (@consecutive Z 0 150) 50.
Proof.
  eexists. split; [vm_compute; reflexivity|].
  split; [reflexivity|]. split; [reflexivity|]. vm_compute. discriminate.
Qed.

Lemma index_column_gapless_witness :
  exists data',
    MemoryTMNFLidar.append_buffer demo_config [] (demo_buffer 0 150) = Ok data'
    /\ index_column data' = consecutive 45 105.
Proof.
  destruct (index_column_gapless demo_config [] (demo_buffer 0 150)
              ltac:(simpl; lia) ltac:(simpl; lia) (reach_init demo_config))
    as (data' & k & Hrun & _ & _ & _ & _ & Hidx).
  exists data'. split; [exact Hrun|]. apply Hidx; reflexivity.
Defined.

(** C4: the code breaks the alignment.  Three samples appended to the
    empty memory ([min_samples = 4]) leave the usable length at 0; the next
    append, of five samples, then adds seven new columns behind the seven
    stored ones instead of extending them: fourteen columns of lengths 3
    and 5, an index column that restarts at 0, and a usable length that
    stays 0 whatever is appended afterwards. *)
Theorem short_store_gets_new_columns :
  exists d1 d2 d3,
    MemoryTMNFLidar.append_buffer demo_config [] (demo_buffer 0 3) = Ok d1
    /\ MemoryTMNFLidar.append_buffer demo_config d1 (demo_buffer 3 5) = Ok d2
    /\ map (@length (value Z)) d2
       = [3; 3; 3; 3; 3; 3; 3; 5; 5; 5; 5; 5; 5; 5]%nat
    /\ index_column d2 = consecutive 0 3
    /\ nth_error d2 7 = Some (consecutive 0 5)
    /\ MemoryTMNFLidar.append_buffer demo_config d2 (demo_buffer 8 100) = Ok d3
    /\ length d3 = 21%nat
    /\ row_count d3 = 3
    /\ MemoryTMNF.__len__ demo_config d3 = 0.
Proof.
  eexists _, _, _.
  split; [vm_compute; reflexivity|].
  split; [vm_compute; reflexivity|].
  split; [reflexivity|]. split; [reflexivity|]. split; [reflexivity|].
  split; [vm_compute; reflexivity|].
  repeat split; reflexivity.
Qed.

(** C7, as stated, fails: the value [get_trajectory] returns for
    [traj_len = 1] is a 4-tuple of lists, [get_transition] returns a
    6-tuple; the last observation window and the new action are not in
    the trajectory. *)
Lemma trajectory_is_not_the_transition :
  exists t tr,
    MemoryTMNFLidar.get_transition (fun x => x) demo_config (demo_store 10) 0
    = Ok t
    /\ TrajMemoryTMNFLidar.get_trajectory (fun x => x)
         (TrajMemoryTMNFLidar.Config 100 4 1 1) (demo_store 10) 0 = Ok tr
    /\ trajectory_obj tr <> transition_obj t.
Proof.
  eexists _, _. split; [vm_compute; reflexivity|].
  split; [vm_compute; reflexivity|].
  vm_compute. discriminate.
Qed.

Lemma trajectory_of_length_one_witness :
  TrajMemoryTMNFLidar.get_trajectory (fun x => x)
    (TrajMemoryTMNFLidar.Config 100 4 1 1) (demo_store 10) 0
  = Ok (TrajMemoryTMNFLidar.Trajectory
          [Observation (VObj 204) [VObj 301; VObj 302; VObj 303; VObj 304]
             [VObj 104]]
          [VObj 404] [VBool false] [VObj 504]).
Proof.
  destruct (trajectory_of_length_one (fun x => x) 100 4 1 (demo_store 10)
              _ _ _ _ _ _ _ 0
              ltac:(lia) ltac:(lia) (demo_store_aligned 10)
              ltac:(vm_compute; split; [discriminate|reflexivity]))
    as (_ & t & Hget & Htraj).
  vm_compute in Hget. injection Hget as <-. exact Htraj.
Defined.

(** C10, as stated, fails: with [imgs_obs = 8] the length is 0 after a
    first append of 20 rows, but a second append adds 8 more columns, and
    with 16 columns the length is 11. *)
Lemma tm2020_length_does_not_stay_0 :
  exists m1 m2,
    MemoryTM2020.append_buffer (fun x => x) tm2020_config
      (MemoryTM2020.Memory [] []) (tm2020_buffer 0 20) = Ok m1
    /\ MemoryTM2020.__len__ tm2020_config (MemoryTM2020.data m1) = Ok 0
    /\ MemoryTM2020.append_buffer (fun x => x) tm2020_config m1
         (tm2020_buffer 20 1) = Ok m2
    /\ length (MemoryTM2020.data m2) = 16%nat
    /\ MemoryTM2020.__len__ tm2020_config (MemoryTM2020.data m2) = Ok 11
    /\ MemoryTM2020.__len__ tm2020_config (MemoryTM2020.data m2) <> Ok 0.
Proof.
  eexists _, _. split; [vm_compute; reflexivity|].
  split; [reflexivity|]. split; [vm_compute; reflexivity|].
  split; [reflexivity|]. split; [reflexivity|]. vm_compute. discriminate.
Qed.

Lemma length_needs_columns_witness :
  exists m',
    MemoryTM2020.append_buffer (fun x => x) tm2020_config
      (MemoryTM2020.Memory [] []) (tm2020_buffer 0 20) = Ok m'
    /\ length (MemoryTM2020.data m') = 8%nat
    /\ MemoryTM2020.__len__ tm2020_config (MemoryTM2020.data m') = Ok 0.
Proof.
  assert (H : exists m',
             MemoryTM2020.append_buffer (fun x => x) tm2020_config
               (MemoryTM2020.Memory [] []) (tm2020_buffer 0 20) = Ok m')
    by (eexists; vm_compute; reflexivity).
  destruct H as [m' Hrun]. exists m'. split; [exact Hrun|].
  apply (proj1 (proj2 (proj2 (@length_needs_columns Z)))
           (fun x => x) tm2020_config [] (tm2020_buffer 0 20) m').
  - vm_compute. discriminate.
  - exact Hrun.
Defined.

Lemma pacing_rule_witness :
  TrainingOffline.starved demo_pacing (demo_trainer 1000 1000 []) = Ok false
  /\ TrainingOffline.starved demo_pacing (demo_trainer 1001 1000 []) = Ok true
  /\ (TrainingOffline.starved demo_pacing (demo_trainer 0 0 []) = Ok true
      <-> 0 = 0 \/ exists r, true_divide 0 0 = Ok r /\ (1 < r)%Q)
  /\ within_bound 1
       (TrainingOffline.total_updates
          (TrainingOffline.self
             (snd (TrainingOffline.check_ratio
                     (MemoryTMNFLidar.append demo_config) demo_pacing
                     demo_world))))
       (TrainingOffline.total_samples
          (TrainingOffline.self
             (snd (TrainingOffline.check_ratio
                     (MemoryTMNFLidar.append demo_config) demo_pacing
                     demo_world))))
  /\ paced demo_pacing
       (TrainingOffline.log
          (snd (TrainingOffline.run_epoch (MemoryTMNFLidar.append demo_config)
                  2 demo_pacing demo_world))).
Proof.
  destruct (pacing_rule (store Z) (MemoryTMNFLidar.sample Z)
              (MemoryTMNFLidar.append demo_config) 2 demo_pacing)
    as (Hiff & _ & _ & _ & Hdone & _ & _ & Hlog & _ & Hnum).
  split.
  { apply (Hnum ltac:(reflexivity) (demo_trainer 1000 1000 [])); reflexivity. }
  split.
  { apply (Hnum ltac:(reflexivity) (demo_trainer 1001 1000 [])); reflexivity. }
  split.
  { exact (Hiff (demo_trainer 0 0 []) ltac:(simpl; lia) ltac:(simpl; lia)). }
  split.
  { apply (Hdone demo_world). vm_compute. reflexivity. }
  apply (Hlog demo_world
           (fst (TrainingOffline.run_epoch (MemoryTMNFLidar.append demo_config)
                   2 demo_pacing demo_world))).
  - simpl. lia.
  - constructor.
  - apply surjective_pairing.
Defined.

Lemma empty_buffer_no_contribution_witness :
  exists t',
    TrainingOffline.update_buffer (MemoryTMNFLidar.append demo_config)
      (demo_trainer 1001 1000 (demo_store 10)) [] = Ok t'
    /\ TrainingOffline.total_samples t' = 1000
    /\ MemoryTMNF.__len__ demo_config (TrainingOffline.memory t') = 5
    /\ TrainingOffline.starved demo_pacing t' = Ok true.
Proof.
  destruct (empty_buffer_no_contribution demo_config demo_pacing
              (demo_trainer 1001 1000 (demo_store 10)) [] []
              ltac:(simpl; lia) ltac:(simpl; lia)
              (reach_append demo_config [] (demo_store 10) (demo_buffer 0 10)
                 (reach_init demo_config) demo_store_appended))
    as (t' & Hup & Hs & _ & Hlen & _ & Hst & _).
  exists t'. split; [exact Hup|]. split; [exact Hs|].
  split; [exact Hlen|]. rewrite Hst. vm_compute. reflexivity.
Defined.
Section LidarRows.

Import MemoryTMNFLidar.

Context {Obj : Type}.
Implicit Types (c : config) (data : store Obj).

Lemma trim_seven c (c0 c1 c2 c3 c4 c5 c6 : list (value Obj)) extra :
  let data := c0 :: c1 :: c2 :: c3 :: c4 :: c5 :: c6 :: extra in
  let to_trim := __len__ c data - memory_size c in
  (if 0 <? to_trim
   then
     data <- trim_column data 0 to_trim ;;
     data <- trim_column data 1 to_trim ;;
     data <- trim_column data 2 to_trim ;;
     data <- trim_column data 3 to_trim ;;
     data <- trim_column data 4 to_trim ;;
     data <- trim_column data 5 to_trim ;;
     trim_column data 6 to_trim
   else Ok data)
  = Ok (skipn (dropped c (len c0)) c0 :: skipn (dropped c (len c0)) c1
        :: skipn (dropped c (len c0)) c2 :: skipn (dropped c (len c0)) c3
        :: skipn (dropped c (len c0)) c4 :: skipn (dropped c (len c0)) c5
        :: skipn (dropped c (len c0)) c6 :: extra).
Proof.
  intros data to_trim.
  assert (HL : __len__ c data = Z.max 0 (len c0 - min_samples c - 1)).
  { destruct (usable_length_index c data) as [H|[H _]]; [exact H|discriminate]. }
  assert (Hd : dropped c (len c0) = Z.to_nat (Z.max 0 to_trim))
    by (unfold dropped, to_trim; now rewrite HL).
  rewrite Hd. destruct (0 <? to_trim) eqn:E.
  - apply Z.ltb_lt in E. unfold data. rewrite trim_columns.
    rewrite !slice_drop by lia. now rewrite Z.max_r by lia.
  - apply Z.ltb_ge in E. now rewrite Z.max_l by lia.
Qed.


Lemma len_app (a b : list (value Obj)) : len (a ++ b) = len a + len b.
Proof. unfold len. rewrite length_app. lia. Qed.

Lemma len_map {B : Type} (f : B -> value Obj) (l : list B) : len (map f l) = len l.
Proof. unfold len. now rewrite length_map. Qed.

(** With a positive usable length the rows go behind the seven columns
    in front, and the columns behind these are left as they are. *)
Lemma append_buffer_on_rows c idx acts speeds imgs dones rews infos extra z
  (buffer : list (sample Obj)) :
  0 < __len__ c (idx :: acts :: speeds :: imgs :: dones :: rews :: infos :: extra) ->
  getitem idx (-1) = Ok (VInt z) ->
  append_buffer c (idx :: acts :: speeds :: imgs :: dones :: rews :: infos :: extra)
    buffer
  = Ok (map (skipn (dropped c (len idx + len buffer)))
          (glue [idx; acts; speeds; imgs; dones; rews; infos]
             (columns_of (z + 1) buffer))
        ++ extra).
Proof.
  intros Hpos Hlast. unfold append_buffer.
  replace (0 <? __len__ c _) with true by (symmetry; now apply Z.ltb_lt).
  unfold column. cbn [nth_error bind]. rewrite Hlast. cbn [bind succ_index].
  change (enumerate_map (fun i => VInt (z + 1 + i)) buffer)
    with (@consecutive Obj (z + 1) (length buffer)).
  rewrite iadd_columns. cbn [bind].
  rewrite trim_seven. rewrite len_app.
  replace (len (@consecutive Obj (z + 1) (length buffer))) with (len buffer)
    by (unfold len; now rewrite consecutive_length).
  reflexivity.
Qed.

(** X1: While the usable length is positive, [append_buffer] is a queue on
    rows: each of the seven columns gets the buffer's values behind its
    own, the new indices continue after the last stored one, then the same
    number of oldest rows leaves every column; columns behind the seventh
    are not touched. *)
Theorem append_buffer_fifo c idx acts speeds imgs dones rews infos extra z
  (buffer : list (sample Obj)) :
  0 < __len__ c (idx :: acts :: speeds :: imgs :: dones :: rews :: infos :: extra) ->
  getitem idx (-1) = Ok (VInt z) ->
  append_buffer c (idx :: acts :: speeds :: imgs :: dones :: rews :: infos :: extra)
    buffer
  = Ok (map (skipn (dropped c (len idx + len buffer)))
          (glue [idx; acts; speeds; imgs; dones; rews; infos]
             (columns_of (z + 1) buffer))
        ++ extra).
Proof.
  intros Hpos Hlast. unfold append_buffer.
  replace (0 <? __len__ c _) with true by (symmetry; now apply Z.ltb_lt).
  unfold column. cbn [nth_error bind]. rewrite Hlast. cbn [bind succ_index].
  change (enumerate_map (fun i => VInt (z + 1 + i)) buffer)
    with (@consecutive Obj (z + 1) (length buffer)).
  rewrite iadd_columns. cbn [bind].
  rewrite trim_seven. rewrite len_app.
  replace (len (@consecutive Obj (z + 1) (length buffer))) with (len buffer)
    by (unfold len; now rewrite consecutive_length).
  reflexivity.
Qed.

(** The columns [append_buffer] makes on the memory without columns. *)
Lemma append_to_empty_store c (buffer : list (sample Obj)) :
  append_buffer c [] buffer
  = Ok (map (skipn (dropped c (len buffer))) (columns_of 0 buffer)).
Proof.
  unfold append_buffer. change (0 <? __len__ c []) with false.
  cbv iota. cbn [bind app].
  change (enumerate_map (fun i => VInt (0 + i)) buffer)
    with (@consecutive Obj 0 (length buffer)).
  rewrite trim_seven.
  replace (len (@consecutive Obj 0 (length buffer))) with (len buffer)
    by (unfold len; now rewrite consecutive_length).
  reflexivity.
Qed.

(** X2: On the memory without columns [append_buffer] creates the seven
    columns of the buffer, numbered from 0, and drops the oldest rows
    beyond the capacity. *)
Theorem append_buffer_first c (buffer : list (sample Obj)) :
  append_buffer c [] buffer
  = Ok (map (skipn (dropped c (len buffer))) (columns_of 0 buffer)).
Proof. exact (append_to_empty_store c buffer). Qed.


(** With rows stored but a usable length of 0, [append_buffer] puts the
    buffer's columns behind the stored ones and leaves these as they
    are. *)
Lemma append_buffer_blocked c (c0 c1 c2 c3 c4 c5 c6 : list (value Obj)) extra
  (buffer : list (sample Obj)) :
  0 <= memory_size c ->
  __len__ c (c0 :: c1 :: c2 :: c3 :: c4 :: c5 :: c6 :: extra) = 0 ->
  append_buffer c (c0 :: c1 :: c2 :: c3 :: c4 :: c5 :: c6 :: extra) buffer
  = Ok ((c0 :: c1 :: c2 :: c3 :: c4 :: c5 :: c6 :: extra)
        ++ columns_of 0 buffer).
Proof.
  intros HM Hlen. unfold append_buffer. rewrite Hlen.
  change (0 <? 0) with false. cbv iota. cbn [bind app].
  change (enumerate_map (fun i => VInt (0 + i)) buffer)
    with (@consecutive Obj 0 (length buffer)).
  rewrite trim_seven.
  assert (Hd : dropped c (len c0) = 0%nat).
  { unfold dropped.
    destruct (usable_length_index c (c0 :: c1 :: c2 :: c3 :: c4 :: c5 :: c6 :: extra))
      as [H|[H _]]; [|discriminate].
    rewrite Hlen in H. cbn [index_column] in H. lia. }
  rewrite Hd. reflexivity.
Qed.

(** X3: A first buffer of at most [min_samples + 1] samples blocks the
    memory: whatever is appended afterwards, the usable length stays 0,
    the seven columns in front stay those of the first buffer, and every
    further append only adds seven columns more. *)
Theorem short_first_buffer_blocks c (first : list (sample Obj))
  (rest : list (list (sample Obj))) :
  0 <= imgs_obs c -> 0 <= act_buf_len c -> 0 <= memory_size c ->
  len first <= min_samples c + 1 ->
  exists data',
    append_all c [] (first :: rest) = Ok data'
    /\ __len__ c data' = 0
    /\ firstn 7 data' = columns_of 0 first
    /\ length data' = (7 * (1 + length rest))%nat.
Proof.
  intros Hio Habl HM Hshort.
  assert (Hms : 0 <= min_samples c) by (unfold min_samples; lia).
  cbn [append_all]. rewrite append_to_empty_store.
  assert (Hd : dropped c (len first) = 0%nat) by (unfold dropped; lia).
  rewrite Hd. cbn [bind map columns_of skipn].
  change [consecutive 0 (length first); map s_act first;
          map (fun b => fst (s_obs b)) first; map (fun b => snd (s_obs b)) first;
          map s_done first; map s_rew first; map s_info first]
    with (columns_of 0 first ++ []).
  assert (Hgen : forall bufs extra,
             exists data',
               append_all c (columns_of 0 first ++ extra) bufs = Ok data'
               /\ __len__ c data' = 0
               /\ firstn 7 data' = columns_of 0 first
               /\ length data' = (7 + length extra + 7 * length bufs)%nat).
  { induction bufs as [|b bufs IH]; intros extra.
    - exists (columns_of 0 first ++ extra). split; [reflexivity|].
      split; [|split; [reflexivity|rewrite length_app; simpl; lia]].
      unfold __len__. cbn [columns_of app]. unfold len.
      rewrite consecutive_length.
      destruct (Z.of_nat (length first) - min_samples c - 1 <? 0) eqn:E;
        [reflexivity|apply Z.ltb_ge in E; unfold len in Hshort; lia].
    - cbn [append_all]. cbn [columns_of app].
      rewrite append_buffer_blocked; [|exact HM|].
      + cbn [bind].
        destruct (IH (extra ++ columns_of 0 b)) as (d & Hrun & Hl & Hf & Hn).
        exists d. cbn [columns_of app] in Hrun |- *.
        split; [exact Hrun|]. split; [exact Hl|]. split; [exact Hf|].
        rewrite Hn, length_app. simpl. lia.
      + unfold __len__. unfold len. rewrite consecutive_length.
        destruct (Z.of_nat (length first) - min_samples c - 1 <? 0) eqn:E;
          [reflexivity|apply Z.ltb_ge in E; unfold len in Hshort; lia]. }
  destruct (Hgen rest []) as (d & Hrun & Hl & Hf & Hn).
  exists d. split; [exact Hrun|]. split; [exact Hl|]. split; [exact Hf|].
  rewrite Hn. simpl. lia.
Qed.


End LidarRows.

(** ** All the columns of a lidar memory *)

Section AppendBounds.

Import MemoryTMNFLidar.

Context {Obj : Type}.
Implicit Types (c : config) (data : store Obj).

(** The seven columns in front of a store in its normal shape have one
    length, the row count. *)
Lemma shaped_front data k :
  shaped data k ->
  length (firstn 7 data) = 7%nat
  /\ (forall col, In col (firstn 7 data) -> len col = row_count data).
Proof.
  intros (idx & acts & speeds & imgs & dones & rews & infos
          & ([extra ->] & La & Ls & Li & Ld & Lr & Lf) & _).
  split; [reflexivity|].
  cbn [firstn]. unfold row_count. cbn [index_column]. unfold len.
  intros col [<-|[<-|[<-|[<-|[<-|[<-|[<-|[]]]]]]]]; congruence.
Qed.

(** What [append_buffer] does to the columns behind the seventh: nothing
    when the rows go to the columns in front; otherwise, rows being stored
    but the usable length being 0, it puts the seven columns of the buffer
    behind all the stored ones, and trims nothing. *)
Lemma append_buffer_columns c data (buffer : list (sample Obj)) data' :
  0 <= min_samples c -> 0 <= memory_size c -> lidar_inv c data ->
  append_buffer c data buffer = Ok data' ->
  (extends c data = true -> skipn 7 data' = skipn 7 data)
  /\ (extends c data = false -> data' = data ++ columns_of 0 buffer).
Proof.
  intros Hms HM [[->|[k Hk]] _] Hrun.
  - rewrite append_to_empty_store in Hrun. injection Hrun as <-.
    split; [reflexivity|discriminate].
  - pose proof (shaped_usable_length c data k Hk) as HL.
    destruct Hk as (idx & acts & speeds & imgs & dones & rews & infos
                    & ([extra ->] & _) & Hidx).
    cbn [extends index_column] in *.
    destruct (0 <? __len__ c _) eqn:E.
    + apply Z.ltb_lt in E.
      assert (Hpos : (0 < length idx)%nat) by (unfold len in HL; lia).
      assert (Hlast : getitem idx (-1)
                      = Ok (VInt (k + Z.of_nat (length idx) - 1))).
      { rewrite Hidx at 1. now apply consecutive_last. }
      rewrite (append_buffer_on_rows c _ _ _ _ _ _ _ _ _ buffer E Hlast) in Hrun.
      injection Hrun as <-. split; [reflexivity|discriminate].
    + apply Z.ltb_ge in E.
      assert (H0 : __len__ c (idx :: acts :: speeds :: imgs :: dones :: rews
                               :: infos :: extra) = 0) by lia.
      rewrite (append_buffer_blocked c _ _ _ _ _ _ _ _ buffer HM H0) in Hrun.
      injection Hrun as <-. split; [discriminate|reflexivity].
Qed.

(** C1 (amended): after every append of a sequence of appends that starts
    from the empty memory, the seven field-sequences in front, the ones
    [__len__] and [get_transition] read, all have the length [row_count];
    the usable length [__len__] is at most [memory_size] and equals
    [max(0, row_count - min_samples - 1)], so the row count is at most
    [memory_size + min_samples + 1]; when the rows are added to the stored
    columns the number of oldest rows trimmed is
    [max(0, usable length after adding - memory_size)] and no field-sequence
    is added; when rows are stored but the usable length is 0, the seven
    sequences of the buffer are put behind the stored ones and nothing is
    trimmed, so that these further field-sequences have any length;
    appending 150 samples to the empty memory with [memory_size = 100],
    [imgs_obs = 4], [act_buf_len = 1] trims 45 rows. *)
Theorem append_buffer_bounds c data (buffer : list (sample Obj)) :
  0 <= imgs_obs c -> 0 <= act_buf_len c -> 0 <= memory_size c ->
  reachable c data ->
  exists data',
    append_buffer c data buffer = Ok data'
    /\ __len__ c data' <= memory_size c
    /\ __len__ c data' = Z.max 0 (row_count data' - min_samples c - 1)
    /\ row_count data' <= memory_size c + min_samples c + 1
    /\ length (firstn 7 data') = 7%nat
    /\ (forall col, In col (firstn 7 data') -> len col = row_count data')
    /\ (extends c data = true ->
        let grown := row_count data + len buffer in
        let trimmed :=
          Z.max 0 (Z.max 0 (grown - min_samples c - 1) - memory_size c) in
        row_count data' = grown - trimmed
        /\ skipn 7 data' = skipn 7 data)
    /\ (extends c data = false -> data' = data ++ columns_of 0 buffer)
    /\ (data = [] -> memory_size c = 100 -> imgs_obs c = 4 ->
        act_buf_len c = 1 -> len buffer = 150 ->
        row_count data' = 150 - 45).
Proof.
  intros Hio Habl HM Hr.
  assert (Hms : 0 <= min_samples c) by (unfold min_samples; lia).
  pose proof (reachable_inv c data Hms Hr) as Hinv.
  destruct (append_buffer_spec c data buffer Hms Hinv)
    as (data' & k & Hrun & [_ Hb'] & [k' Hsh'] & Hidx & Hk0 & Hidx').
  cbv zeta in Hidx'.
  pose proof (shaped_usable_length c data' k' Hsh') as HL'.
  change (len (index_column data')) with (row_count data') in HL'.
  assert (Hrows : row_count data' = len (index_column data')) by reflexivity.
  destruct (shaped_front data' k' Hsh') as [Hseven Hfront].
  destruct (append_buffer_columns c data buffer data' Hms HM Hinv Hrun)
    as [Hsame Hmore].
  exists data'. split; [exact Hrun|].
  split; [lia|]. split; [exact HL'|]. split; [lia|].
  split; [exact Hseven|]. split; [exact Hfront|].
  assert (Hext : extends c data = true ->
                 row_count data' =
                 row_count data + len buffer
                 - Z.max 0 (Z.max 0 (row_count data + len buffer
                                     - min_samples c - 1) - memory_size c)).
  { intros E. rewrite E in Hidx'. rewrite Hrows, Hidx'.
    change (row_count data) with (len (index_column data)).
    unfold len. rewrite length_skipn, !consecutive_length. lia. }
  split; [intros E; split; [exact (Hext E)|exact (Hsame E)]|].
  split; [exact Hmore|].
  intros -> E1 E2 E3 E4. rewrite (Hext eq_refl).
  change (row_count []) with 0. unfold min_samples. lia.
Qed.

End AppendBounds.

Section WindowFacts.

Context {A : Type}.
Implicit Types l : list A.

Lemma skipn_succ l s : skipn (S s) l = tl (skipn s l).
Proof.
  revert l. induction s as [|s IH]; intros [|x l]; try reflexivity.
  change (skipn (S (S s)) (x :: l)) with (skipn (S s) l).
  change (skipn (S s) (x :: l)) with (skipn s l). apply IH.
Qed.

Lemma window_tl l s n : tl (window l s (S n)) = window l (S s) n.
Proof.
  unfold window. rewrite skipn_succ.
  destruct (skipn s l) as [|x r]; [simpl; now rewrite firstn_nil|reflexivity].
Qed.

Lemma window_removelast l s n :
  (s + S n <= length l)%nat -> removelast (window l s (S n)) = window l s n.
Proof.
  intros H. unfold window. apply removelast_firstn.
  rewrite length_skipn. lia.
Qed.

Lemma window_skipn l t s n : window (skipn t l) s n = window l (t + s) n.
Proof. unfold window. rewrite skipn_skipn. do 2 f_equal. lia. Qed.

Lemma window_map {B : Type} (f : A -> B) l s n :
  window (map f l) s n = map f (window l s n).
Proof. unfold window. now rewrite skipn_map, firstn_map. Qed.

End WindowFacts.

Section LidarRoundTrip.

Import MemoryTMNFLidar.

Context {Obj : Type} (np_float32 : value Obj -> value Obj).

(** [get_transition] after one [append_buffer] on the memory without
    columns, in terms of the buffer. *)
Lemma get_transition_after_append c (buffer : list (sample Obj)) data' item :
  0 <= imgs_obs c -> 0 <= act_buf_len c -> 1 <= min_samples c ->
  append_buffer c [] buffer = Ok data' ->
  0 <= item < __len__ c data' ->
  let start := (dropped c (len buffer) + Z.to_nat item)%nat in
  let now := (start + Z.to_nat (min_samples c))%nat in
  exists b_last b_now,
    nth_error buffer (now - 1) = Some b_last
    /\ nth_error buffer now = Some b_now
    /\ get_transition np_float32 c data' item =
       Ok (Transition
             (Observation (fst (s_obs b_last))
                (map (fun b => snd (s_obs b))
                   (window buffer (now - Z.to_nat (imgs_obs c))
                      (Z.to_nat (imgs_obs c))))
                (map s_act
                   (window buffer (now - Z.to_nat (act_buf_len c))
                      (Z.to_nat (act_buf_len c)))))
             (s_act b_now) (np_float32 (s_rew b_now))
             (Observation (fst (s_obs b_now))
                (map (fun b => snd (s_obs b))
                   (window buffer (now + 1 - Z.to_nat (imgs_obs c))
                      (Z.to_nat (imgs_obs c))))
                (map s_act
                   (window buffer (now + 1 - Z.to_nat (act_buf_len c))
                      (Z.to_nat (act_buf_len c)))))
             (s_done b_now) (s_info b_now)).
Proof.
  intros Hio Habl Hms Happ Hitem start now.
  rewrite append_to_empty_store in Happ. injection Happ as <-.
  set (t := dropped c (len buffer)) in *.
  cbn [map columns_of] in *.
  set (data' := _ :: _) in *.
  assert (Hal : aligned data' (skipn t (consecutive 0 (length buffer)))
                  (skipn t (map s_act buffer))
                  (skipn t (map (fun b => fst (s_obs b)) buffer))
                  (skipn t (map (fun b => snd (s_obs b)) buffer))
                  (skipn t (map s_done buffer))
                  (skipn t (map s_rew buffer))
                  (skipn t (map s_info buffer))).
  { split; [exists []; reflexivity|].
    rewrite !length_skipn, !length_map, consecutive_length.
    repeat split; reflexivity. }
  pose proof (usable_length_rows c _ _ _ _ _ _ _ _ Hal) as Hlen.
  destruct (offsets_meet c Hio Habl) as (_ & Hi & Ha & Hsi & Hsa).
  assert (Hrows : len (skipn t (@consecutive Obj 0 (length buffer)))
                  = Z.of_nat (length buffer - t))
    by (unfold len; now rewrite length_skipn, consecutive_length).
  assert (Hnow : item + min_samples c < len (skipn t (@consecutive Obj 0 (length buffer))))
    by lia.
  destruct (get_transition_in_store np_float32 c _ _ _ _ _ _ _ _ item Hio Habl Hal
              (proj1 Hitem) Hnow)
    as (sl & sn & a & r & d & f & Gsl & Hsn & Hna & Hr & Hd & Hf & Hget).
  cbv zeta in Hget.
  apply getitem_nonneg_inv in Gsl; [|lia].
  rewrite nth_error_skipn, nth_error_map in Gsl, Hsn, Hna, Hr, Hd, Hf.
  replace (t + Z.to_nat (item + min_samples c - 1))%nat with (now - 1)%nat
    in Gsl by (unfold now, start; lia).
  replace (t + Z.to_nat (item + min_samples c))%nat with now
    in Hsn, Hna, Hr, Hd, Hf by (unfold now, start; lia).
  destruct (nth_error buffer (now - 1)) as [b_last|] eqn:El; [|discriminate].
  destruct (nth_error buffer now) as [b_now|] eqn:En; [|discriminate].
  cbn [option_map] in *.
  injection Gsl as <-. injection Hsn as <-. injection Hna as <-.
  injection Hr as <-. injection Hd as <-. injection Hf as <-.
  exists b_last, b_now. split; [reflexivity|]. split; [reflexivity|].
  rewrite Hget.
  replace (Z.to_nat (act_buf_len c + 1)) with (S (Z.to_nat (act_buf_len c))) by lia.
  replace (Z.to_nat (imgs_obs c + 1)) with (S (Z.to_nat (imgs_obs c))) by lia.
  rewrite !window_tl.
  rewrite !window_removelast
    by (rewrite length_skipn, length_map; unfold len in *;
        rewrite length_skipn, consecutive_length in Hnow; lia).
  rewrite !window_skipn, !window_map.
  replace (t + Z.to_nat (item + start_imgs_offset c))%nat
    with (now - Z.to_nat (imgs_obs c))%nat by (unfold now, start; lia).
  replace (t + Z.to_nat (item + start_acts_offset c))%nat
    with (now - Z.to_nat (act_buf_len c))%nat by (unfold now, start; lia).
  replace (t + S (Z.to_nat (item + start_imgs_offset c)))%nat
    with (now + 1 - Z.to_nat (imgs_obs c))%nat by (unfold now, start; lia).
  replace (t + S (Z.to_nat (item + start_acts_offset c)))%nat
    with (now + 1 - Z.to_nat (act_buf_len c))%nat by (unfold now, start; lia).
  reflexivity.
Qed.

(** X4: What is appended is what is read: after a buffer was appended to the
    memory without columns, [get_transition(item)] is made of the
    buffer's own samples.  With [t] the number of rows that were dropped,
    the new observation is the sample at [t + item + min_samples], its
    image and action stacks are the [imgs_obs] frames and [act_buf_len]
    actions that end at this sample, and the last observation is the same
    one sample earlier. *)
Theorem appended_samples_are_read c (buffer : list (sample Obj)) data' item :
  0 <= imgs_obs c -> 0 <= act_buf_len c -> 1 <= min_samples c ->
  append_buffer c [] buffer = Ok data' ->
  0 <= item < __len__ c data' ->
  let start := (dropped c (len buffer) + Z.to_nat item)%nat in
  let now := (start + Z.to_nat (min_samples c))%nat in
  exists b_last b_now,
    nth_error buffer (now - 1) = Some b_last
    /\ nth_error buffer now = Some b_now
    /\ get_transition np_float32 c data' item =
       Ok (Transition
             (Observation (fst (s_obs b_last))
                (map (fun b => snd (s_obs b))
                   (window buffer (now - Z.to_nat (imgs_obs c))
                      (Z.to_nat (imgs_obs c))))
                (map s_act
                   (window buffer (now - Z.to_nat (act_buf_len c))
                      (Z.to_nat (act_buf_len c)))))
             (s_act b_now) (np_float32 (s_rew b_now))
             (Observation (fst (s_obs b_now))
                (map (fun b => snd (s_obs b))
                   (window buffer (now + 1 - Z.to_nat (imgs_obs c))
                      (Z.to_nat (imgs_obs c))))
                (map s_act
                   (window buffer (now + 1 - Z.to_nat (act_buf_len c))
                      (Z.to_nat (act_buf_len c)))))
             (s_done b_now) (s_info b_now)).
Proof. exact (get_transition_after_append c buffer data' item). Qed.

End LidarRoundTrip.
Section ComprehensionFacts.

Context {A B : Type}.

Lemma comprehension_map (f : A -> result B) (g : A -> B) (l : list A) :
  (forall x, In x l -> f x = Ok (g x)) ->
  comprehension f l = Ok (map g l).
Proof.
  induction l as [|x l IH]; intros H; [reflexivity|].
  cbn [comprehension map]. rewrite (H x (or_introl eq_refl)). cbn [bind].
  rewrite IH by (intros y Hy; apply H; now right). reflexivity.
Qed.

Lemma comprehension_raises (f : A -> result B) (g : A -> B) (l1 l2 : list A) x e :
  (forall y, In y l1 -> f y = Ok (g y)) -> f x = Raise e ->
  comprehension f (l1 ++ x :: l2) = Raise e.
Proof.
  intros H Hx. induction l1 as [|y l1 IH]; cbn [app comprehension].
  - now rewrite Hx.
  - rewrite (H y (or_introl eq_refl)). cbn [bind].
    rewrite IH by (intros z Hz; apply H; now right). reflexivity.
Qed.

End ComprehensionFacts.

Section MoreWindowFacts.

Context {A : Type}.
Implicit Types l : list A.

Lemma window_window l s n a m :
  (a + m <= n)%nat -> window (window l s n) a m = window l (s + a) m.
Proof.
  intros H. unfold window.
  rewrite skipn_firstn_comm, firstn_firstn, skipn_skipn.
  rewrite Nat.min_l by lia. do 2 f_equal. lia.
Qed.

Lemma getitem_default l i (d : A) :
  0 <= i < len l -> getitem l i = Ok (nth (Z.to_nat i) l d).
Proof.
  intros H. destruct (getitem_inside l i H) as (x & Hx & ->).
  f_equal. symmetry. now apply nth_error_nth.
Qed.

Lemma range_seq (n : Z) : range n = map Z.of_nat (seq 0 (Z.to_nat n)).
Proof. reflexivity. Qed.

End MoreWindowFacts.

Section TrajectoryWindows.

Import TrajMemoryTMNFLidar.

Context {Obj : Type} (np_float32 : value Obj -> value Obj).
Implicit Types (c : config) (data : store Obj).

Lemma traj_offsets_meet c :
  0 <= imgs_obs c -> 0 <= act_buf_len c -> 1 <= traj_len c ->
  0 <= min_samples c
  /\ start_imgs_offset c + imgs_obs c = min_samples c
  /\ start_acts_offset c + act_buf_len c = min_samples c
  /\ 0 <= start_imgs_offset c /\ 0 <= start_acts_offset c.
Proof.
  unfold start_imgs_offset, start_acts_offset, min_samples. lia.
Qed.

(** What [get_trajectory] returns whenever the last row it needs
    exists, for a non-negative [item]. *)
Lemma get_trajectory_in_store c data idx acts speeds imgs dones rews infos item :
  0 <= imgs_obs c -> 0 <= act_buf_len c -> 1 <= traj_len c ->
  aligned data idx acts speeds imgs dones rews infos ->
  0 <= item -> item + min_samples c + traj_len c - 1 < len idx ->
  get_trajectory np_float32 c data item
  = Ok (trajectory_windows np_float32 c acts speeds imgs dones rews infos item).
Proof.
  intros Hio Habl HT Hal Hitem Hlast.
  destruct (traj_offsets_meet c Hio Habl HT) as (Hms & Hi & Ha & Hsi & Hsa).
  destruct Hal as ([extra ->] & La & Ls & Li & Ld & Lr & Lf).
  assert (Hl : forall l : list (value Obj),
             length l = length idx -> len l = len idx)
    by (intros l E; unfold len; now rewrite E).
  unfold get_trajectory, load_acts_traj, load_imgs_traj, column.
  simpl nth_error. cbn [bind].
  rewrite (slice_window acts) by (rewrite ?(Hl _ La); lia).
  rewrite (slice_window imgs) by (rewrite ?(Hl _ Li); lia).
  replace (item + start_acts_offset c + act_buf_len c + traj_len c
           - (item + start_acts_offset c))
    with (act_buf_len c + traj_len c) by lia.
  replace (item + start_imgs_offset c + imgs_obs c + traj_len c
           - (item + start_imgs_offset c))
    with (imgs_obs c + traj_len c) by lia.
  set (wa := window acts _ _). set (wi := window imgs _ _).
  assert (Lwa : length wa = Z.to_nat (act_buf_len c + traj_len c))
    by (apply window_length; pose proof (Hl _ La); unfold len in *; lia).
  assert (Lwi : length wi = Z.to_nat (imgs_obs c + traj_len c))
    by (apply window_length; pose proof (Hl _ Li); unfold len in *; lia).
  assert (Hstack : np_stack wi = Ok wi)
    by (destruct wi; [simpl in Lwi; lia|reflexivity]).
  rewrite Hstack. cbn [bind].
  assert (Hin : forall i, In i (range (traj_len c)) ->
                  0 <= i < traj_len c /\ i = Z.of_nat (Z.to_nat i)).
  { intros i Hi'. unfold range in Hi'. apply in_map_iff in Hi'.
    destruct Hi' as (k & <- & Hk). apply in_seq in Hk. lia. }
  rewrite (comprehension_map _
             (fun i => np_float32 (row_cell rews (Z.to_nat (item + min_samples c + i))))).
  2:{ intros i Hi'. destruct (Hin i Hi') as [Hr _].
      rewrite (getitem_default rews _ (VInt 0)) by (rewrite (Hl _ Lr); lia).
      reflexivity. }
  cbn [bind].
  rewrite (comprehension_map _
             (fun i => Observation
                         (row_cell speeds (Z.to_nat (item + min_samples c + i)))
                         (window imgs (Z.to_nat (item + start_imgs_offset c)
                                       + Z.to_nat (1 + i))
                            (Z.to_nat (imgs_obs c)))
                         (window acts (Z.to_nat (item + start_acts_offset c)
                                       + Z.to_nat (1 + i))
                            (Z.to_nat (act_buf_len c))))).
  2:{ intros i Hi'. destruct (Hin i Hi') as [Hr _].
      rewrite (getitem_default speeds _ (VInt 0)) by (rewrite (Hl _ Ls); lia).
      cbn [bind].
      rewrite (slice_window wi) by (unfold len; rewrite ?Lwi; lia).
      rewrite (slice_window wa) by (unfold len; rewrite ?Lwa; lia).
      replace (imgs_obs c + i + 1 - (1 + i)) with (imgs_obs c) by lia.
      replace (act_buf_len c + i + 1 - (1 + i)) with (act_buf_len c) by lia.
      unfold wi, wa. rewrite !window_window by lia. reflexivity. }
  cbn [bind].
  rewrite (comprehension_map _
             (fun i => row_cell dones (Z.to_nat (item + min_samples c + i)))).
  2:{ intros i Hi'. destruct (Hin i Hi') as [Hr _]. cbn [bind].
      now rewrite (getitem_default dones _ (VInt 0)) by (rewrite (Hl _ Ld); lia). }
  cbn [bind].
  rewrite (comprehension_map _
             (fun i => row_cell infos (Z.to_nat (item + min_samples c + i)))).
  2:{ intros i Hi'. destruct (Hin i Hi') as [Hr _]. cbn [bind].
      now rewrite (getitem_default infos _ (VInt 0)) by (rewrite (Hl _ Lf); lia). }
  cbn [bind]. unfold trajectory_windows. rewrite range_seq, !map_map.
  f_equal. f_equal.
  - apply map_ext_in. intros k Hk. apply in_seq in Hk.
    replace (Z.to_nat (item + min_samples c + Z.of_nat k))
      with (Z.to_nat (item + min_samples c) + k)%nat by lia.
    replace (Z.to_nat (item + start_imgs_offset c) + Z.to_nat (1 + Z.of_nat k))%nat
      with (Z.to_nat (item + min_samples c) + k + 1 - Z.to_nat (imgs_obs c))%nat
      by lia.
    replace (Z.to_nat (item + start_acts_offset c) + Z.to_nat (1 + Z.of_nat k))%nat
      with (Z.to_nat (item + min_samples c) + k + 1 - Z.to_nat (act_buf_len c))%nat
      by lia.
    reflexivity.
  - apply map_ext_in. intros k Hk.
    now replace (Z.to_nat (item + min_samples c + Z.of_nat k))
      with (Z.to_nat (item + min_samples c) + k)%nat by lia.
  - apply map_ext_in. intros k Hk.
    now replace (Z.to_nat (item + min_samples c + Z.of_nat k))
      with (Z.to_nat (item + min_samples c) + k)%nat by lia.
  - apply map_ext_in. intros k Hk.
    now replace (Z.to_nat (item + min_samples c + Z.of_nat k))
      with (Z.to_nat (item + min_samples c) + k)%nat by lia.
Qed.

(** X5: [get_trajectory(item)] on an aligned store, for a non-negative [item]
    whose last step [item + min_samples + traj_len - 1] is a stored row:
    it returns the [traj_len] steps that start at row
    [item + min_samples], each with the frames and actions that end at
    its own row. *)
Theorem get_trajectory_windows c data idx acts speeds imgs dones rews infos item :
  0 <= imgs_obs c -> 0 <= act_buf_len c -> 1 <= traj_len c ->
  aligned data idx acts speeds imgs dones rews infos ->
  0 <= item -> item + min_samples c + traj_len c - 1 < len idx ->
  get_trajectory np_float32 c data item
  = Ok (trajectory_windows np_float32 c acts speeds imgs dones rews infos item).
Proof. exact (get_trajectory_in_store c data idx acts speeds imgs dones rews infos item). Qed.


Lemma traj_usable_length c data idx acts speeds imgs dones rews infos :
  aligned data idx acts speeds imgs dones rews infos ->
  __len__ c data = Z.max 0 (len idx - min_samples c - 1).
Proof.
  intros [[extra ->] _]. unfold __len__.
  destruct (len idx - min_samples c - 1 <? 0) eqn:E;
    [apply Z.ltb_lt in E | apply Z.ltb_ge in E]; lia.
Qed.

(** X6: With [traj_len] 1 or 2 every item below the usable length yields its
    trajectory. *)
Theorem short_trajectories_fit c data idx acts speeds imgs dones rews infos item :
  0 <= imgs_obs c -> 0 <= act_buf_len c -> 1 <= traj_len c <= 2 ->
  aligned data idx acts speeds imgs dones rews infos ->
  0 <= item < __len__ c data ->
  get_trajectory np_float32 c data item
  = Ok (trajectory_windows np_float32 c acts speeds imgs dones rews infos item).
Proof.
  intros Hio Habl HT Hal Hitem.
  pose proof (traj_usable_length c _ _ _ _ _ _ _ _ Hal) as Hlen.
  apply (get_trajectory_in_store c data idx); try assumption; lia.
Qed.

(** X7: [min_samples] already holds [traj_len - 1] rows and the steps are
    counted from [item + min_samples] again: an item below the usable
    length whose last step [item + min_samples + traj_len - 1] is past the
    stored rows makes [get_trajectory] raise [IndexError]. *)
Theorem long_trajectories_overrun c data idx acts speeds imgs dones rews infos item :
  0 <= imgs_obs c -> 0 <= act_buf_len c -> 1 <= traj_len c ->
  aligned data idx acts speeds imgs dones rews infos ->
  0 <= item < __len__ c data ->
  len idx <= item + min_samples c + traj_len c - 1 ->
  get_trajectory np_float32 c data item = Raise IndexError.
Proof.
  intros Hio Habl HT Hal Hitem Hover.
  pose proof (traj_usable_length c _ _ _ _ _ _ _ _ Hal) as Hlen.
  destruct (traj_offsets_meet c Hio Habl HT) as (Hms & Hi & Ha & Hsi & Hsa).
  destruct Hal as ([extra ->] & La & Ls & Li & Ld & Lr & Lf).
  assert (Hl : forall l : list (value Obj),
             length l = length idx -> len l = len idx)
    by (intros l E; unfold len; now rewrite E).
  unfold get_trajectory, load_acts_traj, load_imgs_traj, column.
  simpl nth_error. cbn [bind].
  destruct (slice imgs _ _) as [|i0 wi] eqn:Ew.
  { exfalso. apply (f_equal (@length _)) in Ew. revert Ew.
    unfold slice, clamp. rewrite length_firstn, length_skipn.
    destruct (item + start_imgs_offset c <? 0) eqn:E1;
      [apply Z.ltb_lt in E1; lia|].
    destruct (item + start_imgs_offset c + imgs_obs c + traj_len c <? 0) eqn:E2;
      [apply Z.ltb_lt in E2; lia|].
    pose proof (Hl _ Li). simpl. unfold len in *. lia. }
  cbn [np_stack bind].
  set (k := Z.to_nat (len idx - (item + min_samples c))).
  assert (Hk : (k < Z.to_nat (traj_len c))%nat) by (unfold k; lia).
  assert (Hsplit : range (traj_len c)
                   = map Z.of_nat (seq 0 k) ++ Z.of_nat k
                     :: map Z.of_nat (seq (S k) (Z.to_nat (traj_len c) - S k))).
  { unfold range.
    replace (Z.to_nat (traj_len c)) with (k + S (Z.to_nat (traj_len c) - S k))%nat
      at 1 by lia.
    rewrite seq_app, map_app. reflexivity. }
  rewrite Hsplit.
  rewrite (comprehension_raises _
             (fun i => np_float32 (row_cell rews (Z.to_nat (item + min_samples c + i))))
             _ _ _ IndexError); [reflexivity| |].
  - intros i Hi'. apply in_map_iff in Hi'. destruct Hi' as (j & <- & Hj).
    apply in_seq in Hj.
    rewrite (getitem_default rews _ (VInt 0))
      by (rewrite (Hl _ Lr); unfold k in Hj; lia).
    reflexivity.
  - rewrite (getitem_beyond rews) by (rewrite (Hl _ Lr); unfold k; lia).
    reflexivity.
Qed.

End TrajectoryWindows.
Section TrajectoryAppend.

Context {Obj : Type}.

Lemma lidar_view_min_samples c :
  MemoryTMNF.min_samples (lidar_view c) = TrajMemoryTMNFLidar.min_samples c.
Proof.
  unfold MemoryTMNF.min_samples, TrajMemoryTMNFLidar.min_samples, lidar_view.
  cbn [MemoryTMNF.imgs_obs MemoryTMNF.act_buf_len]. lia.
Qed.

Lemma lidar_view_len c (data : store Obj) :
  MemoryTMNF.__len__ (lidar_view c) data = TrajMemoryTMNFLidar.__len__ c data.
Proof.
  unfold MemoryTMNF.__len__, TrajMemoryTMNFLidar.__len__.
  now rewrite lidar_view_min_samples.
Qed.

(** [append_buffer] of the trajectory memory, through [lidar_view]. *)
Lemma traj_append_lidar_view c (data : store Obj) buffer :
  TrajMemoryTMNFLidar.append_buffer c data buffer
  = MemoryTMNFLidar.append_buffer (lidar_view c) data buffer.
Proof.
  unfold TrajMemoryTMNFLidar.append_buffer, MemoryTMNFLidar.append_buffer.
  rewrite lidar_view_len.
  destruct (if 0 <? TrajMemoryTMNFLidar.__len__ c data then _ else Ok 0)
    as [first|e]; [|reflexivity].
  cbn [bind].
  destruct (if 0 <? TrajMemoryTMNFLidar.__len__ c data then _ else _)
    as [grown|e]; [|reflexivity].
  cbn [bind]. now rewrite lidar_view_len.
Qed.

(** X8: The trajectory memory stores and evicts as the lidar memory whose
    two histories are longer by [traj_len - 1]. *)
Theorem traj_append_is_lidar_append c (data : store Obj) buffer :
  TrajMemoryTMNFLidar.append_buffer c data buffer
  = MemoryTMNFLidar.append_buffer (lidar_view c) data buffer.
Proof. exact (traj_append_lidar_view c data buffer). Qed.


Lemma traj_reachable_lidar c (data : store Obj) :
  traj_reachable c data -> reachable (lidar_view c) data.
Proof.
  induction 1 as [|data data' buffer _ IH Happ]; [constructor|].
  rewrite traj_append_lidar_view in Happ.
  exact (reach_append _ _ _ _ IH Happ).
Qed.

(** X9: Every append of a sequence of appends on a trajectory memory
    succeeds; after it the usable length is at most [memory_size], the
    index column is a run of consecutive integers, and the seven columns
    in front all have the same number of rows, at most
    [memory_size + min_samples + 1].  Columns behind the seventh are left
    as they are when the rows go to the columns in front; when rows are
    stored but the usable length is 0, the seven columns of the buffer are
    put behind the stored ones and nothing is trimmed. *)
Theorem traj_append_buffer_bounds c (data : store Obj) buffer :
  0 <= TrajMemoryTMNFLidar.imgs_obs c ->
  0 <= TrajMemoryTMNFLidar.act_buf_len c ->
  1 <= TrajMemoryTMNFLidar.traj_len c ->
  0 <= TrajMemoryTMNFLidar.memory_size c ->
  traj_reachable c data ->
  exists data' k,
    TrajMemoryTMNFLidar.append_buffer c data buffer = Ok data'
    /\ TrajMemoryTMNFLidar.__len__ c data' <= TrajMemoryTMNFLidar.memory_size c
    /\ index_column data' = consecutive k (length (index_column data'))
    /\ row_count data'
       <= TrajMemoryTMNFLidar.memory_size c
          + TrajMemoryTMNFLidar.min_samples c + 1
    /\ length (firstn 7 data') = 7%nat
    /\ (forall col, In col (firstn 7 data') -> len col = row_count data')
    /\ (data = [] \/ 0 < TrajMemoryTMNFLidar.__len__ c data ->
        skipn 7 data' = skipn 7 data)
    /\ (data <> [] -> TrajMemoryTMNFLidar.__len__ c data = 0 ->
        data' = data ++ columns_of 0 buffer).
Proof.
  intros Hio Habl HT HM Hr.
  assert (Hms : 0 <= MemoryTMNF.min_samples (lidar_view c))
    by (rewrite lidar_view_min_samples;
        unfold TrajMemoryTMNFLidar.min_samples; lia).
  pose proof (reachable_inv _ _ Hms (traj_reachable_lidar _ _ Hr)) as Hinv.
  destruct (append_buffer_spec (lidar_view c) data buffer Hms Hinv)
    as (data' & k0 & Hrun & [_ Hb] & [k Hsh] & _).
  pose proof (shaped_usable_length (lidar_view c) data' k Hsh) as HL.
  destruct (shaped_front data' k Hsh) as [Hseven Hfront].
  destruct (append_buffer_columns (lidar_view c) data buffer data' Hms HM Hinv Hrun)
    as [Hsame Hmore].
  rewrite lidar_view_len in Hb, HL. rewrite lidar_view_min_samples in HL.
  cbn [lidar_view MemoryTMNF.memory_size] in Hb.
  exists data', k. rewrite traj_append_lidar_view.
  split; [exact Hrun|]. split; [lia|]. split.
  { destruct Hsh as (idx & acts & speeds & imgs & dones & rews & infos
                     & ([extra ->] & _) & E). exact E. }
  split; [unfold row_count; lia|].
  split; [exact Hseven|]. split; [exact Hfront|].
  split.
  - intros H. apply Hsame. destruct data as [|d0 rest]; [reflexivity|].
    destruct H as [H|H]; [discriminate|].
    cbn [extends]. rewrite lidar_view_len. now apply Z.ltb_lt.
  - intros Hne H0. apply Hmore. destruct data as [|d0 rest]; [congruence|].
    cbn [extends]. rewrite lidar_view_len, H0. reflexivity.
Qed.

End TrajectoryAppend.
Section EpochFacts.

Import TrainingOffline.

Variables Memory Sample : Type.
Variable memory_append : Memory -> list Sample -> result Memory.
Variable batches : nat.
Variable c : config.

Implicit Types (t : trainer Memory) (w : @world Memory Sample).

Lemma consumed_refl w : consumed w w 0.
Proof. exists []. simpl. repeat split; lia. Qed.

Lemma consumed_trans w1 w2 w3 u1 u2 :
  consumed w1 w2 u1 -> consumed w2 w3 u2 -> consumed w1 w3 (u1 + u2).
Proof.
  intros (t1 & H1 & S1 & U1 & E1) (t2 & H2 & S2 & U2 & E2).
  exists (t1 ++ t2). rewrite <- app_assoc, <- H2.
  split; [exact H1|].
  assert (Hs : samples_in (t1 ++ t2) = samples_in t1 + samples_in t2).
  { clear. induction t1 as [|b t1 IH]; simpl; [reflexivity|]. rewrite IH. lia. }
  rewrite Hs. repeat split; lia || congruence.
Qed.

Lemma wait_for_samples_consumed bufs t l w' :
  wait_for_samples memory_append c bufs t l = (Done, w') ->
  consumed (World t bufs l) w' 0.
Proof.
  revert t l. induction bufs as [|buffer rest IH]; intros t l; simpl.
  - discriminate.
  - destruct (update_buffer memory_append t buffer) as [t'|e] eqn:E; [|discriminate].
    unfold update_buffer in E.
    destruct (memory_append (memory t) buffer) as [m|e]; [|discriminate].
    cbn [bind] in E. injection E as <-.
    destruct (starved c _) as [[|]|e'].
    + intros H. destruct (IH _ _ H) as (taken & Hi & Hs & Hu & He).
      cbn [incoming self total_samples total_updates epoch] in *.
      exists (buffer :: taken). cbn [incoming self app samples_in fold_right].
      rewrite Hi. fold (samples_in taken). repeat split; lia.
    + intros H. injection H as <-. exists [buffer].
      cbn [incoming self app samples_in fold_right total_samples total_updates epoch].
      repeat split; lia.
    + discriminate.
Qed.

Lemma check_ratio_consumed w w' :
  check_ratio memory_append c w = (Done, w') -> consumed w w' 0.
Proof.
  unfold check_ratio. destruct (starved c (self w)) as [[|]|e'].
  - intros H. destruct (wait_for_samples_consumed _ _ _ _ H) as (taken & Hh).
    exists taken. exact Hh.
  - intros H. injection H as <-. apply consumed_refl.
  - discriminate.
Qed.

Lemma train_step_consumed w w' :
  train_step memory_append c w = (Done, w') -> consumed w w' 1.
Proof.
  unfold train_step. destruct (update_model_interval c =? 0); [discriminate|].
  intros H. destruct (check_ratio_consumed _ _ H) as (taken & Hi & Hs & Hu & He).
  exists taken. cbn [incoming self total_samples total_updates epoch] in *.
  repeat split; try assumption; lia.
Qed.

Lemma train_loop_consumed n w w' :
  train_loop memory_append c n w = (Done, w') -> consumed w w' (Z.of_nat n).
Proof.
  revert w. induction n as [|n IH]; intros w; cbn [train_loop].
  - intros H. injection H as <-. apply consumed_refl.
  - destruct (train_step memory_append c w) as [[| |] w1] eqn:E; try discriminate.
    intros H. replace (Z.of_nat (S n)) with (1 + Z.of_nat n) by lia.
    exact (consumed_trans _ _ _ _ _ (train_step_consumed _ _ E) (IH _ H)).
Qed.

Lemma run_round_consumed w w' :
  run_round memory_append batches c w = (Done, w') ->
  consumed w w' (Z.of_nat batches)
  /\ incoming w <> incoming w'.
Proof.
  unfold run_round.
  destruct (check_ratio memory_append c w) as [[| |] w1] eqn:E; try discriminate.
  pose proof (check_ratio_consumed _ _ E) as H1.
  destruct (incoming w1) as [|buffer rest] eqn:Ei; [discriminate|].
  destruct (update_buffer memory_append (self w1) buffer) as [t|e] eqn:Eu;
    [|discriminate].
  unfold update_buffer in Eu.
  destruct (memory_append (memory (self w1)) buffer) as [m|e]; [|discriminate].
  cbn [bind] in Eu. injection Eu as <-.
  intros H. pose proof (train_loop_consumed _ _ _ H) as H3.
  assert (H2 : consumed w1 (World (Trainer (epoch (self w1)) (total_updates (self w1))
                                     (total_samples (self w1) + len buffer) m)
                              rest (EvRetrieve (len buffer) :: log w1)) 0).
  { exists [buffer]. cbn [incoming self app samples_in fold_right
                          total_samples total_updates epoch].
    rewrite Ei. repeat split; lia. }
  pose proof (consumed_trans _ _ _ _ _ H1 (consumed_trans _ _ _ _ _ H2 H3)) as Hall.
  split; [exact Hall|].
  destruct H1 as (t1 & I1 & _). destruct H3 as (t3 & I3 & _).
  cbn [incoming] in I3. rewrite I1, Ei, I3. intros Heq.
  apply (f_equal (@length _)) in Heq. rewrite !length_app in Heq.
  simpl in Heq. rewrite length_app in Heq. lia.
Qed.

Lemma run_rounds_consumed n w w' :
  run_rounds memory_append batches c n w = (Done, w') ->
  consumed w w' (Z.of_nat n * Z.of_nat batches)
  /\ (n <= length (incoming w) - length (incoming w'))%nat.
Proof.
  revert w. induction n as [|n IH]; intros w; cbn [run_rounds].
  - intros H. injection H as <-. split; [apply consumed_refl|lia].
  - destruct (run_round memory_append batches c w) as [[| |] w1] eqn:E;
      try discriminate.
    intros H. destruct (run_round_consumed _ _ E) as [H1 Hne].
    destruct (IH _ H) as [H2 Hn]. split.
    + replace (Z.of_nat (S n) * Z.of_nat batches)
        with (Z.of_nat batches + Z.of_nat n * Z.of_nat batches) by lia.
      exact (consumed_trans _ _ _ _ _ H1 H2).
    + destruct H1 as (t1 & I1 & _). destruct H2 as (t2 & I2 & _).
      assert (t1 <> []) by (intros ->; apply Hne; exact I1).
      pose proof (f_equal (@length _) I2) as L2. rewrite length_app in L2.
      rewrite I1, length_app. destruct t1; [congruence|]. cbn [length]. lia.
Qed.

(** X10: An epoch that completes makes exactly [rounds * batches] updates,
    adds one to [epoch], retrieves at least one buffer per round, and
    counts in [total_samples] every sample of every buffer it took from
    the interface, in order and without skipping one. *)
Theorem run_epoch_accounts w w' :
  run_epoch memory_append batches c w = (Done, w') ->
  exists taken,
    incoming w = taken ++ incoming w'
    /\ (rounds c <= length taken)%nat
    /\ total_samples (self w') = total_samples (self w) + samples_in taken
    /\ total_updates (self w')
       = total_updates (self w) + Z.of_nat (rounds c) * Z.of_nat batches
    /\ epoch (self w') = epoch (self w) + 1.
Proof.
  unfold run_epoch.
  destruct (run_rounds memory_append batches c (rounds c) w) as [[| |] w1] eqn:E;
    try discriminate.
  intros H. injection H as <-.
  destruct (run_rounds_consumed _ _ _ E) as [(taken & Hi & Hs & Hu & He) Hn].
  exists taken. cbn [incoming self total_samples total_updates epoch].
  split; [exact Hi|]. split.
  - rewrite Hi, length_app in Hn. lia.
  - repeat split; lia.
Qed.


Lemma cadence_push (e : event) l :
  cadence (update_model_interval c) l -> settled (update_model_interval c) l ->
  e <> EvBroadcast -> (forall u s, e <> EvUpdated u s) ->
  cadence (update_model_interval c) (e :: l)
  /\ settled (update_model_interval c) (e :: l).
Proof.
  intros Hc Hs Hb Hu.
  destruct e as [| | |u s|u s|]; cbn; auto.
  - exfalso. exact (Hu u s eq_refl).
  - congruence.
Qed.

Lemma wait_for_samples_cadence bufs t l st w' :
  wait_for_samples memory_append c bufs t l = (st, w') ->
  cadence (update_model_interval c) l -> settled (update_model_interval c) l ->
  cadence (update_model_interval c) (log w')
  /\ settled (update_model_interval c) (log w').
Proof.
  revert t l. induction bufs as [|buffer rest IH]; intros t l; simpl.
  - intros H. injection H as _ <-. auto.
  - intros H Hc Hs.
    destruct (cadence_push (EvRetrieve (len buffer)) l Hc Hs) as [Hc1 Hs1];
      [discriminate|discriminate|].
    destruct (update_buffer memory_append t buffer) as [t'|e].
    + destruct (starved c t') as [[|]|e'].
      * destruct (cadence_push EvSleep _ Hc1 Hs1) as [Hc2 Hs2];
          [discriminate|discriminate|].
        exact (IH _ _ H Hc2 Hs2).
      * injection H as _ <-. auto.
      * injection H as _ <-. auto.
    + injection H as _ <-. auto.
Qed.

Lemma check_ratio_cadence w st w' :
  check_ratio memory_append c w = (st, w') ->
  cadence (update_model_interval c) (log w) ->
  settled (update_model_interval c) (log w) ->
  cadence (update_model_interval c) (log w')
  /\ settled (update_model_interval c) (log w').
Proof.
  unfold check_ratio. destruct (starved c (self w)) as [[|]|e'].
  - intros H Hc Hs.
    destruct (cadence_push EvWaiting _ Hc Hs) as [Hc1 Hs1];
      [discriminate|discriminate|].
    exact (wait_for_samples_cadence _ _ _ _ _ H Hc1 Hs1).
  - intros H. injection H as _ <-. auto.
  - intros H. injection H as _ <-. auto.
Qed.

Lemma train_step_cadence w st w' :
  update_model_interval c <> 0 ->
  train_step memory_append c w = (st, w') ->
  cadence (update_model_interval c) (log w) ->
  settled (update_model_interval c) (log w) ->
  cadence (update_model_interval c) (log w')
  /\ settled (update_model_interval c) (log w').
Proof.
  intros Hk. unfold train_step.
  cbn [total_updates total_samples epoch memory].
  replace (update_model_interval c =? 0) with false
    by (symmetry; now apply Z.eqb_neq).
  intros H Hc Hs. apply (check_ratio_cadence _ _ _ H); cbn [log].
  - destruct (_ mod _ =? 0) eqn:E.
    + apply Z.eqb_eq in E. cbn. auto.
    + cbn. auto.
  - destruct (_ mod _ =? 0) eqn:E; [exact I|].
    apply Z.eqb_neq in E. exact E.
Qed.

Lemma train_loop_cadence n w st w' :
  update_model_interval c <> 0 ->
  train_loop memory_append c n w = (st, w') ->
  cadence (update_model_interval c) (log w) ->
  settled (update_model_interval c) (log w) ->
  cadence (update_model_interval c) (log w')
  /\ settled (update_model_interval c) (log w').
Proof.
  intros Hk. revert w. induction n as [|n IH]; intros w; cbn [train_loop].
  - intros H. injection H as _ <-. auto.
  - destruct (train_step memory_append c w) as [st1 w1] eqn:E.
    intros H Hc Hs.
    destruct (train_step_cadence _ _ _ Hk E Hc Hs) as [Hc1 Hs1].
    destruct st1; [exact (IH _ H Hc1 Hs1)| |]; injection H as _ <-; auto.
Qed.

Lemma run_round_cadence w st w' :
  update_model_interval c <> 0 ->
  run_round memory_append batches c w = (st, w') ->
  cadence (update_model_interval c) (log w) ->
  settled (update_model_interval c) (log w) ->
  cadence (update_model_interval c) (log w')
  /\ settled (update_model_interval c) (log w').
Proof.
  intros Hk. unfold run_round.
  destruct (check_ratio memory_append c w) as [st1 w1] eqn:E.
  intros H Hc Hs.
  destruct (check_ratio_cadence _ _ _ E Hc Hs) as [Hc1 Hs1].
  destruct st1; try (injection H as _ <-; auto; fail).
  destruct (incoming w1) as [|buffer rest]; [injection H as _ <-; auto|].
  destruct (cadence_push (EvRetrieve (len buffer)) _ Hc1 Hs1) as [Hc2 Hs2];
    [discriminate|discriminate|].
  destruct (update_buffer memory_append (self w1) buffer) as [t|e].
  - exact (train_loop_cadence _ _ _ _ Hk H Hc2 Hs2).
  - injection H as _ <-. auto.
Qed.

(** X11: The model is broadcast exactly at the multiples of
    [update_model_interval]: an epoch, whatever its outcome, extends a log
    that kept this cadence to a log that keeps it, for an interval other
    than 0.  In such a log every broadcast comes directly after an update
    whose count is a multiple of the interval, and every such update is
    directly followed by a broadcast. *)
Theorem broadcasts_keep_cadence w st w' :
  update_model_interval c <> 0 ->
  cadence (update_model_interval c) (log w) ->
  settled (update_model_interval c) (log w) ->
  run_epoch memory_append batches c w = (st, w') ->
  cadence (update_model_interval c) (log w')
  /\ settled (update_model_interval c) (log w').
Proof.
  intros Hk Hc Hs. unfold run_epoch.
  assert (Hrounds : forall n w0 st0 w0',
             run_rounds memory_append batches c n w0 = (st0, w0') ->
             cadence (update_model_interval c) (log w0) ->
             settled (update_model_interval c) (log w0) ->
             cadence (update_model_interval c) (log w0')
             /\ settled (update_model_interval c) (log w0')).
  { induction n as [|n IH]; intros w0 st0 w0'; cbn [run_rounds].
    - intros H. injection H as _ <-. auto.
    - destruct (run_round memory_append batches c w0) as [st1 w1] eqn:E.
      intros H Hc0 Hs0.
      destruct (run_round_cadence _ _ _ Hk E Hc0 Hs0) as [Hc1 Hs1].
      destruct st1; [exact (IH _ _ _ H Hc1 Hs1)| |]; injection H as _ <-; auto. }
  destruct (run_rounds memory_append batches c (rounds c) w) as [st1 w1] eqn:E.
  destruct (Hrounds _ _ _ _ E Hc Hs) as [Hc1 Hs1].
  destruct st1; intros H; injection H as _ <-; auto.
Qed.

Lemma wait_for_samples_epoch bufs t l st w' :
  wait_for_samples memory_append c bufs t l = (st, w') ->
  epoch (self w') = epoch t.
Proof.
  revert t l. induction bufs as [|buffer rest IH]; intros t l; simpl.
  - intros H. now injection H as _ <-.
  - unfold update_buffer.
    destruct (memory_append (memory t) buffer) as [m|e]; cbn [bind].
    + destruct (starved c _) as [[|]|e'].
      * intros H. now rewrite (IH _ _ H).
      * intros H. now injection H as _ <-.
      * intros H. now injection H as _ <-.
    + intros H. now injection H as _ <-.
Qed.

Lemma check_ratio_epoch w st w' :
  check_ratio memory_append c w = (st, w') ->
  epoch (self w') = epoch (self w).
Proof.
  unfold check_ratio. destruct (starved c (self w)) as [[|]|e'].
  - apply wait_for_samples_epoch.
  - intros H. now injection H as _ <-.
  - intros H. now injection H as _ <-.
Qed.

(** X12: With [update_model_interval = 0] no epoch of at least one round
    and one batch completes: [epoch] stays as it is and at most one
    update is counted. *)
Theorem zero_interval_stops_training w st w' :
  update_model_interval c = 0 -> (0 < batches)%nat -> (0 < rounds c)%nat ->
  run_epoch memory_append batches c w = (st, w') ->
  st <> Done
  /\ epoch (self w') = epoch (self w)
  /\ total_updates (self w) <= total_updates (self w')
     <= total_updates (self w) + 1.
Proof.
  intros Hk Hb Hr. unfold run_epoch.
  destruct (rounds c) as [|n]; [lia|]. cbn [run_rounds].
  assert (Hstep : forall w0, train_step memory_append c w0
                    = (Raised ZeroDivisionError,
                       World (Trainer (epoch (self w0)) (total_updates (self w0) + 1)
                                (total_samples (self w0)) (memory (self w0)))
                         (incoming w0)
                         (EvUpdated (total_updates (self w0) + 1) (total_samples (self w0))
                          :: EvTrain (total_updates (self w0)) (total_samples (self w0))
                          :: log w0))).
  { intros w0. unfold train_step. now rewrite Hk. }
  assert (Hround : forall st0 w0',
             run_round memory_append batches c w = (st0, w0') ->
             st0 <> Done
             /\ epoch (self w0') = epoch (self w)
             /\ total_updates (self w) <= total_updates (self w0')
                <= total_updates (self w) + 1).
  { intros st0 w0'. unfold run_round.
    destruct (check_ratio memory_append c w) as [st1 w1] eqn:E.
    pose proof (check_ratio_updates _ _ memory_append c _ _ _ E) as Eu.
    pose proof (check_ratio_epoch _ _ _ E) as Ee.
    destruct st1; try (intros H; injection H as <- <-;
                       split; [discriminate|split; [exact Ee|lia]]).
    destruct (incoming w1) as [|buffer rest].
    { intros H. injection H as <- <-. split; [discriminate|split; [exact Ee|lia]]. }
    destruct (update_buffer memory_append (self w1) buffer) as [t|e] eqn:Eup.
    - destruct (update_buffer_keeps_bound _ _ memory_append _ _ _ Eup) as [Eu' _].
      assert (Ee' : epoch t = epoch (self w1)).
      { unfold update_buffer in Eup.
        destruct (memory_append (memory (self w1)) buffer); [|discriminate].
        cbn [bind] in Eup. now injection Eup as <-. }
      destruct batches as [|m]; [lia|]. cbn [train_loop]. rewrite Hstep.
      intros H. injection H as <- <-. cbn [self total_updates epoch].
      split; [discriminate|split; [congruence|lia]].
    - intros H. injection H as <- <-. cbn [self].
      split; [discriminate|split; [exact Ee|lia]]. }
  destruct (run_round memory_append batches c w) as [st1 w1] eqn:E.
  destruct (Hround _ _ eq_refl) as (Hnd & He & Hu).
  destruct st1; [congruence| |]; intros H; injection H as <- <-; auto.
Qed.

End EpochFacts.
Section CompressionFacts.

Import MemoryTMNFLidar.

Context {Obj : Type} (np_float32 : value Obj -> value Obj).

Lemma getitem_last_default (l : list (value Obj)) x :
  getitem l (-1) = Ok x -> x = last l (VInt 0).
Proof.
  unfold getitem. change (-1 <? 0) with true. cbv iota.
  destruct ((-1 + len l <? 0) || (len l <=? -1 + len l)); [discriminate|].
  destruct (nth_error l (Z.to_nat (-1 + len l))) as [y|] eqn:E; [|discriminate].
  intros H. injection H as <-.
  destruct l as [|x0 l0]; [destruct (Z.to_nat (-1 + len [])); discriminate|].
  destruct (exists_last (l := x0 :: l0)) as (front & a & El); [discriminate|].
  rewrite El in *. rewrite last_last.
  unfold len in E. rewrite length_app in E. cbn [length] in E.
  rewrite nth_error_app2 in E by lia.
  replace (Z.to_nat (-1 + Z.of_nat (length front + 1)) - length front)%nat
    with 0%nat in E by lia.
  now injection E as <-.
Qed.

Lemma get_local_buffer_sample_compressed s b :
  get_local_buffer_sample np_float32 s = Ok b -> b = compressed np_float32 s.
Proof.
  unfold get_local_buffer_sample.
  destruct (getitem (snd (Compression.obs s)) (-1)) as [x|e] eqn:E; [|discriminate].
  cbn [bind]. intros H. injection H as <-.
  unfold compressed, newest_frame. now rewrite (getitem_last_default _ _ E).
Qed.

Lemma compress_all steps buffer :
  comprehension (get_local_buffer_sample np_float32) steps = Ok buffer ->
  buffer = map (compressed np_float32) steps.
Proof.
  revert buffer. induction steps as [|s steps IH]; intros buffer; cbn [comprehension].
  - intros H. now injection H as <-.
  - destruct (get_local_buffer_sample np_float32 s) as [b|e] eqn:E; [|discriminate].
    cbn [bind].
    destruct (comprehension _ steps) as [bs|e]; [|discriminate].
    cbn [bind]. intros H. injection H as <-.
    now rewrite (get_local_buffer_sample_compressed _ _ E), (IH bs eq_refl).
Qed.

(** X13: [get_local_buffer_sample] fails exactly on a step without frames,
    and otherwise keeps the action, the speed, the done flag and the info
    as they are, the most recent frame, and the reward cast to float32. *)
Theorem get_local_buffer_sample_keeps s :
  (snd (Compression.obs s) = [] ->
   get_local_buffer_sample np_float32 s = Raise IndexError)
  /\ (snd (Compression.obs s) <> [] ->
      get_local_buffer_sample np_float32 s = Ok (compressed np_float32 s)).
Proof.
  split.
  - intros E. unfold get_local_buffer_sample. now rewrite E.
  - intros Hne.
    destruct (get_local_buffer_sample np_float32 s) as [b|e] eqn:E.
    + now rewrite (get_local_buffer_sample_compressed _ _ E).
    + exfalso. revert E. unfold get_local_buffer_sample.
      destruct (snd (Compression.obs s)) as [|x l] eqn:El; [congruence|].
      destruct (getitem_inside (x :: l) (-1 + len (x :: l))) as (y & Hy & _).
      { unfold len. simpl length. lia. }
      unfold getitem. change (-1 <? 0) with true. cbv iota.
      replace ((-1 + len (x :: l) <? 0) || (len (x :: l) <=? -1 + len (x :: l)))
        with false.
      * rewrite Hy. discriminate.
      * symmetry. apply orb_false_iff. unfold len. simpl length.
        split; [apply Z.ltb_ge | apply Z.leb_gt]; lia.
Qed.

(** X14: Keeping only the most recent frame loses nothing: when the histories
    of frames of the steps roll, a buffer of compressed steps appended to
    the memory without columns gives back, in [get_transition(item)], the
    whole history of frames of the step it reads as new observation, and
    that of the step before it as last observation. *)
Theorem frame_histories_are_rebuilt c steps buffer data' item :
  1 <= imgs_obs c -> 0 <= act_buf_len c ->
  rolling (Z.to_nat (imgs_obs c)) steps ->
  comprehension (get_local_buffer_sample np_float32) steps = Ok buffer ->
  append_buffer c [] buffer = Ok data' ->
  0 <= item < __len__ c data' ->
  let now := (dropped c (len buffer) + Z.to_nat item
              + Z.to_nat (min_samples c))%nat in
  exists s_last s_now t,
    nth_error steps (now - 1) = Some s_last
    /\ nth_error steps now = Some s_now
    /\ get_transition np_float32 c data' item = Ok t
    /\ o_imgs (t_last_obs t) = snd (Compression.obs s_last)
    /\ o_imgs (t_new_obs t) = snd (Compression.obs s_now)
    /\ o_speed (t_last_obs t) = fst (Compression.obs s_last)
    /\ o_speed (t_new_obs t) = fst (Compression.obs s_now)
    /\ t_new_act t = Compression.prev_act s_now.
Proof.
  intros Hio Habl Hroll Hcomp Happ Hitem now.
  assert (Hms : 1 <= min_samples c /\ imgs_obs c <= min_samples c)
    by (unfold min_samples; lia).
  destruct (get_transition_after_append np_float32 c buffer data' item
              ltac:(lia) Habl (proj1 Hms) Happ Hitem)
    as (b_last & b_now & Hl & Hn & Hget).
  cbv zeta in Hl, Hn, Hget. fold now in Hl, Hn, Hget.
  rewrite (compress_all _ _ Hcomp) in Hl, Hn, Hget.
  rewrite nth_error_map in Hl, Hn.
  destruct (nth_error steps (now - 1)) as [s_last|] eqn:El; [|discriminate].
  destruct (nth_error steps now) as [s_now|] eqn:En; [|discriminate].
  cbn [option_map] in Hl, Hn. injection Hl as <-. injection Hn as <-.
  exists s_last, s_now. eexists. split; [reflexivity|]. split; [reflexivity|].
  split; [exact Hget|]. cbn [t_last_obs t_new_obs t_new_act o_imgs o_speed].
  rewrite !window_map, !map_map.
  assert (Hfr : forall l : list (Compression.step Obj),
             map (fun x => snd (s_obs (compressed np_float32 x))) l = map newest_frame l)
    by (intros l; apply map_ext; reflexivity).
  rewrite !Hfr.
  split.
  - rewrite (Hroll (now - 1)%nat s_last El) by (unfold now; lia).
    f_equal. f_equal. unfold now. lia.
  - split; [|repeat split; reflexivity].
    rewrite (Hroll now s_now En) by (unfold now; lia). reflexivity.
Qed.

End CompressionFacts.
Section TM2020Facts.

Import MemoryTM2020.

Context {Obj : Type} (decode : value Obj -> value Obj).
Implicit Types (c : config) (data : store Obj).

Lemma wrapped_length (m k : Z) (n : nat) : length (@wrapped Obj m k n) = n.
Proof. unfold wrapped. now rewrite length_map, length_seq. Qed.

Lemma wrapped_nth (m k : Z) (n i : nat) :
  (i < n)%nat ->
  nth_error (@wrapped Obj m k n) i = Some (VInt ((k + Z.of_nat i) mod m)).
Proof.
  intros H. unfold wrapped. rewrite nth_error_map, nth_error_seq.
  destruct (Nat.ltb_spec i n); [reflexivity|lia].
Qed.

Lemma wrapped_eq (l : list (value Obj)) (m k : Z) (n : nat) :
  length l = n ->
  (forall i, (i < n)%nat -> nth_error l i = Some (VInt ((k + Z.of_nat i) mod m))) ->
  l = wrapped m k n.
Proof.
  intros Hl Hn. apply nth_error_ext. intros i.
  destruct (Nat.lt_ge_cases i n) as [H|H].
  - now rewrite Hn, wrapped_nth.
  - transitivity (@None (value Obj)); [|symmetry];
      apply nth_error_None; rewrite ?wrapped_length; lia.
Qed.

Lemma wrapped_app (m k : Z) (n p : nat) :
  @wrapped Obj m k n ++ wrapped m (k + Z.of_nat n) p = wrapped m k (n + p).
Proof.
  apply wrapped_eq.
  - now rewrite length_app, !wrapped_length.
  - intros i Hi. destruct (Nat.lt_ge_cases i n) as [H|H].
    + rewrite nth_error_app1 by (rewrite wrapped_length; lia).
      now apply wrapped_nth.
    + rewrite nth_error_app2 by (rewrite wrapped_length; lia).
      rewrite wrapped_length, wrapped_nth by lia.
      do 3 f_equal. lia.
Qed.

Lemma wrapped_skipn (m k : Z) (n t : nat) :
  skipn t (@wrapped Obj m k n) = wrapped m (k + Z.of_nat (Nat.min t n)) (n - t).
Proof.
  apply wrapped_eq.
  - rewrite length_skipn, wrapped_length. lia.
  - intros i Hi. rewrite nth_error_skipn, wrapped_nth by lia.
    do 3 f_equal. lia.
Qed.

Lemma wrapped_shift (m k k' : Z) (n : nat) :
  k mod m = k' mod m -> @wrapped Obj m k n = wrapped m k' n.
Proof.
  intros H. unfold wrapped. apply map_ext. intros i. f_equal.
  destruct (Z.eq_dec m 0) as [->|Hm].
  - rewrite !Z.mod_0_r in *. lia.
  - rewrite <- (Z.add_mod_idemp_l k), <- (Z.add_mod_idemp_l k') by exact Hm.
    now rewrite H.
Qed.


Lemma wrapped_last (m k : Z) (n : nat) :
  (0 < n)%nat ->
  getitem (@wrapped Obj m k n) (-1) = Ok (VInt ((k + Z.of_nat n - 1) mod m)).
Proof.
  intros Hn. unfold getitem. change (-1 <? 0) with true. cbv iota.
  unfold len. rewrite wrapped_length.
  replace ((-1 + Z.of_nat n <? 0) || (Z.of_nat n <=? -1 + Z.of_nat n))
    with false.
  - rewrite wrapped_nth by lia. do 3 f_equal. lia.
  - symmetry. apply orb_false_iff.
    split; [apply Z.ltb_ge | apply Z.leb_gt]; lia.
Qed.

(** The indices of the new rows. *)
Lemma new_indices (m first : Z) (n : nat) :
  m <> 0 ->
  comprehension (fun i => py_mod (first + i) m) (range (Z.of_nat n))
  = Ok (map (fun i => (first + Z.of_nat i) mod m) (seq 0 n)).
Proof.
  intros Hm.
  rewrite (comprehension_map _ (fun i => (first + i) mod m)).
  - unfold range. rewrite Nat2Z.id, map_map. reflexivity.
  - intros i _. unfold py_mod.
    now replace (m =? 0) with false by (symmetry; now apply Z.eqb_neq).
Qed.

Lemma wrapped_map (m k : Z) (n : nat) :
  map (@VInt Obj) (map (fun i => (k + Z.of_nat i) mod m) (seq 0 n))
  = wrapped m k n.
Proof. unfold wrapped. now rewrite map_map. Qed.

Lemma len_shaped c data k :
  tm2020_shaped (memory_size c) data k ->
  __len__ c data
  = Ok (if len data <? min_samples c + 1 then 0
        else Z.max 0 (len (index_column data) - min_samples c - 1)).
Proof.
  intros (idx & c1 & c2 & c3 & c4 & c5 & c6 & c7 & extra & -> & _).
  unfold __len__, column. cbn [nth_error bind index_column].
  destruct (len _ <? min_samples c + 1); [reflexivity|].
  destruct (len idx - min_samples c - 1 <? 0) eqn:E;
    [apply Z.ltb_lt in E | apply Z.ltb_ge in E]; f_equal; lia.
Qed.

(** The trimming half of [append_buffer] keeps the shape. *)
Lemma tm2020_trim_shaped c data k :
  tm2020_shaped (memory_size c) data k ->
  exists data' k',
    (n <- __len__ c data ;;
     let to_trim := n - memory_size c in
     if 0 <? to_trim
     then
       data <- trim_column data 0 to_trim ;;
       data <- trim_column data 1 to_trim ;;
       data <- trim_column data 2 to_trim ;;
       data <- trim_column data 3 to_trim ;;
       data <- trim_column data 4 to_trim ;;
       data <- trim_column data 5 to_trim ;;
       data <- trim_column data 6 to_trim ;;
       trim_column data 7 to_trim
     else Ok data) = Ok data'
    /\ tm2020_shaped (memory_size c) data' k'
    /\ (0 <= min_samples c -> 0 <= memory_size c ->
        exists n', __len__ c data' = Ok n' /\ 0 <= n' <= memory_size c).
Proof.
  intros Hsh. pose proof (len_shaped c data k Hsh) as HL.
  rewrite HL. cbn [bind].
  set (n := if _ <? _ then 0 else _) in *.
  destruct (0 <? n - memory_size c) eqn:E.
  2:{ apply Z.ltb_ge in E. exists data, k. split; [reflexivity|].
      split; [exact Hsh|]. intros _ _. exists n. split; [exact HL|].
      unfold n. destruct (_ <? _); lia. }
  apply Z.ltb_lt in E.
  destruct Hsh as (idx & c1 & c2 & c3 & c4 & c5 & c6 & c7 & extra & -> & Hidx
                   & L1 & L2 & L3 & L4 & L5 & L6 & L7).
  unfold trim_column, column. cbn [nth_error bind setitem].
  rewrite !slice_drop by lia.
  set (t := Z.to_nat (n - memory_size c)).
  eexists. exists (k + Z.of_nat (Nat.min t (length idx))).
  split; [reflexivity|]. split.
  - exists (skipn t idx), (skipn t c1), (skipn t c2), (skipn t c3),
      (skipn t c4), (skipn t c5), (skipn t c6), (skipn t c7), extra.
    split; [reflexivity|]. rewrite !length_skipn. split.
    + rewrite Hidx at 1. now rewrite wrapped_skipn.
    + repeat split; congruence.
  - intros Hms HM. exists (memory_size c). split; [|lia].
    unfold __len__, column. cbn [nth_error bind].
    change (len (skipn t idx :: skipn t c1 :: skipn t c2 :: skipn t c3
                 :: skipn t c4 :: skipn t c5 :: skipn t c6 :: skipn t c7
                 :: extra))
      with (len (idx :: c1 :: c2 :: c3 :: c4 :: c5 :: c6 :: c7 :: extra)).
    unfold n in E |- *. cbn [index_column] in E |- *.
    destruct (len _ <? min_samples c + 1); [lia|].
    clear HL. subst t n. cbn [index_column] in *. unfold len in *.
    rewrite length_skipn.
    destruct (_ <? 0) eqn:E2;
      [apply Z.ltb_lt in E2 | apply Z.ltb_ge in E2]; f_equal; lia.
Qed.

(** [append_buffer] keeps the shape, and gives it to the memory without
    columns. *)
Lemma tm2020_append_shaped c (self : memory Obj) buffer :
  0 <= min_samples c -> memory_size c <> 0 ->
  data self = [] \/ (exists k, tm2020_shaped (memory_size c) (data self) k) ->
  exists m' k',
    append_buffer decode c self buffer = Ok m'
    /\ tm2020_shaped (memory_size c) (data m') k'
    /\ (0 <= memory_size c ->
        exists n', __len__ c (data m') = Ok n' /\ 0 <= n' <= memory_size c).
Proof.
  intros Hms HM Hsh. unfold append_buffer.
  assert (Hfin : forall grown k0 (written : list (Z * value Obj)),
             tm2020_shaped (memory_size c) grown k0 ->
             exists m' k',
               (n <- __len__ c grown ;;
                let to_trim := n - memory_size c in
                new_data <-
                  (if 0 <? to_trim
                   then
                     data <- trim_column grown 0 to_trim ;;
                     data <- trim_column data 1 to_trim ;;
                     data <- trim_column data 2 to_trim ;;
                     data <- trim_column data 3 to_trim ;;
                     data <- trim_column data 4 to_trim ;;
                     data <- trim_column data 5 to_trim ;;
                     data <- trim_column data 6 to_trim ;;
                     trim_column data 7 to_trim
                   else Ok grown) ;;
                Ok (Memory new_data (rev written ++ files self))) = Ok m'
               /\ tm2020_shaped (memory_size c) (data m') k'
               /\ (0 <= memory_size c ->
                   exists n', __len__ c (data m') = Ok n'
                              /\ 0 <= n' <= memory_size c)).
  { intros grown k0 written Hg.
    destruct (tm2020_trim_shaped c grown k0 Hg)
      as (d' & k' & Hrun & Hsh' & Hbound).
    rewrite (len_shaped c grown k0 Hg) in Hrun |- *. cbn [bind] in Hrun |- *.
    rewrite Hrun. cbn [bind]. eexists. exists k'.
    split; [reflexivity|]. split; [exact Hsh'|exact (Hbound Hms)]. }
  destruct Hsh as [E | [k Hk]].
  - rewrite E.
    assert (H0 : __len__ c (@nil (list (value Obj))) = Ok 0).
    { unfold __len__.
      replace (len (@nil (list (value Obj))) <? min_samples c + 1) with true;
        [reflexivity|].
      symmetry. apply Z.ltb_lt. unfold len. cbn [length]. lia. }
    rewrite H0. cbn [bind]. change (0 <? 0) with false. cbv iota. cbn [bind].
    unfold len at 1. rewrite new_indices by exact HM. cbn [bind app].
    rewrite wrapped_map.
    apply (Hfin _ 0).
    eexists _, _, _, _, _, _, _, _, []. split; [reflexivity|].
    rewrite !length_map, wrapped_length. split; [reflexivity|].
    repeat split; reflexivity.
  - pose proof (len_shaped c _ k Hk) as HL. rewrite HL. cbn [bind].
    destruct Hk as (idx & c1 & c2 & c3 & c4 & c5 & c6 & c7 & extra & Ed & Hidx
                    & L1 & L2 & L3 & L4 & L5 & L6 & L7).
    rewrite Ed in *. cbn [index_column] in *.
    set (n := if _ <? _ then 0 else _) in *.
    destruct (0 <? n) eqn:E.
    + apply Z.ltb_lt in E.
      assert (Hpos : (0 < length idx)%nat).
      { unfold n in E. destruct (_ <? _); [lia|]. unfold len in E. lia. }
      unfold column. cbn [nth_error bind].
      pose proof (wrapped_last (memory_size c) k (length idx) Hpos) as Hlast.
      rewrite <- Hidx in Hlast. rewrite Hlast.
      cbn [bind succ_index].
      unfold len at 1. rewrite new_indices by exact HM. cbn [bind].
      rewrite wrapped_map.
      unfold iadd_column, column. cbn [nth_error bind setitem].
      apply (Hfin _ k).
      eexists _, _, _, _, _, _, _, _, extra. split; [reflexivity|].
      rewrite !length_app, !length_map, wrapped_length. split.
      * rewrite Hidx at 1. rewrite <- wrapped_app. f_equal.
        unfold wrapped. apply map_ext. intros i. f_equal.
        rewrite <- (Z.add_mod_idemp_l ((k + Z.of_nat (length idx) - 1) mod _ + 1))
          by exact HM.
        rewrite (Z.add_mod_idemp_l (k + Z.of_nat (length idx) - 1) 1) by exact HM.
        rewrite Z.add_mod_idemp_l by exact HM. f_equal. lia.
      * repeat split; congruence.
    + cbn [bind]. unfold len at 1. rewrite new_indices by exact HM.
      cbn [bind app]. rewrite wrapped_map.
      apply (Hfin _ k).
      eexists idx, c1, c2, c3, c4, c5, c6, c7, _. split; [reflexivity|].
      split; [exact Hidx|]. repeat split; assumption.
Qed.

Lemma tm2020_reachable_shaped c (m : memory Obj) :
  0 <= min_samples c -> memory_size c <> 0 ->
  tm2020_reachable decode c m ->
  data m = [] \/ exists k, tm2020_shaped (memory_size c) (data m) k.
Proof.
  intros Hms HM H. induction H as [files|m m' buffer _ IH Happ].
  - now left.
  - destruct (tm2020_append_shaped c m buffer Hms HM IH)
      as (m2 & k & Hrun & Hsh & _).
    right. exists k. congruence.
Qed.

(** X15: The indices of a [MemoryTM2020] wrap at the capacity: every stored
    index lies in [0, memory_size), and whenever the rows [i] and
    [i + memory_size] are both stored they carry the same index, hence
    name the same image file. *)
Theorem tm2020_indices_wrap c (m : memory Obj) :
  0 <= imgs_obs c -> 0 <= act_buf_len c -> 0 < memory_size c ->
  tm2020_reachable decode c m ->
  (forall i x,
      nth_error (index_column (data m)) i = Some x ->
      exists z, x = VInt z /\ 0 <= z < memory_size c)
  /\ (forall i x y,
        nth_error (index_column (data m)) i = Some x ->
        nth_error (index_column (data m)) (i + Z.to_nat (memory_size c)) = Some y ->
        x = y).
Proof.
  intros Hio Habl HM Hr.
  assert (Hms : 0 <= min_samples c) by (unfold min_samples; lia).
  destruct (tm2020_reachable_shaped c m Hms ltac:(lia) Hr) as [E | [k Hk]].
  - rewrite E. split; intros [|i]; discriminate.
  - destruct Hk as (idx & c1 & c2 & c3 & c4 & c5 & c6 & c7 & extra & -> & Hidx & _).
    cbn [index_column].
    assert (Hcell : forall i x, nth_error idx i = Some x ->
                      (i < length idx)%nat
                      /\ x = VInt ((k + Z.of_nat i) mod memory_size c)).
    { intros i x Hx.
      assert (Hi : (i < length idx)%nat) by (apply nth_error_Some; congruence).
      split; [exact Hi|]. rewrite Hidx in Hx. rewrite wrapped_nth in Hx by exact Hi.
      congruence. }
    split.
    + intros i x Hx. destruct (Hcell i x Hx) as [_ ->].
      eexists. split; [reflexivity|]. now apply Z.mod_pos_bound.
    + intros i x y Hx Hy.
      destruct (Hcell _ _ Hx) as [_ ->]. destruct (Hcell _ _ Hy) as [_ ->].
      f_equal.
      replace (k + Z.of_nat (i + Z.to_nat (memory_size c)))
        with (k + Z.of_nat i + 1 * memory_size c) by lia.
      now rewrite Z_mod_plus_full.
Qed.

End TM2020Facts.
Section TM2020Reading.

Import MemoryTM2020.

Context {Obj : Type} (decode : value Obj -> value Obj).
Variable read_image : value Obj -> result (value Obj).
Variables np_float32 np_array_float32 : value Obj -> value Obj.
Implicit Types (c : config) (data : store Obj).

Lemma comprehension_tl {A B : Type} (f : A -> result B) l r :
  comprehension f l = Ok r -> comprehension f (tl l) = Ok (tl r).
Proof.
  destruct l as [|x l]; cbn [comprehension tl].
  - intros H. now inversion H.
  - destruct (f x); [|discriminate]. cbn [bind].
    destruct (comprehension f l); [|discriminate]. cbn [bind].
    intros H. now inversion H.
Qed.

Lemma comprehension_removelast {A B : Type} (f : A -> result B) l r :
  comprehension f l = Ok r ->
  comprehension f (removelast l) = Ok (removelast r).
Proof.
  revert r. induction l as [|x l IH]; intros r; cbn [comprehension].
  - intros H. now inversion H.
  - destruct (f x) as [y|] eqn:Ex; [|discriminate]. cbn [bind].
    destruct (comprehension f l) as [ys|] eqn:El; [|discriminate]. cbn [bind].
    intros H. inversion H. subst r. clear H.
    destruct l as [|x' l].
    + cbn [comprehension] in El. inversion El. reflexivity.
    + specialize (IH _ eq_refl).
      change (removelast (x :: x' :: l)) with (x :: removelast (x' :: l)).
      cbn [comprehension]. rewrite Ex. cbn [bind]. rewrite IH. cbn [bind].
      destruct ys as [|y' ys]; [|reflexivity].
      cbn [comprehension] in El.
      destruct (f x'); [|discriminate]. cbn [bind] in El.
      destruct (comprehension f l); discriminate.
Qed.

Lemma comprehension_in {A B : Type} (f : A -> result B) l r x :
  comprehension f l = Ok r -> In x l -> exists y, f x = Ok y.
Proof.
  revert r. induction l as [|a l IH]; intros r H Hin; [destruct Hin|].
  cbn [comprehension] in H.
  destruct (f a) as [y|] eqn:Ea; [|discriminate]. cbn [bind] in H.
  destruct (comprehension f l) as [ys|] eqn:El; [|discriminate].
  destruct Hin as [<-|Hin]; [now exists y|]. now apply (IH ys).
Qed.

Lemma comprehension_pointwise {A B : Type} (f : A -> result B) (g h : nat -> A) n :
  (forall i, (i < n)%nat -> f (g i) = f (h i)) ->
  comprehension f (map g (seq 0 n)) = comprehension f (map h (seq 0 n)).
Proof.
  intros H.
  assert (G : forall s, (forall i, In i s -> (i < n)%nat) ->
                comprehension f (map g s) = comprehension f (map h s)).
  { induction s as [|i s IH]; intros Hs; [reflexivity|].
    cbn [map comprehension]. rewrite (H i) by (apply Hs; now left).
    rewrite IH by (intros j Hj; apply Hs; now right). reflexivity. }
  apply G. intros i Hi. apply in_seq in Hi. lia.
Qed.

Lemma range2_removelast a n :
  0 <= n -> removelast (range2 a (a + n + 1)) = range2 a (a + n).
Proof.
  intros Hn. unfold range2.
  replace (Z.to_nat (a + n + 1 - a)) with (S (Z.to_nat n)) by lia.
  replace (Z.to_nat (a + n - a)) with (Z.to_nat n) by lia.
  rewrite seq_S, map_app. cbn [map]. now rewrite removelast_last.
Qed.

Lemma range2_tl a n :
  0 <= n -> tl (range2 a (a + n + 1)) = range2 (a + 1) (a + 1 + n).
Proof.
  intros Hn. unfold range2.
  replace (Z.to_nat (a + n + 1 - a)) with (S (Z.to_nat n)) by lia.
  replace (Z.to_nat (a + 1 + n - (a + 1))) with (Z.to_nat n) by lia.
  cbn [seq map tl]. rewrite <- seq_shift, map_map.
  apply map_ext. intros i. lia.
Qed.

(** The images of a transition, as [get_transition] hands them out. *)
Lemma get_transition_imgs c data item t :
  get_transition read_image np_float32 np_array_float32 c data item = Ok t ->
  exists imgs,
    load_imgs read_image c data item = Ok imgs
    /\ o_imgs (t_last_obs t) = slice imgs None (Some (-1))
    /\ o_imgs (t_new_obs t) = slice imgs (Some 1) None.
Proof.
  unfold get_transition. intros H.
  destruct (load_imgs read_image c data item) as [imgs|]; [|discriminate].
  cbn [bind] in H. exists imgs. split; [reflexivity|].
  repeat match type of H with
         | context [bind ?x _] =>
             destruct x; cbn [bind] in H; try discriminate
         end.
  inversion H. now split.
Qed.

(** X16: In a [MemoryTM2020] the images of the previous observation of the
    transition [item] and those of the new observation of the transition
    [item + memory_size - 1] are read from the same files: whenever both
    transitions are returned, the two image lists are equal, whatever
    samples were appended. *)
Theorem tm2020_oldest_images_are_newest c (m : memory Obj) item t t' :
  0 <= imgs_obs c -> 0 <= act_buf_len c -> 0 < memory_size c ->
  tm2020_reachable decode c m ->
  0 <= item ->
  get_transition read_image np_float32 np_array_float32 c (data m) item
  = Ok t ->
  get_transition read_image np_float32 np_array_float32 c (data m)
    (item + memory_size c - 1) = Ok t' ->
  o_imgs (t_last_obs t) = o_imgs (t_new_obs t').
Proof.
  intros Hio Habl HM Hr Hitem Ht Ht'.
  destruct (get_transition_imgs _ _ _ _ Ht) as (imgs & Hl & -> & _).
  destruct (get_transition_imgs _ _ _ _ Ht') as (imgs' & Hl' & _ & ->).
  rewrite slice_butlast, slice_tail.
  unfold load_imgs in Hl, Hl'.
  apply comprehension_removelast in Hl. apply comprehension_tl in Hl'.
  rewrite range2_removelast in Hl by exact Hio.
  rewrite range2_tl in Hl' by exact Hio.
  enough (E : Ok (removelast imgs) = Ok (tl imgs')) by now inversion E.
  rewrite <- Hl. clear Hl Ht Ht' imgs t t'.
  set (a := item + start_imgs_offset c) in *.
  replace (item + memory_size c - 1 + start_imgs_offset c + 1)
    with (a + memory_size c) in Hl' by (unfold a; lia).
  assert (Ha : 0 <= a) by (unfold a, start_imgs_offset; lia).
  unfold range2 in *.
  replace (Z.to_nat (a + imgs_obs c - a)) with (Z.to_nat (imgs_obs c)) by lia.
  replace (Z.to_nat (a + memory_size c + imgs_obs c - (a + memory_size c)))
    with (Z.to_nat (imgs_obs c)) in Hl' by lia.
  assert (Hok : forall i, (i < Z.to_nat (imgs_obs c))%nat ->
            exists y,
              (data0 <- column (data m) 0 ;;
               name <- getitem data0 (a + memory_size c + Z.of_nat i) ;;
               read_image name) = Ok y).
  { intros i Hi. apply (comprehension_in _ _ _ _ Hl').
    apply in_map_iff. exists i. split; [reflexivity|]. apply in_seq. lia. }
  rewrite <- Hl'. clear Hl' imgs'.
  apply comprehension_pointwise. intros i Hi. specialize (Hok i Hi).
  destruct Hok as [y Hok].
  assert (Hms : 0 <= min_samples c) by (unfold min_samples; lia).
  destruct (tm2020_reachable_shaped decode c m Hms ltac:(lia) Hr) as [E | [k Hk]].
  - rewrite E in *. discriminate.
  - destruct Hk as (idx & c1 & c2 & c3 & c4 & c5 & c6 & c7 & extra & Ed & Hidx & _).
    rewrite Ed in *. unfold column in *. cbn [nth_error bind] in *.
    destruct (Z_lt_le_dec (a + memory_size c + Z.of_nat i) (len idx)) as [Hin|Hout].
    + rewrite (getitem_default idx (a + Z.of_nat i) (VInt 0)) by lia.
      rewrite (getitem_default idx (a + memory_size c + Z.of_nat i) (VInt 0))
        by lia.
      cbn [bind]. f_equal.
      assert (Hc : forall j, (j < length idx)%nat ->
                     nth j idx (VInt 0)
                     = VInt ((k + Z.of_nat j) mod memory_size c)).
      { intros j Hj. apply nth_error_nth. rewrite Hidx.
        now apply wrapped_nth. }
      unfold len in Hin. rewrite !Hc by lia. f_equal.
      replace (k + Z.of_nat (Z.to_nat (a + memory_size c + Z.of_nat i)))
        with (k + Z.of_nat (Z.to_nat (a + Z.of_nat i)) + 1 * memory_size c)
        by lia.
      now rewrite Z_mod_plus_full.
    + rewrite (getitem_beyond idx _ Hout) in Hok. discriminate.
Qed.

End TM2020Reading.
Section TM2020Capacity.

Import MemoryTM2020.

Context {Obj : Type} (decode : value Obj -> value Obj).
Implicit Types (c : config) (data : store Obj).

Lemma len_of_empty_columns c data :
  0 <= min_samples c -> Forall (fun col => col = []) data ->
  __len__ c data = Ok 0.
Proof.
  intros Hms Hall. unfold __len__.
  destruct (len data <? min_samples c + 1) eqn:E; [reflexivity|].
  apply Z.ltb_ge in E.
  destruct Hall as [|col rest Hcol _].
  - unfold len in E. cbn [length] in E. lia.
  - subst col. unfold column. cbn [nth_error bind].
    replace (len (@nil (value Obj)) - min_samples c - 1 <? 0) with true;
      [reflexivity|].
    symmetry. apply Z.ltb_lt. unfold len. cbn [length]. lia.
Qed.

Lemma zero_capacity_step c (m : memory Obj) buffer :
  memory_size c = 0 -> 0 <= min_samples c ->
  Forall (fun col => col = []) (data m) ->
  match buffer with
  | [] => exists m', append_buffer decode c m buffer = Ok m'
                     /\ Forall (fun col => col = []) (data m')
  | _ :: _ => append_buffer decode c m buffer = Raise ZeroDivisionError
  end.
Proof.
  intros HM Hms Hall. unfold append_buffer.
  rewrite (len_of_empty_columns c _ Hms Hall). cbn [bind].
  change (0 <? 0) with false. cbv iota. cbn [bind].
  destruct buffer as [|s buffer].
  - cbn [len length Z.of_nat range Z.to_nat seq map comprehension bind combine].
    assert (Hnew : Forall (fun col : list (value Obj) => col = [])
                     (data m ++ [[]; []; []; []; []; []; []; []])).
    { apply Forall_app. split; [exact Hall|]. repeat constructor. }
    unfold range. cbn [Z.to_nat seq map comprehension bind combine].
    rewrite (len_of_empty_columns c _ Hms Hnew). cbn [bind].
    rewrite HM. change (0 <? 0 - 0) with false. cbv iota. cbn [bind].
    eexists. split; [reflexivity|exact Hnew].
  - unfold range, len. cbn [length].
    rewrite Nat2Z.id. cbn [seq map comprehension].
    unfold py_mod. rewrite HM. reflexivity.
Qed.

(** X17: A [MemoryTM2020] of capacity 0 takes no sample: on every memory
    reached from the one without columns, appending a buffer that is not
    empty raises [ZeroDivisionError]. *)
Theorem tm2020_zero_capacity_raises c (m : memory Obj) buffer :
  memory_size c = 0 -> 0 <= imgs_obs c -> 0 <= act_buf_len c ->
  tm2020_reachable decode c m -> buffer <> [] ->
  append_buffer decode c m buffer = Raise ZeroDivisionError.
Proof.
  intros HM Hio Habl Hr Hb.
  assert (Hms : 0 <= min_samples c) by (unfold min_samples; lia).
  assert (Hall : Forall (fun col => col = []) (data m)).
  { induction Hr as [files|m m' b _ IH Happ]; [constructor|].
    pose proof (zero_capacity_step c m b HM Hms IH) as Hstep.
    destruct b as [|s b].
    - destruct Hstep as (m2 & Hrun & Hm2). congruence.
    - congruence. }
  pose proof (zero_capacity_step c m buffer HM Hms Hall) as Hstep.
  destruct buffer as [|s buffer]; [contradiction|exact Hstep].
Qed.

End TM2020Capacity.
Section TM2020Bounds.

Import MemoryTM2020.

Context {Obj : Type} (decode : value Obj -> value Obj).
Implicit Types (c : config) (data : store Obj).

(** X18: With a positive capacity [MemoryTM2020.append_buffer] always returns,
    from whatever memory the appends before it have left, and the length
    of the memory it returns never exceeds the capacity. *)
Theorem tm2020_append_buffer_bounds c (m : memory Obj) buffer :
  0 <= imgs_obs c -> 0 <= act_buf_len c -> 0 < memory_size c ->
  tm2020_reachable decode c m ->
  exists m' n,
    append_buffer decode c m buffer = Ok m'
    /\ __len__ c (data m') = Ok n
    /\ 0 <= n <= memory_size c.
Proof.
  intros Hio Habl HM Hr.
  assert (Hms : 0 <= min_samples c) by (unfold min_samples; lia).
  pose proof (tm2020_reachable_shaped decode c m Hms ltac:(lia) Hr) as Hsh.
  destruct (tm2020_append_shaped decode c m buffer Hms ltac:(lia) Hsh)
    as (m' & k & Hrun & _ & Hbound).
  clear Hsh.
  destruct (Hbound ltac:(lia)) as (n & Hn & Hle).
  now exists m', n.
Qed.

End TM2020Bounds.
Section TM2020Transitions.

Import MemoryTM2020.

Context {Obj : Type}.
Variable read_image : value Obj -> result (value Obj).
Variables np_float32 np_array_float32 : value Obj -> value Obj.
Implicit Types (c : config) (data : store Obj).

Lemma window_cons {A : Type} (l : list A) s n d :
  (s < length l)%nat -> window l s (S n) = nth s l d :: window l (S s) n.
Proof.
  unfold window. revert s. induction l as [|x l IH]; intros s Hs.
  - cbn [length] in Hs. lia.
  - destruct s as [|s]; [reflexivity|].
    cbn [length] in Hs. cbn [skipn nth]. rewrite <- IH by lia. reflexivity.
Qed.

Lemma range2_cells {A : Type} (l : list A) d a n :
  0 <= a -> (Z.to_nat a + n <= length l)%nat ->
  map (fun i => nth (Z.to_nat i) l d) (map (fun i => a + Z.of_nat i) (seq 0 n))
  = window l (Z.to_nat a) n.
Proof.
  revert a. induction n as [|n IH]; intros a Ha Hn.
  - unfold window. now rewrite firstn_O.
  - rewrite (window_cons l _ n d) by lia.
    cbn [seq map]. rewrite Z.add_0_r. f_equal.
    rewrite <- seq_shift, !map_map.
    replace (S (Z.to_nat a)) with (Z.to_nat (a + 1)) by lia.
    rewrite <- IH by lia. rewrite map_map.
    apply map_ext. intros i. f_equal. lia.
Qed.

(** What [load_imgs] returns when the rows it names exist and their
    files can be read: the images of the files named by the index cells of
    the rows, in the order of the rows. *)
Lemma load_imgs_reads c idx rest item (img : value Obj -> value Obj) :
  0 <= imgs_obs c -> 0 <= item ->
  item + start_imgs_offset c + imgs_obs c < len idx ->
  (forall x,
      In x (window idx (Z.to_nat (item + start_imgs_offset c))
              (Z.to_nat (imgs_obs c + 1))) ->
      read_image x = Ok (img x)) ->
  load_imgs read_image c (idx :: rest) item
  = Ok (map img (window idx (Z.to_nat (item + start_imgs_offset c))
                   (Z.to_nat (imgs_obs c + 1)))).
Proof.
  intros Hio Hitem Hin Hread.
  assert (Hs : 0 <= start_imgs_offset c) by (unfold start_imgs_offset; lia).
  unfold load_imgs, range2.
  set (a := item + start_imgs_offset c) in *.
  replace (a + imgs_obs c + 1 - a) with (imgs_obs c + 1) by lia.
  set (n := Z.to_nat (imgs_obs c + 1)) in *.
  assert (Hn : (Z.to_nat a + n <= length idx)%nat)
    by (unfold len in Hin; unfold n; lia).
  rewrite <- (range2_cells idx (VInt 0) a n) in Hread |- * by lia.
  rewrite map_map.
  apply comprehension_map. intros i Hi.
  apply in_map_iff in Hi. destruct Hi as (j & <- & Hj). apply in_seq in Hj.
  unfold column. cbn [nth_error bind].
  rewrite (getitem_default idx _ (VInt 0)) by (unfold len in *; lia).
  cbn [bind]. apply Hread.
  apply in_map_iff. exists (a + Z.of_nat j). split; [reflexivity|].
  apply in_map_iff. exists j. split; [reflexivity|]. apply in_seq. lia.
Qed.

(** X19: [MemoryTM2020.get_transition] on a store of eight columns of one
    length: for a non-negative [item] whose row [item + min_samples]
    exists, and image files that can be read, it returns the cells of the
    rows [item + min_samples - 1] and [item + min_samples], the windows of
    the action column, and the images of the files named by the index
    cells of the image window. *)
Theorem tm2020_get_transition_reads c idx acts speeds gears rpms dones rews
  infos extra item (img : value Obj -> value Obj) :
  0 <= imgs_obs c -> 0 <= act_buf_len c -> 1 <= min_samples c ->
  length acts = length idx -> length speeds = length idx ->
  length gears = length idx -> length rpms = length idx ->
  length dones = length idx -> length rews = length idx ->
  length infos = length idx ->
  0 <= item -> item + min_samples c < len idx ->
  (forall x,
      In x (window idx (Z.to_nat (item + start_imgs_offset c))
              (Z.to_nat (imgs_obs c + 1))) ->
      read_image x = Ok (img x)) ->
  get_transition read_image np_float32 np_array_float32 c
    (idx :: acts :: speeds :: gears :: rpms :: dones :: rews :: infos :: extra)
    item
  = let last := Z.to_nat (item + min_samples c - 1) in
    let now := Z.to_nat (item + min_samples c) in
    let wi := map img (window idx (Z.to_nat (item + start_imgs_offset c))
                         (Z.to_nat (imgs_obs c + 1))) in
    let wa := window acts (Z.to_nat (item + start_acts_offset c))
                (Z.to_nat (act_buf_len c + 1)) in
    Ok (Transition
          (Observation (row_cell speeds last) (row_cell gears last)
             (row_cell rpms last) (removelast wi) (removelast wa))
          (np_array_float32 (row_cell acts now))
          (np_float32 (row_cell rews now))
          (Observation (row_cell speeds now) (row_cell gears now)
             (row_cell rpms now) (tl wi) (tl wa))
          (row_cell dones now) (row_cell infos now)).
Proof.
  intros Hio Habl Hms La Ls Lg Lp Ld Lr Lf Hitem Hnow Hread.
  assert (Hoff : start_imgs_offset c + imgs_obs c = min_samples c
                 /\ start_acts_offset c + act_buf_len c = min_samples c
                 /\ 0 <= start_imgs_offset c /\ 0 <= start_acts_offset c)
    by (unfold start_imgs_offset, start_acts_offset, min_samples; lia).
  destruct Hoff as (Hi & Ha & Hsi & Hsa).
  assert (Hlen : forall l : list (value Obj),
             length l = length idx -> len l = len idx)
    by (intros l E; unfold len; now rewrite E).
  unfold get_transition.
  rewrite (load_imgs_reads c idx _ item img Hio Hitem ltac:(lia) Hread).
  cbn [bind]. unfold load_acts, column. cbn [nth_error bind].
  rewrite (slice_window acts) by (rewrite ?(Hlen _ La); lia).
  replace (item + start_acts_offset c + act_buf_len c + 1
           - (item + start_acts_offset c))
    with (act_buf_len c + 1) by lia.
  rewrite (getitem_default speeds (item + min_samples c - 1) (VInt 0))
    by (rewrite (Hlen _ Ls); lia).
  rewrite (getitem_default gears (item + min_samples c - 1) (VInt 0))
    by (rewrite (Hlen _ Lg); lia).
  rewrite (getitem_default rpms (item + min_samples c - 1) (VInt 0))
    by (rewrite (Hlen _ Lp); lia).
  rewrite (getitem_default rews (item + min_samples c) (VInt 0))
    by (rewrite (Hlen _ Lr); lia).
  rewrite (getitem_default acts (item + min_samples c) (VInt 0))
    by (rewrite (Hlen _ La); lia).
  rewrite (getitem_default speeds (item + min_samples c) (VInt 0))
    by (rewrite (Hlen _ Ls); lia).
  rewrite (getitem_default gears (item + min_samples c) (VInt 0))
    by (rewrite (Hlen _ Lg); lia).
  rewrite (getitem_default rpms (item + min_samples c) (VInt 0))
    by (rewrite (Hlen _ Lp); lia).
  rewrite (getitem_default dones (item + min_samples c) (VInt 0))
    by (rewrite (Hlen _ Ld); lia).
  rewrite (getitem_default infos (item + min_samples c) (VInt 0))
    by (rewrite (Hlen _ Lf); lia).
  cbn [bind]. now rewrite !slice_butlast, !slice_tail.
Qed.

End TM2020Transitions.
Section CogniflyFacts.

Import MemoryCognifly.

Context {Obj : Type}.
Variables np_float32 np_array_float32 : value Obj -> value Obj.
Implicit Types (c : config) (data : store Obj).

Lemma cognifly_len_shaped c data k :
  cognifly_shaped (memory_size c) data k ->
  __len__ c data
  = Ok (if len data <? min_samples c + 1 then 0
        else Z.max 0 (len (index_column data) - min_samples c - 1)).
Proof.
  intros (idx & c1 & c2 & c3 & c4 & c5 & c6 & c7 & c8 & c9 & c10 & extra
          & -> & _).
  unfold __len__, column. cbn [nth_error bind index_column].
  destruct (len _ <? min_samples c + 1); [reflexivity|].
  destruct (len idx - min_samples c - 1 <? 0) eqn:E;
    [apply Z.ltb_lt in E | apply Z.ltb_ge in E]; f_equal; lia.
Qed.

(** The trimming half of [append_buffer] keeps the shape and leaves at
    most [memory_size] usable rows. *)
Lemma cognifly_trim_shaped c data k :
  cognifly_shaped (memory_size c) data k ->
  exists data' k',
    (n <- __len__ c data ;;
     let to_trim := n - memory_size c in
     if 0 <? to_trim
     then
       data <- trim_column data 0 to_trim ;;
       data <- trim_column data 1 to_trim ;;
       data <- trim_column data 2 to_trim ;;
       data <- trim_column data 3 to_trim ;;
       data <- trim_column data 4 to_trim ;;
       data <- trim_column data 5 to_trim ;;
       data <- trim_column data 6 to_trim ;;
       data <- trim_column data 7 to_trim ;;
       data <- trim_column data 8 to_trim ;;
       data <- trim_column data 9 to_trim ;;
       trim_column data 10 to_trim
     else Ok data) = Ok data'
    /\ cognifly_shaped (memory_size c) data' k'
    /\ (0 <= min_samples c -> 0 <= memory_size c ->
        exists n', __len__ c data' = Ok n' /\ 0 <= n' <= memory_size c).
Proof.
  intros Hsh. pose proof (cognifly_len_shaped c data k Hsh) as HL.
  rewrite HL. cbn [bind].
  set (n := if _ <? _ then 0 else _) in *.
  destruct (0 <? n - memory_size c) eqn:E.
  2:{ apply Z.ltb_ge in E. exists data, k. split; [reflexivity|].
      split; [exact Hsh|]. intros _ _. exists n. split; [exact HL|].
      unfold n. destruct (_ <? _); lia. }
  apply Z.ltb_lt in E.
  destruct Hsh as (idx & c1 & c2 & c3 & c4 & c5 & c6 & c7 & c8 & c9 & c10
                   & extra & -> & Hidx
                   & L1 & L2 & L3 & L4 & L5 & L6 & L7 & L8 & L9 & L10).
  unfold trim_column, column. cbn [nth_error bind setitem].
  rewrite !slice_drop by lia.
  set (t := Z.to_nat (n - memory_size c)).
  eexists. exists (k + Z.of_nat (Nat.min t (length idx))).
  split; [reflexivity|]. split.
  - exists (skipn t idx), (skipn t c1), (skipn t c2), (skipn t c3),
      (skipn t c4), (skipn t c5), (skipn t c6), (skipn t c7), (skipn t c8),
      (skipn t c9), (skipn t c10), extra.
    split; [reflexivity|]. rewrite !length_skipn. split.
    + rewrite Hidx at 1. now rewrite wrapped_skipn.
    + repeat split; congruence.
  - intros Hms HM. exists (memory_size c). split; [|lia].
    unfold __len__, column. cbn [nth_error bind].
    change (len (skipn t idx :: skipn t c1 :: skipn t c2 :: skipn t c3
                 :: skipn t c4 :: skipn t c5 :: skipn t c6 :: skipn t c7
                 :: skipn t c8 :: skipn t c9 :: skipn t c10 :: extra))
      with (len (idx :: c1 :: c2 :: c3 :: c4 :: c5 :: c6 :: c7 :: c8 :: c9
                 :: c10 :: extra)).
    unfold n in E |- *. cbn [index_column] in E |- *.
    destruct (len _ <? min_samples c + 1); [lia|].
    clear HL. subst t n. cbn [index_column] in *. unfold len in *.
    rewrite length_skipn.
    destruct (_ <? 0) eqn:E2;
      [apply Z.ltb_lt in E2 | apply Z.ltb_ge in E2]; f_equal; lia.
Qed.

Lemma cognifly_append_shaped c data buffer :
  0 <= min_samples c -> memory_size c <> 0 ->
  data = [] \/ (exists k, cognifly_shaped (memory_size c) data k) ->
  exists data' k',
    append_buffer c data buffer = Ok data'
    /\ cognifly_shaped (memory_size c) data' k'
    /\ (0 <= memory_size c ->
        exists n', __len__ c data' = Ok n' /\ 0 <= n' <= memory_size c).
Proof.
  intros Hms HM Hsh. unfold append_buffer.
  assert (Hfin : forall grown k0,
             cognifly_shaped (memory_size c) grown k0 ->
             exists data' k',
               (n <- __len__ c grown ;;
                let to_trim := n - memory_size c in
                if 0 <? to_trim
                then
                  data <- trim_column grown 0 to_trim ;;
                  data <- trim_column data 1 to_trim ;;
                  data <- trim_column data 2 to_trim ;;
                  data <- trim_column data 3 to_trim ;;
                  data <- trim_column data 4 to_trim ;;
                  data <- trim_column data 5 to_trim ;;
                  data <- trim_column data 6 to_trim ;;
                  data <- trim_column data 7 to_trim ;;
                  data <- trim_column data 8 to_trim ;;
                  data <- trim_column data 9 to_trim ;;
                  trim_column data 10 to_trim
                else Ok grown) = Ok data'
               /\ cognifly_shaped (memory_size c) data' k'
               /\ (0 <= memory_size c ->
                   exists n', __len__ c data' = Ok n'
                              /\ 0 <= n' <= memory_size c)).
  { intros grown k0 Hg.
    destruct (cognifly_trim_shaped c grown k0 Hg)
      as (d' & k' & Hrun & Hsh' & Hbound).
    exists d', k'. split; [exact Hrun|]. split; [exact Hsh'|exact (Hbound Hms)]. }
  destruct Hsh as [E | [k Hk]].
  - rewrite E.
    assert (H0 : __len__ c (@nil (list (value Obj))) = Ok 0).
    { unfold __len__.
      replace (len (@nil (list (value Obj))) <? min_samples c + 1) with true;
        [reflexivity|].
      symmetry. apply Z.ltb_lt. unfold len. cbn [length]. lia. }
    rewrite H0. cbn [bind]. change (0 <? 0) with false. cbv iota. cbn [bind].
    unfold len at 1. rewrite new_indices by exact HM. cbn [bind app].
    rewrite wrapped_map.
    apply (Hfin _ 0).
    eexists _, _, _, _, _, _, _, _, _, _, _, []. split; [reflexivity|].
    rewrite !length_map, wrapped_length. split; [reflexivity|].
    repeat split; reflexivity.
  - pose proof (cognifly_len_shaped c _ k Hk) as HL. rewrite HL. cbn [bind].
    destruct Hk as (idx & c1 & c2 & c3 & c4 & c5 & c6 & c7 & c8 & c9 & c10
                    & extra & Ed & Hidx
                    & L1 & L2 & L3 & L4 & L5 & L6 & L7 & L8 & L9 & L10).
    rewrite Ed in *. cbn [index_column] in *.
    set (n := if _ <? _ then 0 else _) in *.
    destruct (0 <? n) eqn:E.
    + apply Z.ltb_lt in E.
      assert (Hpos : (0 < length idx)%nat).
      { unfold n in E. destruct (_ <? _); [lia|]. unfold len in E. lia. }
      unfold column. cbn [nth_error bind].
      pose proof (@wrapped_last Obj (memory_size c) k (length idx) Hpos)
        as Hlast.
      rewrite <- Hidx in Hlast. rewrite Hlast.
      cbn [bind succ_index].
      unfold len at 1. rewrite new_indices by exact HM. cbn [bind].
      rewrite wrapped_map.
      unfold iadd_column, column. cbn [nth_error bind setitem].
      apply (Hfin _ k).
      eexists _, _, _, _, _, _, _, _, _, _, _, extra. split; [reflexivity|].
      rewrite !length_app, !length_map, wrapped_length. split.
      * rewrite Hidx at 1. rewrite <- wrapped_app. f_equal.
        unfold wrapped. apply map_ext. intros i. f_equal.
        rewrite <- (Z.add_mod_idemp_l ((k + Z.of_nat (length idx) - 1) mod _ + 1))
          by exact HM.
        rewrite (Z.add_mod_idemp_l (k + Z.of_nat (length idx) - 1) 1) by exact HM.
        rewrite Z.add_mod_idemp_l by exact HM. f_equal. lia.
      * repeat split; congruence.
    + cbn [bind]. unfold len at 1. rewrite new_indices by exact HM.
      cbn [bind app]. rewrite wrapped_map.
      apply (Hfin _ k).
      eexists idx, c1, c2, c3, c4, c5, c6, c7, c8, c9, c10, _.
      split; [reflexivity|].
      split; [exact Hidx|]. repeat split; assumption.
Qed.

Lemma cognifly_reachable_shaped c data :
  0 <= min_samples c -> memory_size c <> 0 ->
  cognifly_reachable c data ->
  data = [] \/ exists k, cognifly_shaped (memory_size c) data k.
Proof.
  intros Hms HM H. induction H as [|data data' buffer _ IH Happ].
  - now left.
  - destruct (cognifly_append_shaped c data buffer Hms HM IH)
      as (d2 & k & Hrun & Hsh & _).
    right. exists k. congruence.
Qed.

(** X20: With a positive capacity [MemoryCognifly.append_buffer] always
    returns, from whatever store the appends before it have left; the
    length of the memory it returns never exceeds the capacity, and every
    index it has stored lies in [0, memory_size). *)
Theorem cognifly_append_buffer_bounds c data buffer :
  0 <= imgs_obs c -> 0 <= act_buf_len c -> 0 < memory_size c ->
  cognifly_reachable c data ->
  exists data' n,
    append_buffer c data buffer = Ok data'
    /\ __len__ c data' = Ok n
    /\ 0 <= n <= memory_size c
    /\ (forall i x,
          nth_error (index_column data') i = Some x ->
          exists z, x = VInt z /\ 0 <= z < memory_size c).
Proof.
  intros Hio Habl HM Hr.
  assert (Hms : 0 <= min_samples c) by (unfold min_samples; lia).
  pose proof (cognifly_reachable_shaped c data Hms ltac:(lia) Hr) as Hsh.
  destruct (cognifly_append_shaped c data buffer Hms ltac:(lia) Hsh)
    as (data' & k & Hrun & Hsh' & Hbound).
  clear Hsh.
  destruct (Hbound ltac:(lia)) as (n & Hn & Hle).
  exists data', n. repeat (split; [assumption || lia|]).
  destruct Hsh' as (idx & c1 & c2 & c3 & c4 & c5 & c6 & c7 & c8 & c9 & c10
                    & extra & -> & Hidx & _).
  cbn [index_column]. intros i x Hx.
  assert (Hi : (i < length idx)%nat) by (apply nth_error_Some; congruence).
  rewrite Hidx in Hx. rewrite wrapped_nth in Hx by exact Hi.
  injection Hx as <-. eexists. split; [reflexivity|].
  now apply Z.mod_pos_bound.
Qed.

(** X21: [MemoryCognifly.get_transition] on a store of eleven columns of one
    length: for a non-negative [item] whose row [item + min_samples]
    exists, it returns the cells of the rows [item + min_samples - 1] and
    [item + min_samples] and the two windows of the action column. *)
Theorem cognifly_get_transition_rows c idx acts alts vels accs tars dels
  del_ks dones rews infos extra item :
  0 <= imgs_obs c -> 0 <= act_buf_len c -> 1 <= min_samples c ->
  length acts = length idx -> length alts = length idx ->
  length vels = length idx -> length accs = length idx ->
  length tars = length idx -> length dels = length idx ->
  length del_ks = length idx -> length dones = length idx ->
  length rews = length idx -> length infos = length idx ->
  0 <= item -> item + min_samples c < len idx ->
  get_transition np_float32 np_array_float32 c
    (idx :: acts :: alts :: vels :: accs :: tars :: dels :: del_ks :: dones
     :: rews :: infos :: extra) item
  = let last := Z.to_nat (item + min_samples c - 1) in
    let now := Z.to_nat (item + min_samples c) in
    let wa := window acts (Z.to_nat (item + start_acts_offset c))
                (Z.to_nat (act_buf_len c + 1)) in
    Ok (Transition
          (Observation (row_cell alts last) (row_cell vels last)
             (row_cell accs last) (row_cell tars last) (row_cell dels last)
             (row_cell del_ks last) (removelast wa))
          (np_array_float32 (row_cell acts now))
          (np_float32 (row_cell rews now))
          (Observation (row_cell alts now) (row_cell vels now)
             (row_cell accs now) (row_cell tars now) (row_cell dels now)
             (row_cell del_ks now) (tl wa))
          (row_cell dones now) (row_cell infos now)).
Proof.
  intros Hio Habl Hms La L2 L3 L4 L5 L6 L7 Ld Lr Lf Hitem Hnow.
  assert (Hoff : start_acts_offset c + act_buf_len c = min_samples c
                 /\ 0 <= start_acts_offset c)
    by (unfold start_acts_offset, min_samples; lia).
  destruct Hoff as (Ha & Hsa).
  assert (Hlen : forall l : list (value Obj),
             length l = length idx -> len l = len idx)
    by (intros l E; unfold len; now rewrite E).
  assert (Hget : forall (l : list (value Obj)) i,
             length l = length idx -> 0 <= i < len idx ->
             getitem l i = Ok (row_cell l (Z.to_nat i))).
  { intros l i E Hi. unfold row_cell. apply getitem_default.
    now rewrite (Hlen _ E). }
  unfold get_transition, state_cells, load_acts, column.
  cbn [nth_error bind].
  rewrite (slice_window acts) by (rewrite ?(Hlen _ La); lia).
  replace (item + start_acts_offset c + act_buf_len c + 1
           - (item + start_acts_offset c))
    with (act_buf_len c + 1) by lia.
  rewrite !Hget by (assumption || lia).
  cbn [bind]. now rewrite !slice_butlast, !slice_tail.
Qed.

End CogniflyFacts.
(** ** The theorems at sample data *)

(** C1, as stated, fails.  150 samples appended to the empty memory of
    capacity 100 leave 105 rows in each of the seven field-sequences, so
    45 rows are trimmed, not 50.  And a buffer of 500 samples appended
    after a first buffer of 3 samples is stored whole, in seven further
    field-sequences of 500 rows each that nothing trims. *)
Lemma field_sequences_exceed_memory_size :
  (exists data',
      MemoryTMNFLidar.append_buffer demo_config [] (demo_buffer 0 150)
      = Ok data'
      /\ map len data' = [105; 105; 105; 105; 105; 105; 105]
      /\ row_count data' = 105
      /\ ~ row_count data' <= MemoryTMNF.memory_size demo_config
      /\ len (demo_buffer 0 150) - row_count data' <> 50)
  /\ (exists data1 data2,
        MemoryTMNFLidar.append_buffer demo_config [] (demo_buffer 0 3)
        = Ok data1
        /\ MemoryTMNFLidar.append_buffer demo_config data1 (demo_buffer 3 500)
           = Ok data2
        /\ map len data2
           = [3; 3; 3; 3; 3; 3; 3; 500; 500; 500; 500; 500; 500; 500]
        /\ row_count data2 = 3
        /\ MemoryTMNF.__len__ demo_config data2 = 0).
Proof.
  split.
  - eexists. split; [vm_compute; reflexivity|].
    split; [vm_compute; reflexivity|].
    split; [vm_compute; reflexivity|].
    split; vm_compute; [intros H; now apply H | discriminate].
  - eexists. eexists. split; [vm_compute; reflexivity|].
    split; [vm_compute; reflexivity|].
    split; [vm_compute; reflexivity|].
    split; vm_compute; reflexivity.
Qed.

Lemma append_buffer_bounds_witness :
  exists data',
    MemoryTMNFLidar.append_buffer demo_config [] (demo_buffer 0 150) = Ok data'
    /\ MemoryTMNF.__len__ demo_config data' <= 100
    /\ row_count data' = 150 - 45
    /\ (forall col, In col (firstn 7 data') -> len col = row_count data')
    /\ skipn 7 data' = [].
Proof.
  destruct (append_buffer_bounds demo_config [] (demo_buffer 0 150)
              ltac:(simpl; lia) ltac:(simpl; lia) ltac:(simpl; lia)
              (reach_init demo_config))
    as (data' & Hrun & Hlen & _ & _ & _ & Hfront & Hext & _ & Hrows).
  exists data'. split; [exact Hrun|]. split; [exact Hlen|].
  split; [apply Hrows; reflexivity|]. split; [exact Hfront|].
  exact (proj2 (Hext eq_refl)).
Defined.

Lemma append_buffer_fifo_witness :
  MemoryTMNFLidar.append_buffer (MemoryTMNF.Config 3 4 1) (demo_store 10)
    (demo_buffer 10 3)
  = Ok (map (skipn 5) (demo_store 13)).
Proof.
  exact (append_buffer_fifo (MemoryTMNF.Config 3 4 1)
           (consecutive 0 10) (demo_column 100 10) (demo_column 200 10)
           (demo_column 300 10) (repeat (VBool false) 10)
           (demo_column 400 10) (demo_column 500 10) [] 9 (demo_buffer 10 3)
           eq_refl eq_refl).
Defined.

Lemma short_first_buffer_blocks_witness :
  exists data',
    append_all demo_config [] [demo_buffer 0 5; demo_buffer 5 20] = Ok data'
    /\ MemoryTMNF.__len__ demo_config data' = 0
    /\ firstn 7 data' = columns_of 0 (demo_buffer 0 5)
    /\ length data' = 14%nat.
Proof.
  exact (short_first_buffer_blocks demo_config (demo_buffer 0 5)
           [demo_buffer 5 20]
           ltac:(simpl; lia) ltac:(simpl; lia) ltac:(simpl; lia)
           ltac:(vm_compute; discriminate)).
Defined.

Lemma appended_samples_are_read_witness :
  MemoryTMNFLidar.append_buffer small_config [] (demo_buffer 0 8)
  = Ok (map (skipn 2) (demo_store 8))
  /\ MemoryTMNFLidar.get_transition (fun x => x) small_config
       (map (skipn 2) (demo_store 8)) 0
     = Ok (MemoryTMNFLidar.Transition
             (Observation (VObj 203) [VObj 302; VObj 303] [VObj 103])
             (VObj 104) (VObj 404)
             (Observation (VObj 204) [VObj 303; VObj 304] [VObj 104])
             (VBool false) (VObj 504)).
Proof.
  split; [reflexivity|].
  destruct (appended_samples_are_read (fun x => x) small_config
              (demo_buffer 0 8) (map (skipn 2) (demo_store 8)) 0
              ltac:(simpl; lia) ltac:(simpl; lia)
              ltac:(vm_compute; discriminate) eq_refl
              ltac:(vm_compute; split; [discriminate|reflexivity]))
    as (b_last & b_now & Hlast & Hnow & Hget).
  vm_compute in Hlast, Hnow.
  injection Hlast as <-. injection Hnow as <-. exact Hget.
Defined.

Lemma get_trajectory_windows_witness :
  TrajMemoryTMNFLidar.get_trajectory (fun x => x)
    (TrajMemoryTMNFLidar.Config 100 4 1 3) (demo_store 10) 0
  = Ok (TrajMemoryTMNFLidar.Trajectory
          [Observation (VObj 206) [VObj 303; VObj 304; VObj 305; VObj 306]
             [VObj 106];
           Observation (VObj 207) [VObj 304; VObj 305; VObj 306; VObj 307]
             [VObj 107];
           Observation (VObj 208) [VObj 305; VObj 306; VObj 307; VObj 308]
             [VObj 108]]
          [VObj 406; VObj 407; VObj 408]
          [VBool false; VBool false; VBool false]
          [VObj 506; VObj 507; VObj 508]).
Proof.
  exact (get_trajectory_windows (fun x => x)
           (TrajMemoryTMNFLidar.Config 100 4 1 3) (demo_store 10)
           _ _ _ _ _ _ _ 0
           ltac:(simpl; lia) ltac:(simpl; lia) ltac:(simpl; lia)
           (demo_store_aligned 10) ltac:(lia) eq_refl).
Defined.

Lemma short_trajectories_fit_witness :
  TrajMemoryTMNFLidar.get_trajectory (fun x => x)
    (TrajMemoryTMNFLidar.Config 100 4 1 2) (demo_store 10) 3
  = Ok (TrajMemoryTMNFLidar.Trajectory
          [Observation (VObj 208) [VObj 305; VObj 306; VObj 307; VObj 308]
             [VObj 108];
           Observation (VObj 209) [VObj 306; VObj 307; VObj 308; VObj 309]
             [VObj 109]]
          [VObj 408; VObj 409]
          [VBool false; VBool false]
          [VObj 508; VObj 509]).
Proof.
  exact (short_trajectories_fit (fun x => x)
           (TrajMemoryTMNFLidar.Config 100 4 1 2) (demo_store 10)
           _ _ _ _ _ _ _ 3
           ltac:(simpl; lia) ltac:(simpl; lia) ltac:(simpl; lia)
           (demo_store_aligned 10)
           ltac:(vm_compute; split; [discriminate|reflexivity])).
Defined.

Lemma long_trajectories_overrun_witness :
  TrajMemoryTMNFLidar.__len__ (TrajMemoryTMNFLidar.Config 100 4 1 3)
    (demo_store 10) = 3
  /\ TrajMemoryTMNFLidar.get_trajectory (fun x => x)
       (TrajMemoryTMNFLidar.Config 100 4 1 3) (demo_store 10) 2
     = Raise IndexError.
Proof.
  split; [reflexivity|].
  exact (long_trajectories_overrun (fun x => x)
           (TrajMemoryTMNFLidar.Config 100 4 1 3) (demo_store 10)
           _ _ _ _ _ _ _ 2
           ltac:(simpl; lia) ltac:(simpl; lia) ltac:(simpl; lia)
           (demo_store_aligned 10)
           ltac:(vm_compute; split; [discriminate|reflexivity])
           ltac:(vm_compute; discriminate)).
Defined.

Lemma traj_append_buffer_bounds_witness :
  exists data' k,
    TrajMemoryTMNFLidar.append_buffer (TrajMemoryTMNFLidar.Config 3 2 1 2) []
      (demo_buffer 0 10) = Ok data'
    /\ TrajMemoryTMNFLidar.__len__ (TrajMemoryTMNFLidar.Config 3 2 1 2) data'
       <= 3
    /\ index_column data' = consecutive k (length (index_column data'))
    /\ row_count data' <= 3 + 3 + 1
    /\ length (firstn 7 data') = 7%nat
    /\ (forall col, In col (firstn 7 data') -> len col = row_count data')
    /\ skipn 7 data' = [].
Proof.
  destruct (traj_append_buffer_bounds (TrajMemoryTMNFLidar.Config 3 2 1 2) []
              (demo_buffer 0 10)
              ltac:(simpl; lia) ltac:(simpl; lia) ltac:(simpl; lia)
              ltac:(simpl; lia)
              (traj_reach_init (TrajMemoryTMNFLidar.Config 3 2 1 2)))
    as (data' & k & Hrun & Hlen & Hidx & Hrows & Hseven & Hfront & Hsame & _).
  exists data', k. repeat (split; [assumption|]).
  apply Hsame. now left.
Defined.

Lemma run_epoch_accounts_witness :
  TrainingOffline.run_epoch (MemoryTMNFLidar.append demo_config) 2
    demo_pacing demo_world = (TrainingOffline.Done, demo_world_after)
  /\ TrainingOffline.total_samples (TrainingOffline.self demo_world_after)
     = 15
  /\ TrainingOffline.total_updates (TrainingOffline.self demo_world_after)
     = 2
  /\ TrainingOffline.epoch (TrainingOffline.self demo_world_after) = 1.
Proof.
  assert (Hrun : TrainingOffline.run_epoch (MemoryTMNFLidar.append demo_config)
                   2 demo_pacing demo_world
                 = (TrainingOffline.Done, demo_world_after))
    by (vm_compute; reflexivity).
  split; [exact Hrun|].
  destruct (run_epoch_accounts (store Z) (MemoryTMNFLidar.sample Z)
              (MemoryTMNFLidar.append demo_config) 2 demo_pacing
              demo_world demo_world_after Hrun)
    as (taken & _ & _ & _ & Hu & He).
  split; [vm_compute; reflexivity|]. split; [exact Hu|exact He].
Defined.

Lemma broadcasts_keep_cadence_witness :
  cadence 2
    (TrainingOffline.log
       (snd (TrainingOffline.run_epoch (MemoryTMNFLidar.append demo_config) 2
               (TrainingOffline.Config 1 2 1) demo_world)))
  /\ In TrainingOffline.EvBroadcast
       (TrainingOffline.log
          (snd (TrainingOffline.run_epoch (MemoryTMNFLidar.append demo_config)
                  2 (TrainingOffline.Config 1 2 1) demo_world))).
Proof.
  split.
  - exact (proj1 (broadcasts_keep_cadence (store Z) (MemoryTMNFLidar.sample Z)
                    (MemoryTMNFLidar.append demo_config) 2
                    (TrainingOffline.Config 1 2 1) demo_world
                    (fst (TrainingOffline.run_epoch
                            (MemoryTMNFLidar.append demo_config) 2
                            (TrainingOffline.Config 1 2 1) demo_world))
                    (snd (TrainingOffline.run_epoch
                            (MemoryTMNFLidar.append demo_config) 2
                            (TrainingOffline.Config 1 2 1) demo_world))
                    ltac:(simpl; lia) I I (surjective_pairing _))).
  - vm_compute. tauto.
Defined.

Lemma zero_interval_stops_training_witness :
  fst (TrainingOffline.run_epoch (MemoryTMNFLidar.append demo_config) 2
         (TrainingOffline.Config 1 0 1) demo_world)
  = TrainingOffline.Raised ZeroDivisionError
  /\ TrainingOffline.epoch
       (TrainingOffline.self
          (snd (TrainingOffline.run_epoch (MemoryTMNFLidar.append demo_config)
                  2 (TrainingOffline.Config 1 0 1) demo_world))) = 0.
Proof.
  split; [vm_compute; reflexivity|].
  exact (proj1 (proj2
           (zero_interval_stops_training (store Z) (MemoryTMNFLidar.sample Z)
              (MemoryTMNFLidar.append demo_config) 2
              (TrainingOffline.Config 1 0 1) demo_world
              (fst (TrainingOffline.run_epoch
                      (MemoryTMNFLidar.append demo_config) 2
                      (TrainingOffline.Config 1 0 1) demo_world))
              (snd (TrainingOffline.run_epoch
                      (MemoryTMNFLidar.append demo_config) 2
                      (TrainingOffline.Config 1 0 1) demo_world))
              eq_refl ltac:(lia) ltac:(simpl; lia) (surjective_pairing _)))).
Defined.

Lemma get_local_buffer_sample_keeps_witness :
  MemoryTMNFLidar.get_local_buffer_sample (fun x => x)
    (Compression.Step (VObj 101) (VObj 201, []) (VObj 401) (VBool false)
       (VObj 501))
  = Raise IndexError
  /\ MemoryTMNFLidar.get_local_buffer_sample (fun x => x) (demo_step 1)
     = Ok (demo_sample 1).
Proof.
  split.
  - exact (proj1 (get_local_buffer_sample_keeps (fun x => x)
                    (Compression.Step (VObj 101) (VObj 201, []) (VObj 401)
                       (VBool false) (VObj 501))) eq_refl).
  - exact (proj2 (get_local_buffer_sample_keeps (fun x => x) (demo_step 1))
             ltac:(discriminate)).
Defined.

Lemma demo_steps_rolling : rolling 2 (demo_steps 8).
Proof.
  intros j s Hj Hn.
  do 8 (destruct j as [|j];
        [try (cbn [Nat.add] in Hn; lia);
         vm_compute in Hj; injection Hj as <-; reflexivity|]).
  destruct j; discriminate.
Qed.

Lemma frame_histories_are_rebuilt_witness :
  exists t,
    MemoryTMNFLidar.get_transition (fun x => x) small_config
      (map (skipn 2) (demo_store 8)) 0 = Ok t
    /\ o_imgs (MemoryTMNFLidar.t_last_obs t) = [VObj 302; VObj 303]
    /\ o_imgs (MemoryTMNFLidar.t_new_obs t) = [VObj 303; VObj 304].
Proof.
  destruct (frame_histories_are_rebuilt (fun x => x) small_config
              (demo_steps 8) (demo_buffer 0 8)
              (map (skipn 2) (demo_store 8)) 0
              ltac:(simpl; lia) ltac:(simpl; lia)
              demo_steps_rolling eq_refl eq_refl
              ltac:(vm_compute; split; [discriminate|reflexivity]))
    as (s_last & s_now & t & Hlast & Hnow & Hget & Hli & Hni & _).
  vm_compute in Hlast, Hnow.
  injection Hlast as <-. injection Hnow as <-.
  exists t. split; [exact Hget|]. split; [exact Hli|exact Hni].
Defined.

Lemma tm2020_full_reachable :
  tm2020_reachable (fun x => x) tm2020_small tm2020_full.
Proof.
  exact (tm2020_append (fun x => x) tm2020_small (MemoryTM2020.Memory [] [])
           tm2020_full (tm2020_buffer 0 8)
           (tm2020_init (fun x => x) tm2020_small []) eq_refl).
Qed.

Lemma tm2020_indices_wrap_witness :
  index_column (MemoryTM2020.data tm2020_full)
  = [VInt 2; VInt 0; VInt 1; VInt 2; VInt 0; VInt 1]
  /\ (forall i x y,
        nth_error (index_column (MemoryTM2020.data tm2020_full)) i = Some x ->
        nth_error (index_column (MemoryTM2020.data tm2020_full)) (i + 3)
        = Some y ->
        x = y).
Proof.
  split; [reflexivity|].
  exact (proj2 (tm2020_indices_wrap (fun x => x) tm2020_small tm2020_full
                  ltac:(simpl; lia) ltac:(simpl; lia) ltac:(simpl; lia)
                  tm2020_full_reachable)).
Defined.

Lemma tm2020_oldest_images_are_newest_witness :
  exists t t',
    MemoryTM2020.get_transition (fun x => Ok x) (fun x => x) (fun x => x)
      tm2020_small (MemoryTM2020.data tm2020_full) 0 = Ok t
    /\ MemoryTM2020.get_transition (fun x => Ok x) (fun x => x) (fun x => x)
         tm2020_small (MemoryTM2020.data tm2020_full) 2 = Ok t'
    /\ MemoryTM2020.o_imgs (MemoryTM2020.t_last_obs t) = [VInt 2; VInt 0]
    /\ MemoryTM2020.o_imgs (MemoryTM2020.t_new_obs t')
       = MemoryTM2020.o_imgs (MemoryTM2020.t_last_obs t).
Proof.
  eexists. eexists.
  split; [vm_compute; reflexivity|].
  split; [vm_compute; reflexivity|].
  split; [reflexivity|].
  symmetry.
  exact (tm2020_oldest_images_are_newest (fun x => x) (fun x => Ok x)
           (fun x => x) (fun x => x) tm2020_small tm2020_full 0 _ _
           ltac:(simpl; lia) ltac:(simpl; lia) ltac:(simpl; lia)
           tm2020_full_reachable ltac:(lia) eq_refl eq_refl).
Defined.

Lemma tm2020_zero_capacity_raises_witness :
  MemoryTM2020.append_buffer (fun x => x) (MemoryTM2020.Config 0 2 1)
    (MemoryTM2020.Memory [] []) (tm2020_buffer 0 1)
  = Raise ZeroDivisionError.
Proof.
  exact (tm2020_zero_capacity_raises (fun x => x) (MemoryTM2020.Config 0 2 1)
           (MemoryTM2020.Memory [] []) (tm2020_buffer 0 1)
           eq_refl ltac:(simpl; lia) ltac:(simpl; lia)
           (tm2020_init (fun x => x) (MemoryTM2020.Config 0 2 1) [])
           ltac:(discriminate)).
Defined.

Lemma tm2020_append_buffer_bounds_witness :
  exists m' n,
    MemoryTM2020.append_buffer (fun x => x) tm2020_small tm2020_full
      (tm2020_buffer 8 4) = Ok m'
    /\ MemoryTM2020.__len__ tm2020_small (MemoryTM2020.data m') = Ok n
    /\ 0 <= n <= 3.
Proof.
  exact (tm2020_append_buffer_bounds (fun x => x) tm2020_small tm2020_full
           (tm2020_buffer 8 4)
           ltac:(simpl; lia) ltac:(simpl; lia) ltac:(simpl; lia)
           tm2020_full_reachable).
Defined.

Lemma tm2020_get_transition_reads_witness :
  MemoryTM2020.get_transition (fun x => Ok x) (fun x => x) (fun x => x)
    tm2020_small (tm2020_store 6) 1
  = Ok (MemoryTM2020.Transition
          (MemoryTM2020.Observation (VObj 202) (VObj 302) (VObj 402)
             [VInt 1; VInt 2] [VObj 102])
          (VObj 103) (VObj 603)
          (MemoryTM2020.Observation (VObj 203) (VObj 303) (VObj 403)
             [VInt 2; VInt 3] [VObj 103])
          (VBool false) (VObj 703)).
Proof.
  exact (tm2020_get_transition_reads (fun x => Ok x) (fun x => x)
           (fun x => x) tm2020_small
           (consecutive 0 6) (demo_column 100 6) (demo_column 200 6)
           (demo_column 300 6) (demo_column 400 6) (repeat (VBool false) 6)
           (demo_column 600 6) (demo_column 700 6) [] 1 (fun x => x)
           ltac:(simpl; lia) ltac:(simpl; lia) ltac:(vm_compute; discriminate)
           eq_refl eq_refl eq_refl eq_refl eq_refl eq_refl eq_refl
           ltac:(lia) ltac:(vm_compute; reflexivity)
           (fun x _ => eq_refl)).
Defined.

Lemma cognifly_append_buffer_bounds_witness :
  exists data' n,
    MemoryCognifly.append_buffer cognifly_config [] (cognifly_buffer 0 8)
    = Ok data'
    /\ MemoryCognifly.__len__ cognifly_config data' = Ok n
    /\ 0 <= n <= 3
    /\ (forall i x,
          nth_error (index_column data') i = Some x ->
          exists z, x = VInt z /\ 0 <= z < 3).
Proof.
  exact (cognifly_append_buffer_bounds cognifly_config []
           (cognifly_buffer 0 8)
           ltac:(simpl; lia) ltac:(simpl; lia) ltac:(simpl; lia)
           (cognifly_init cognifly_config)).
Defined.

Lemma cognifly_get_transition_rows_witness :
  MemoryCognifly.get_transition (fun x => x) (fun x => x) cognifly_config
    (cognifly_store 6) 1
  = Ok (MemoryCognifly.Transition
          (MemoryCognifly.Observation (VObj 202) (VObj 302) (VObj 402)
             (VObj 502) (VObj 602) (VObj 702) [VObj 102])
          (VObj 103) (VObj 903)
          (MemoryCognifly.Observation (VObj 203) (VObj 303) (VObj 403)
             (VObj 503) (VObj 603) (VObj 703) [VObj 103])
          (VBool false) (VObj 1003)).
Proof.
  exact (cognifly_get_transition_rows (fun x => x) (fun x => x)
           cognifly_config
           (consecutive 0 6) (demo_column 100 6) (demo_column 200 6)
           (demo_column 300 6) (demo_column 400 6) (demo_column 500 6)
           (demo_column 600 6) (demo_column 700 6) (repeat (VBool false) 6)
           (demo_column 900 6) (demo_column 1000 6) [] 1
           ltac:(simpl; lia) ltac:(simpl; lia) ltac:(vm_compute; discriminate)
           eq_refl eq_refl eq_refl eq_refl eq_refl eq_refl eq_refl eq_refl
           eq_refl eq_refl
           ltac:(lia) ltac:(vm_compute; reflexivity)).
Defined.
